(** * Meshtastic bridge: the message routing core

    A shallow embedding of the admission filter ([message_filter.py]) and of
    the router's per-message pipeline ([bridge_enhanced.py]), with the
    properties of the routing core stated and proved over it.

    Python values are modelled as follows.
    - [str] is [string]; a text that came out of [bytes.decode] is held as
      its UTF-8 bytes.
    - [int] is [Z]; counters, which only ever grow from zero, are [nat].
    - a [set] built from a configuration list is that list, read through
      membership and emptiness only.
    - a [dict] read with [.get(key, default)] is a record of optional
      fields, the default applied at the read.
    - a call that may raise returns [Exc]; [try]/[except] is [try_except].
    - the standard library calls [str.lower], [re.compile] and [int] are
      the operations of the class [PyLib]; [re.compile] raises [re.error]
      or another exception.
    - a call that takes a lock which is never released does not return:
      the database manager ([database.py]) is its lock and its
      connection, a call on it [Returns] or [Blocks], and a pass whose
      call blocks ends with that call.

    The rest of the filter's interface, the router's sending by radio
    name, the metrics collector ([metrics.py]), the configuration
    ([config.py]) and the MQTT command path ([mqtt_bridge.py]) follow,
    with these additions.
    - a [dict] that is written to is an association list in insertion
      order, with [dict_get] and [dict_set].
    - a value read from a YAML or JSON file is a [Value].
    - a processing time, a finite [float], is the rational it stands for.
    - [json.loads] is the operation of the class [JsonLib], and raises
      [JSONDecodeError] or another exception; [os.path]'s [exists] and
      [dirname] are arguments of [validate].  *)

From Stdlib Require Import ZArith NArith List String Ascii Strings.Byte.
From Stdlib Require Import Bool Lia Arith.
From Stdlib Require Import Sorting.Sorted Sorting.Permutation.
From Stdlib Require DecimalString DecimalNat QArith.
Import ListNotations.

Open Scope string_scope.
Open Scope list_scope.

(* ================================================================== *)
(** * Exceptions *)

Inductive PyExc : Type :=
| ReError              (* re.error *)
| ValueError
| TypeError
| UnicodeDecodeError
| LinkError            (* whatever a radio interface raises on sendText *)
| OverflowError
| RecursionError
| JSONDecodeError      (* json.JSONDecodeError *)
| AttributeError
| SqliteError.         (* sqlite3.Error *)

Definition PyExc_eqb (a b : PyExc) : bool :=
  match a, b with
  | ReError, ReError | ValueError, ValueError | TypeError, TypeError
  | UnicodeDecodeError, UnicodeDecodeError | LinkError, LinkError
  | OverflowError, OverflowError | RecursionError, RecursionError
  | JSONDecodeError, JSONDecodeError | AttributeError, AttributeError
  | SqliteError, SqliteError => true
  | _, _ => false
  end.

Inductive Exc (A : Type) : Type :=
| Ok (a : A)
| Raise (e : PyExc).

Arguments Ok {A} a.
Arguments Raise {A} e.

Definition bindE {A B : Type} (c : Exc A) (k : A -> Exc B) : Exc B :=
  match c with
  | Ok a => k a
  | Raise e => Raise e
  end.

Notation "x <- c ;; k" := (bindE c (fun x => k))
  (at level 61, c at next level, right associativity).

(** [try: body except (classes): handler]. *)
Definition try_except {A : Type} (body : Exc A) (classes : list PyExc)
    (handler : Exc A) : Exc A :=
  match body with
  | Ok a => Ok a
  | Raise e => if existsb (PyExc_eqb e) classes then handler else Raise e
  end.

(** A library call that raises exactly one exception class. *)
Definition raising {A : Type} (e : PyExc) (r : option A) : Exc A :=
  match r with
  | Some a => Ok a
  | None => Raise e
  end.

(* ================================================================== *)
(** * Strings *)

(** [needle in hay] on [str]: substring search. *)
Fixpoint contains (needle hay : string) : bool :=
  match hay with
  | EmptyString => prefix needle EmptyString
  | String _ hay' => prefix needle hay || contains needle hay'
  end.

(** Truth value of a Python [str]: [not text] is [is_empty text]. *)
Definition is_empty (s : string) : bool :=
  match s with
  | EmptyString => true
  | String _ _ => false
  end.

Definition mem_str (x : string) (xs : list string) : bool :=
  existsb (String.eqb x) xs.

Definition mem_Z (x : Z) (xs : list Z) : bool :=
  existsb (Z.eqb x) xs.

Definition nonempty {A : Type} (xs : list A) : bool :=
  match xs with
  | [] => false
  | _ :: _ => true
  end.

(* ================================================================== *)
(** * The Python library, as far as the filter calls it *)

(** A compiled pattern object: [re.compile(src, re.IGNORECASE)]. *)
Record Pattern : Type := {
  pattern_src : string;
  search : string -> bool       (* bool(p.search(text)) *)
}.

(** [lower s] is [s.lower()].  [re_compile src] is
    [re.compile(src, re.IGNORECASE)]: the pattern object, or the exception
    raised, which is [re.error] for a pattern that is not well formed and
    can be another one ([OverflowError] for a repetition count that is too
    large, [RecursionError]).  [py_int s] is [None] when [int(s)] raises
    [ValueError], the one exception it raises for a string. *)
Class PyLib : Type := {
  lower : string -> string;
  re_compile : string -> Exc Pattern;
  py_int : string -> option Z
}.

(* ================================================================== *)
(** * message_filter.py *)

Record FilterRule : Type := {
  name : string;
  filter_type : string;         (* 'keyword', 'regex', 'sender', 'channel' *)
  pattern : string;
  action : string;              (* 'allow', 'block' *)
  priority : Z
}.

(** One entry of the [custom_rules] configuration list. *)
Record RuleData : Type := {
  rd_name : option string;
  rd_type : option string;
  rd_pattern : option string;
  rd_action : option string;
  rd_priority : option Z
}.

Record ContentFilters : Type := {
  cf_keywords : option (list string);
  cf_regex_patterns : option (list string)
}.

Record FilterConfig : Type := {
  cfg_enabled : option bool;
  cfg_whitelist_nodes : option (list string);
  cfg_blacklist_nodes : option (list string);
  cfg_content_filters : option ContentFilters;
  cfg_allowed_channels : option (list Z);
  cfg_blocked_channels : option (list Z);
  cfg_custom_rules : option (list RuleData)
}.

(** [d.get(key, default)] *)
Definition get {A : Type} (field : option A) (default : A) : A :=
  match field with
  | Some v => v
  | None => default
  end.

Record FilterStats : Type := {
  total_checked : nat;
  total_allowed : nat;
  total_blocked : nat;
  blocked_by_sender : nat;
  blocked_by_content : nat;
  blocked_by_channel : nat
}.

Definition zero_stats : FilterStats :=
  {| total_checked := 0; total_allowed := 0; total_blocked := 0;
     blocked_by_sender := 0; blocked_by_content := 0;
     blocked_by_channel := 0 |}.

Record MessageFilter : Type := {
  enabled : bool;
  whitelist_nodes : list string;
  blacklist_nodes : list string;
  keywords : list string;
  regex_patterns : list Pattern;
  allowed_channels : list Z;
  blocked_channels : list Z;
  custom_rules : list FilterRule;
  stats : FilterStats
}.

(** The message dictionary handed to the filter. *)
Record Message : Type := {
  m_id : option Z;
  m_from : option string;
  m_to : option string;
  m_text : option string;
  m_channel : option Z
}.

Definition with_stats (f : MessageFilter) (s : FilterStats) : MessageFilter :=
  {| enabled := enabled f;
     whitelist_nodes := whitelist_nodes f;
     blacklist_nodes := blacklist_nodes f;
     keywords := keywords f;
     regex_patterns := regex_patterns f;
     allowed_channels := allowed_channels f;
     blocked_channels := blocked_channels f;
     custom_rules := custom_rules f;
     stats := s |}.

Definition with_rules (f : MessageFilter) (rs : list FilterRule)
    : MessageFilter :=
  {| enabled := enabled f;
     whitelist_nodes := whitelist_nodes f;
     blacklist_nodes := blacklist_nodes f;
     keywords := keywords f;
     regex_patterns := regex_patterns f;
     allowed_channels := allowed_channels f;
     blocked_channels := blocked_channels f;
     custom_rules := rs;
     stats := stats f |}.

(** [self.stats[key] += 1], one definition per key. *)
Definition incr_total_checked (s : FilterStats) : FilterStats :=
  {| total_checked := S (total_checked s);
     total_allowed := total_allowed s;
     total_blocked := total_blocked s;
     blocked_by_sender := blocked_by_sender s;
     blocked_by_content := blocked_by_content s;
     blocked_by_channel := blocked_by_channel s |}.

Definition incr_total_allowed (s : FilterStats) : FilterStats :=
  {| total_checked := total_checked s;
     total_allowed := S (total_allowed s);
     total_blocked := total_blocked s;
     blocked_by_sender := blocked_by_sender s;
     blocked_by_content := blocked_by_content s;
     blocked_by_channel := blocked_by_channel s |}.

Definition incr_total_blocked (s : FilterStats) : FilterStats :=
  {| total_checked := total_checked s;
     total_allowed := total_allowed s;
     total_blocked := S (total_blocked s);
     blocked_by_sender := blocked_by_sender s;
     blocked_by_content := blocked_by_content s;
     blocked_by_channel := blocked_by_channel s |}.

Definition incr_blocked_by_sender (s : FilterStats) : FilterStats :=
  {| total_checked := total_checked s;
     total_allowed := total_allowed s;
     total_blocked := total_blocked s;
     blocked_by_sender := S (blocked_by_sender s);
     blocked_by_content := blocked_by_content s;
     blocked_by_channel := blocked_by_channel s |}.

Definition incr_blocked_by_content (s : FilterStats) : FilterStats :=
  {| total_checked := total_checked s;
     total_allowed := total_allowed s;
     total_blocked := total_blocked s;
     blocked_by_sender := blocked_by_sender s;
     blocked_by_content := S (blocked_by_content s);
     blocked_by_channel := blocked_by_channel s |}.

Definition incr_blocked_by_channel (s : FilterStats) : FilterStats :=
  {| total_checked := total_checked s;
     total_allowed := total_allowed s;
     total_blocked := total_blocked s;
     blocked_by_sender := blocked_by_sender s;
     blocked_by_content := blocked_by_content s;
     blocked_by_channel := S (blocked_by_channel s) |}.

(** [list.sort(key=lambda r: r.priority, reverse=True)]: a stable sort,
    highest priority first; rules of equal priority keep their order. *)
Fixpoint insert_rule (r : FilterRule) (rs : list FilterRule)
    : list FilterRule :=
  match rs with
  | [] => [r]
  | r' :: rs' =>
      if (priority r <? priority r')%Z then r' :: insert_rule r rs'
      else r :: rs
  end.

Fixpoint sort_rules (rs : list FilterRule) : list FilterRule :=
  match rs with
  | [] => []
  | r :: rs' => insert_rule r (sort_rules rs')
  end.

Definition rule_of_data (rule_data : RuleData) : FilterRule :=
  {| name := get (rd_name rule_data) "Unnamed";
     filter_type := get (rd_type rule_data) "keyword";
     pattern := get (rd_pattern rule_data) "";
     action := get (rd_action rule_data) "allow";
     priority := get (rd_priority rule_data) 0%Z |}.

(** [_load_custom_rules]: every entry becomes a rule (no pattern is looked
    at), then the list is sorted. *)
Definition _load_custom_rules (config : FilterConfig) : list FilterRule :=
  sort_rules (map rule_of_data (get (cfg_custom_rules config) [])).

Definition add_rule (f : MessageFilter) (rule : FilterRule) : MessageFilter :=
  with_rules f (sort_rules (custom_rules f ++ [rule])).

Fixpoint remove_first (n : string) (rs : list FilterRule)
    : option (list FilterRule) :=
  match rs with
  | [] => None
  | r :: rs' =>
      if String.eqb (name r) n then Some rs'
      else match remove_first n rs' with
           | Some rs'' => Some (r :: rs'')
           | None => None
           end
  end.

Definition remove_rule (f : MessageFilter) (n : string)
    : bool * MessageFilter :=
  match remove_first n (custom_rules f) with
  | Some rs => (true, with_rules f rs)
  | None => (false, f)
  end.

Definition reset_stats (f : MessageFilter) : MessageFilter :=
  with_stats f zero_stats.

Section Filter.
Context {lib : PyLib}.

(** The loop of [__init__] over [regex_patterns]: a pattern for which
    [re.compile] raises [re.error] is logged and left out; any other
    exception leaves the loop, and [__init__] with it. *)
Fixpoint compile_patterns (srcs : list string) : Exc (list Pattern) :=
  match srcs with
  | [] => Ok []
  | src :: rest =>
      ps <- try_except (p <- re_compile src ;; Ok [p]) [ReError] (Ok []) ;;
      later <- compile_patterns rest ;;
      Ok (ps ++ later)
  end.

(** [__init__]: the filter object, unless compiling a pattern raised. *)
Definition MessageFilter_init (config : FilterConfig) : Exc MessageFilter :=
  let content_filters :=
    get (cfg_content_filters config)
        {| cf_keywords := None; cf_regex_patterns := None |} in
  patterns <- compile_patterns (get (cf_regex_patterns content_filters) []) ;;
  Ok {| enabled := get (cfg_enabled config) false;
        whitelist_nodes := get (cfg_whitelist_nodes config) [];
        blacklist_nodes := get (cfg_blacklist_nodes config) [];
        keywords := get (cf_keywords content_filters) [];
        regex_patterns := patterns;
        allowed_channels := get (cfg_allowed_channels config) [];
        blocked_channels := get (cfg_blocked_channels config) [];
        custom_rules := _load_custom_rules config;
        stats := zero_stats |}.

(** [_check_content]: [true] when the content is allowed. *)
Definition _check_content (f : MessageFilter) (text : string) : bool :=
  if is_empty text then true
  else
    let text_lower := lower text in
    if existsb (fun keyword => contains (lower keyword) text_lower)
               (keywords f)
    then false
    else if existsb (fun p => search p text) (regex_patterns f) then false
    else true.

(** [_evaluate_rule]: does the rule match the message? *)
Definition _evaluate_rule (rule : FilterRule) (message : Message)
    : Exc bool :=
  if String.eqb (filter_type rule) "keyword" then
    let text := get (m_text message) "" in
    Ok (contains (lower (pattern rule)) (lower text))
  else if String.eqb (filter_type rule) "regex" then
    let text := get (m_text message) "" in
    try_except
      (p <- re_compile (pattern rule) ;;
       Ok (search p text))
      [ReError]
      (Ok false)
  else if String.eqb (filter_type rule) "sender" then
    let from_node := get (m_from message) "" in
    Ok (contains (pattern rule) from_node)
  else if String.eqb (filter_type rule) "channel" then
    let channel := get (m_channel message) 0%Z in
    try_except
      (n <- raising ValueError (py_int (pattern rule)) ;;
       Ok (Z.eqb channel n))
      [ValueError; TypeError]
      (Ok false)
  else Ok false.

(** [_check_custom_rules]: [true] when the message is allowed. *)
Fixpoint _check_custom_rules (rules : list FilterRule) (message : Message)
    : Exc bool :=
  match rules with
  | [] => Ok true
  | rule :: rest =>
      matched <- _evaluate_rule rule message ;;
      if matched then
        if String.eqb (action rule) "block" then Ok false
        else if String.eqb (action rule) "allow" then Ok true
        else _check_custom_rules rest message
      else _check_custom_rules rest message
  end.

(** [should_forward]: the outcome, and the filter with its counters as the
    call leaves them. *)
Definition should_forward (f : MessageFilter) (message : Message)
    : Exc bool * MessageFilter :=
  if negb (enabled f) then (Ok true, f)
  else
    let s := incr_total_checked (stats f) in
    let from_node := get (m_from message) "" in
    let text := get (m_text message) "" in
    let channel := get (m_channel message) 0%Z in
    if nonempty (whitelist_nodes f)
       && negb (mem_str from_node (whitelist_nodes f)) then
      (Ok false, with_stats f (incr_blocked_by_sender (incr_total_blocked s)))
    else if mem_str from_node (blacklist_nodes f) then
      (Ok false, with_stats f (incr_blocked_by_sender (incr_total_blocked s)))
    else if nonempty (allowed_channels f)
            && negb (mem_Z channel (allowed_channels f)) then
      (Ok false, with_stats f (incr_blocked_by_channel (incr_total_blocked s)))
    else if mem_Z channel (blocked_channels f) then
      (Ok false, with_stats f (incr_blocked_by_channel (incr_total_blocked s)))
    else if negb (_check_content f text) then
      (Ok false, with_stats f (incr_blocked_by_content (incr_total_blocked s)))
    else
      match _check_custom_rules (custom_rules f) message with
      | Raise e => (Raise e, with_stats f s)
      | Ok false => (Ok false, with_stats f (incr_total_blocked s))
      | Ok true => (Ok true, with_stats f (incr_total_allowed s))
      end.

End Filter.

(* ================================================================== *)
(** * bytes.decode('utf-8', errors=...) *)

Inductive ErrorHandler : Type := Strict | Ignore | Replace.

Definition continuation (b : byte) : bool :=
  (0x80 <=? Byte.to_N b)%N && (Byte.to_N b <? 0xC0)%N.

(** What stands at the head of the input: a well-formed sequence of [n]
    bytes, or an error whose range is the next [n] bytes. *)
Inductive Scan : Type :=
| Sequence (n : nat)
| Malformed (n : nat).

(** One step of the decoder.  An error's range is one byte for an invalid
    start byte, the bytes accepted so far for an invalid continuation byte,
    and the rest of the input when it ends inside a sequence. *)
Definition utf8_scan (bs : list byte) : Scan :=
  match bs with
  | [] => Sequence 0
  | b1 :: rest =>
      let ch := Byte.to_N b1 in
      if (ch <? 0x80)%N then Sequence 1
      else if (ch <? 0xC2)%N then Malformed 1
      else if (ch <? 0xE0)%N then
        match rest with
        | [] => Malformed 1
        | b2 :: _ => if continuation b2 then Sequence 2 else Malformed 1
        end
      else if (ch <? 0xF0)%N then
        match rest with
        | [] => Malformed 1
        | b2 :: rest2 =>
            let ch2 := Byte.to_N b2 in
            if negb (continuation b2)
               || (if (ch2 <? 0xA0)%N then (ch =? 0xE0)%N else (ch =? 0xED)%N)
            then Malformed 1
            else match rest2 with
                 | [] => Malformed 2
                 | b3 :: _ =>
                     if continuation b3 then Sequence 3 else Malformed 2
                 end
        end
      else if (ch <? 0xF5)%N then
        match rest with
        | [] => Malformed 1
        | b2 :: rest2 =>
            let ch2 := Byte.to_N b2 in
            if negb (continuation b2)
               || (if (ch2 <? 0x90)%N then (ch =? 0xF0)%N else (ch =? 0xF4)%N)
            then Malformed 1
            else match rest2 with
                 | [] => Malformed 2
                 | b3 :: rest3 =>
                     if negb (continuation b3) then Malformed 2
                     else match rest3 with
                          | [] => Malformed 3
                          | b4 :: _ =>
                              if continuation b4 then Sequence 4
                              else Malformed 3
                          end
                 end
        end
      else Malformed 1
  end.

(** U+FFFD, as UTF-8. *)
Definition replacement_character : list byte := [xef; xbf; xbd].

(** The decoder's loop; every step consumes at least one byte, so
    [length bs] steps are enough. *)
Fixpoint decode_loop (errors : ErrorHandler) (steps : nat) (bs : list byte)
    : Exc (list byte) :=
  match steps with
  | O => Ok []
  | S steps' =>
      match bs with
      | [] => Ok []
      | _ :: _ =>
          match utf8_scan bs with
          | Sequence n =>
              out <- decode_loop errors steps' (skipn n bs) ;;
              Ok (firstn n bs ++ out)
          | Malformed n =>
              match errors with
              | Strict => Raise UnicodeDecodeError
              | Ignore => decode_loop errors steps' (skipn n bs)
              | Replace =>
                  out <- decode_loop errors steps' (skipn n bs) ;;
                  Ok (replacement_character ++ out)
              end
          end
      end
  end.

Definition utf8_decode (errors : ErrorHandler) (bs : list byte)
    : Exc (list byte) :=
  decode_loop errors (List.length bs) bs.

(** [payload.decode('utf-8', errors=...)], the text held as UTF-8. *)
Definition bytes_decode (errors : ErrorHandler) (bs : list byte)
    : Exc string :=
  out <- utf8_decode errors bs ;; Ok (string_of_list_byte out).

(* ================================================================== *)
(** * Packets *)

(** [decoded['payload']]: [bytes], or another object given by its [str()]. *)
Inductive Payload : Type :=
| PBytes (bs : list byte)
| PObject (repr : string).

Record Decoded : Type := {
  portnum : option string;
  payload : option Payload
}.

Record Packet : Type := {
  decoded : option Decoded;
  pkt_id : option Z;
  fromId : option string;
  toId : option string;
  pkt_channel : option Z
}.

(** Lines 244-249 of [_handle_message]. *)
Definition payload_text (p : Payload) : Exc string :=
  match p with
  | PBytes bs => bytes_decode Ignore bs
  | PObject repr => Ok repr
  end.

(* ================================================================== *)
(** * The history tracker

    [bridge_enhanced.py] imports [MessageTracker] from [bridge.py], which is
    not among the sources; the tracker below follows section 4.1 of the
    specification.  The clock is read once per call and passed as [now]. *)

(** Modelled from the spec: the entry dictionary of [MessageTracker]
    ([bridge.py], missing), after [TrackedEntry] of section 3. *)
Record TrackedEntry : Type := {
  entry_id : Z;
  entry_from : string;
  entry_to : string;
  entry_text : string;
  entry_channel : Z;
  firstSeenAt : Z;
  forwarded : bool;
  forwardCount : nat
}.

(** Modelled from the spec: the class [MessageTracker] ([bridge.py],
    missing); its state is the entries in the order they were recorded,
    the two bounds and the two lifetime counters of section 4.1. *)
Record MessageTracker : Type := {
  entries : list TrackedEntry;
  maxAge : Z;
  maxMessages : nat;
  totalRecorded : nat;
  totalForwarded : nat
}.

(** Modelled from the spec: the age test of [MessageTracker] (missing); an
    entry is purged once [now - firstSeenAt > maxAge]. *)
Definition live (t : MessageTracker) (now : Z) (e : TrackedEntry) : bool :=
  (now - firstSeenAt e <=? maxAge t)%Z.

(** Modelled from the spec: [MessageTracker.has_seen] (missing), the
    spec's [Seen(id)]: true iff an entry with this id currently exists; it
    has no side effect, and an entry past its age is absent from it. *)
Definition has_seen (t : MessageTracker) (now : Z) (id : Z) : bool :=
  existsb (fun e => (entry_id e =? id)%Z && live t now e) (entries t).

(** Modelled from the spec: the lookup of [MessageTracker] (missing), the
    entry an id is tracked under. *)
Definition tracked (t : MessageTracker) (id : Z) : option TrackedEntry :=
  find (fun e => (entry_id e =? id)%Z) (entries t).

(** Modelled from the spec: part of the eviction of [MessageTracker]
    (missing), removal of the first entry first seen at [at_]. *)
Fixpoint remove_first_seen_at (at_ : Z) (es : list TrackedEntry)
    : list TrackedEntry :=
  match es with
  | [] => []
  | e :: es' =>
      if (firstSeenAt e =? at_)%Z then es'
      else e :: remove_first_seen_at at_ es'
  end.

(** Modelled from the spec: part of the eviction of [MessageTracker]
    (missing), removal of the oldest-by-[firstSeenAt] entry. *)
Definition remove_oldest (es : list TrackedEntry) : list TrackedEntry :=
  match es with
  | [] => []
  | e :: es' =>
      remove_first_seen_at
        (fold_left Z.min (map firstSeenAt es') (firstSeenAt e)) es
  end.

(** Modelled from the spec: part of the eviction of [MessageTracker]
    (missing), [n] removals of the oldest entry. *)
Fixpoint remove_oldest_times (n : nat) (es : list TrackedEntry)
    : list TrackedEntry :=
  match n with
  | O => es
  | S n' => remove_oldest_times n' (remove_oldest es)
  end.

(** Modelled from the spec: the eviction of [MessageTracker] (missing); if
    [currentSize > maxMessages], the oldest entries are removed until the
    tracker is at capacity. *)
Definition evict (capacity : nat) (es : list TrackedEntry)
    : list TrackedEntry :=
  remove_oldest_times (List.length es - capacity) es.

(** Modelled from the spec: [MessageTracker.add_message] (missing), the
    spec's [Record(id, from, to, text, channel, now)].  A seen id returns
    its entry and changes nothing; otherwise the aged entries are purged,
    the new entry is inserted and the capacity is enforced. *)
Definition add_message (t : MessageTracker) (now : Z) (id : Z)
    (from_node to_node text : string) (channel : Z)
    : MessageTracker * TrackedEntry :=
  let fresh :=
    {| entry_id := id; entry_from := from_node; entry_to := to_node;
       entry_text := text; entry_channel := channel; firstSeenAt := now;
       forwarded := false; forwardCount := 0 |} in
  match find (fun e => (entry_id e =? id)%Z && live t now e) (entries t) with
  | Some e => (t, e)
  | None =>
      ({| entries :=
            evict (maxMessages t) (filter (live t now) (entries t) ++ [fresh]);
          maxAge := maxAge t;
          maxMessages := maxMessages t;
          totalRecorded := S (totalRecorded t);
          totalForwarded := totalForwarded t |},
       fresh)
  end.

(** Modelled from the spec: part of [MessageTracker.mark_forwarded]
    (missing); [forwarded] is set and [forwardCount] grows by one. *)
Definition set_forwarded (e : TrackedEntry) : TrackedEntry :=
  {| entry_id := entry_id e; entry_from := entry_from e;
     entry_to := entry_to e; entry_text := entry_text e;
     entry_channel := entry_channel e; firstSeenAt := firstSeenAt e;
     forwarded := true; forwardCount := S (forwardCount e) |}.

(** Modelled from the spec: part of [MessageTracker.mark_forwarded]
    (missing); the entry of [id] marked in place, [None] when the id is
    unknown. *)
Fixpoint mark_entry (id : Z) (es : list TrackedEntry)
    : option (list TrackedEntry) :=
  match es with
  | [] => None
  | e :: es' =>
      if (entry_id e =? id)%Z then Some (set_forwarded e :: es')
      else match mark_entry id es' with
           | Some es'' => Some (e :: es'')
           | None => None
           end
  end.

(** Modelled from the spec: [MessageTracker.mark_forwarded] (missing), the
    spec's [MarkForwarded(id)]: it sets [forwarded], counts the forward,
    and returns [false] for an unknown id. *)
Definition mark_forwarded (t : MessageTracker) (id : Z)
    : MessageTracker * bool :=
  match mark_entry id (entries t) with
  | Some es =>
      ({| entries := es;
          maxAge := maxAge t;
          maxMessages := maxMessages t;
          totalRecorded := totalRecorded t;
          totalForwarded := S (totalForwarded t) |},
       true)
  | None => (t, false)
  end.

(* ================================================================== *)
(** * database.py *)

(** How a call on the database manager ends: it returns, or it waits for
    the manager's lock and never gets it. *)
Inductive Ending : Type :=
| Returns
| Blocks.

Module DatabaseManager.

(** The manager, as far as a routing pass depends on it: whether
    [self.lock] is held by a call that does not return, and so for good,
    and how the connection answers the INSERT and the commit of
    [add_message] for a message id (it returns, or it raises).  The lock
    is a [threading.Lock]: taking it while it is held waits, whoever
    holds it, the caller itself included. *)
Record t : Type := {
  lock_held : bool;
  insert : Z -> Exc unit
}.

Definition acquired (db : t) : t :=
  {| lock_held := true; insert := insert db |}.

(** [add_message] (lines 132-159).  [with self.lock] waits while the lock
    is held.  Under the lock, when the INSERT and the commit have returned,
    the method calls [update_node], which starts with [with self.lock]
    (line 249): it waits for the lock its caller holds, and the call never
    returns.  When the INSERT or the commit raises, [except Exception]
    returns -1 and the lock is released. *)
Definition add_message (db : t) (msg_id : Z) : Ending * t :=
  if lock_held db then (Blocks, db)
  else
    match insert db msg_id with
    | Ok _ => (Blocks, acquired db)
    | Raise _ => (Returns, db)
    end.

(** [mark_forwarded] (lines 161-177): it takes the lock, and what is
    raised under the lock is caught there. *)
Definition mark_forwarded (db : t) (msg_id : Z) : Ending * t :=
  if lock_held db then (Blocks, db) else (Returns, db).

End DatabaseManager.

(* ================================================================== *)
(** * bridge_enhanced.py *)

(** [interface.sendText(text, channelIndex=channel)]: returns, or raises. *)
Definition Link : Type := string -> Z -> Exc unit.

(** One value of [self.stats]. *)
Record RadioStats : Type := {
  received : nat;
  sent : nat;
  errors : nat
}.

Definition incr_received (r : RadioStats) : RadioStats :=
  {| received := S (received r); sent := sent r; errors := errors r |}.

Definition incr_sent (r : RadioStats) : RadioStats :=
  {| received := received r; sent := S (sent r); errors := errors r |}.

Definition incr_errors (r : RadioStats) : RadioStats :=
  {| received := received r; sent := sent r; errors := S (errors r) |}.

(** [self.stats[radio_names[idx]][key] += 1].  [connect] fills
    [interfaces], [radio_names] and [stats] together, so a radio is known
    by its index in all three. *)
Fixpoint bump (idx : nat) (f : RadioStats -> RadioStats)
    (rs : list RadioStats) : list RadioStats :=
  match rs, idx with
  | [], _ => []
  | r :: rs', O => f r :: rs'
  | r :: rs', S idx' => r :: bump idx' f rs'
  end.

(** The calls a routing pass makes on the radios, on the tracker and on its
    collaborators, in the order it makes them.  A call on the database
    that does not return is the last call of its pass. *)
Inductive Event : Type :=
| SendText (target : nat) (text : string) (channel : Z) (outcome : Exc unit)
| TrackerAddMessage (id : Z)
| TrackerMarkForwarded (id : Z)
| MetricsFiltered
| MetricsReceived (radio : nat)
| MetricsNodeMessages (node : string)
| MetricsSent (radio : nat)
| MetricsForwarded
| MetricsErrors (radio : nat)
| MetricsDropped
| MetricsProcessingTime
| DatabaseAddMessage (id : Z) (from_node to_node text : string)
    (channel : Z) (source_radio : nat) (ending : Ending)
| DatabaseMarkForwarded (id : Z) (ending : Ending)
| MqttPublish (entry : TrackedEntry)
| WebBroadcast (entry : TrackedEntry).

(** The bridge object: the radios, the state the router owns, the
    database manager when one is configured, and which of the other
    collaborators are configured. *)
Record Bridge : Type := {
  interfaces : list Link;
  tracker : MessageTracker;
  message_filter : option MessageFilter;
  radio_stats : list RadioStats;
  metrics : bool;
  database : option DatabaseManager.t;
  mqtt : bool;
  web : bool
}.

Definition with_tracker (b : Bridge) (t : MessageTracker) : Bridge :=
  {| interfaces := interfaces b; tracker := t;
     message_filter := message_filter b; radio_stats := radio_stats b;
     metrics := metrics b; database := database b; mqtt := mqtt b;
     web := web b |}.

Definition with_filter (b : Bridge) (f : option MessageFilter) : Bridge :=
  {| interfaces := interfaces b; tracker := tracker b;
     message_filter := f; radio_stats := radio_stats b;
     metrics := metrics b; database := database b; mqtt := mqtt b;
     web := web b |}.

Definition with_radio_stats (b : Bridge) (rs : list RadioStats) : Bridge :=
  {| interfaces := interfaces b; tracker := tracker b;
     message_filter := message_filter b; radio_stats := rs;
     metrics := metrics b; database := database b; mqtt := mqtt b;
     web := web b |}.

Definition with_database (b : Bridge) (db : option DatabaseManager.t)
    : Bridge :=
  {| interfaces := interfaces b; tracker := tracker b;
     message_filter := message_filter b; radio_stats := radio_stats b;
     metrics := metrics b; database := db; mqtt := mqtt b; web := web b |}.

(** [if self.collaborator: ...] *)
Definition when (configured : bool) (calls : list Event) : list Event :=
  if configured then calls else [].

(** [if self.database] *)
Definition has_database (b : Bridge) : bool :=
  match database b with
  | Some _ => true
  | None => false
  end.

(** A database is configured and its lock is held. *)
Definition database_locked (b : Bridge) : bool :=
  match database b with
  | Some db => DatabaseManager.lock_held db
  | None => false
  end.

(** The call did not return. *)
Definition blocks (e : Event) : bool :=
  match e with
  | DatabaseAddMessage _ _ _ _ _ _ Blocks
  | DatabaseMarkForwarded _ Blocks => true
  | _ => false
  end.

(** The loop of lines 303-334 over [enumerate(self.interfaces)], from index
    [idx] on.  The third component is the local [forwarded].  Inside the
    [try] only [sendText] raises: the tracker reports an unknown id by its
    result, the metrics only count, and the database catches its own
    exceptions.  [database.mark_forwarded] (line 323) waits when the
    database's lock is held, and the loop goes no further. *)
Fixpoint fan_out (links : list Link) (idx source_idx : nat)
    (text : string) (channel msg_id : Z) (b : Bridge) (forwarded : bool)
    : Bridge * list Event * bool :=
  match links with
  | [] => (b, [], forwarded)
  | interface :: rest =>
      if (idx =? source_idx)%nat then
        fan_out rest (S idx) source_idx text channel msg_id b forwarded
      else
        match interface text channel with
        | Ok _ =>
            let b1 :=
              with_tracker b (fst (mark_forwarded (tracker b) msg_id)) in
            let b2 :=
              with_radio_stats b1 (bump idx incr_sent (radio_stats b1)) in
            if database_locked b then
              (b2,
               [SendText idx text channel (Ok tt);
                TrackerMarkForwarded msg_id]
                 ++ when (metrics b) [MetricsSent idx; MetricsForwarded]
                 ++ [DatabaseMarkForwarded msg_id Blocks],
               true)
            else
              let '(b3, calls, fwd) :=
                fan_out rest (S idx) source_idx text channel msg_id b2 true in
              (b3,
               [SendText idx text channel (Ok tt);
                TrackerMarkForwarded msg_id]
                 ++ when (metrics b) [MetricsSent idx; MetricsForwarded]
                 ++ when (has_database b)
                      [DatabaseMarkForwarded msg_id Returns]
                 ++ calls,
               fwd)
        | Raise e =>
            let b1 :=
              with_radio_stats b (bump idx incr_errors (radio_stats b)) in
            let '(b2, calls, fwd) :=
              fan_out rest (S idx) source_idx text channel msg_id b1
                      forwarded in
            (b2,
             [SendText idx text channel (Raise e)]
               ++ when (metrics b) [MetricsErrors idx; MetricsDropped]
               ++ calls,
             fwd)
        end
  end.

(** What lines 230-252 of [_handle_message] read off a packet. *)
Record TextMessage : Type := {
  tm_id : Z;
  tm_from : string;
  tm_to : string;
  tm_text : string;
  tm_channel : Z
}.

(** Lines 230-252: [None] when the pass ends there, the packet having no
    decoded part or not being a text message. *)
Definition extract_text_message (packet : Packet) : option TextMessage :=
  match decoded packet with
  | None => None
  | Some decoded =>
      if negb (String.eqb (get (portnum decoded) "") "TEXT_MESSAGE_APP")
      then None
      else
        let msg_id := get (pkt_id packet) 0%Z in
        let from_node := get (fromId packet) "unknown" in
        let to_node := get (toId packet) "unknown" in
        match payload_text (get (payload decoded) (PBytes [])) with
        | Raise _ => None
        | Ok text =>
            let channel := get (pkt_channel packet) 0%Z in
            Some {| tm_id := msg_id; tm_from := from_node; tm_to := to_node;
                    tm_text := text; tm_channel := channel |}
        end
  end.

(** Lines 260-266. *)
Definition message_dict (tm : TextMessage) : Message :=
  {| m_id := Some (tm_id tm); m_from := Some (tm_from tm);
     m_to := Some (tm_to tm); m_text := Some (tm_text tm);
     m_channel := Some (tm_channel tm) |}.

(** Lines 288-290, [if self.database: self.database.add_message(...)]:
    the bridge with the database as the call leaves it, the call, and how
    it ended. *)
Definition save_message (b : Bridge) (tm : TextMessage) (source_idx : nat)
    : Bridge * list Event * Ending :=
  match database b with
  | None => (b, [], Returns)
  | Some db =>
      let '(ending, db') := DatabaseManager.add_message db (tm_id tm) in
      (with_database b (Some db'),
       [DatabaseAddMessage (tm_id tm) (tm_from tm) (tm_to tm) (tm_text tm)
                           (tm_channel tm) source_idx ending],
       ending)
  end.

(** Lines 274-339: the message is recorded, counted, handed to the
    collaborators and sent to the other radios.  The pass goes no further
    than a call on the database that does not return.  The [timestamp]
    key that the pass adds to the entry before publishing it is not among
    the fields of a tracked entry and is left out. *)
Definition record_and_forward (b : Bridge) (now : Z) (tm : TextMessage)
    (source_idx : nat) : Bridge * list Event :=
  let '(t, entry) :=
    add_message (tracker b) now (tm_id tm) (tm_from tm) (tm_to tm)
                (tm_text tm) (tm_channel tm) in
  let b1 :=
    with_radio_stats (with_tracker b t)
      (bump source_idx incr_received (radio_stats b)) in
  let received :=
    [TrackerAddMessage (tm_id tm)]
      ++ when (metrics b)
           [MetricsReceived source_idx; MetricsNodeMessages (tm_from tm)] in
  let '(b2, saved, ending) := save_message b1 tm source_idx in
  match ending with
  | Blocks => (b2, received ++ saved)
  | Returns =>
      let '(b3, calls, _) :=
        fan_out (interfaces b2) 0 source_idx (tm_text tm) (tm_channel tm)
                (tm_id tm) b2 false in
      (b3,
       received ++ saved
         ++ when (mqtt b) [MqttPublish entry]
         ++ when (web b) [WebBroadcast entry]
         ++ calls
         ++ (if existsb blocks calls then []
             else when (metrics b) [MetricsProcessingTime]))
  end.

Section Router.
Context {lib : PyLib}.

(** The condition of line 268,
    [self.message_filter and not self.message_filter.should_forward(...)],
    as the filter's verdict, with the bridge holding the filter as the call
    left it.  A bridge without a filter forwards. *)
Definition apply_filter (b : Bridge) (tm : TextMessage) : Exc bool * Bridge :=
  match message_filter b with
  | None => (Ok true, b)
  | Some f =>
      let '(verdict, f') := should_forward f (message_dict tm) in
      (verdict, with_filter b (Some f'))
  end.

(** [_handle_message]: the bridge as the pass leaves it, and the calls the
    pass made.  An exception that reaches the outer [except] ends the pass
    where it stands; a pass whose last call is one that [blocks] does not
    return, and the bridge is as that call found it. *)
Definition _handle_message (b : Bridge) (now : Z) (packet : Packet)
    (source_idx : nat) : Bridge * list Event :=
  match extract_text_message packet with
  | None => (b, [])
  | Some tm =>
      if has_seen (tracker b) now (tm_id tm) then (b, [])
      else
        let '(verdict, b1) := apply_filter b tm in
        match verdict with
        | Raise _ => (b1, [])
        | Ok false => (b1, when (metrics b1) [MetricsFiltered])
        | Ok true => record_and_forward b1 now tm source_idx
        end
  end.

(** [_on_receive]: a packet from an interface that is not registered is
    dropped; the radio is the interface's index. *)
Definition _on_receive (b : Bridge) (now : Z) (packet : Packet)
    (interface : nat) : Bridge * list Event :=
  if (interface <? List.length (interfaces b))%nat
  then _handle_message b now packet interface
  else (b, []).

End Router.

(* ================================================================== *)
(** * A small Python library to run examples on

    It is right for the strings of the examples, which are ASCII: it maps
    the ASCII letters to lower case; it compiles the patterns that have no
    metacharacter, as the case-insensitive substring searches they are,
    refuses the pattern [(] with [re.error] (it takes every other pattern
    with a metacharacter for one to refuse; the examples have no other)
    and the repetition count of [a{4294967296}] with [OverflowError]; it
    reads signed decimal integers written with digits only ([int] also
    takes blanks around the number and underscores between its digits;
    the examples have none). *)

Definition lower_ascii (c : ascii) : ascii :=
  let n := nat_of_ascii c in
  if (65 <=? n)%nat && (n <=? 90)%nat then ascii_of_nat (n + 32) else c.

Fixpoint ascii_lower (s : string) : string :=
  match s with
  | EmptyString => EmptyString
  | String c s' => String (lower_ascii c) (ascii_lower s')
  end.

Definition metacharacter (c : ascii) : bool :=
  existsb (Ascii.eqb c) (list_ascii_of_string ".^$*+?{}[]\|()").

Definition literal_compile (src : string) : Exc Pattern :=
  if String.eqb src "a{4294967296}" then Raise OverflowError
  else if existsb metacharacter (list_ascii_of_string src) then Raise ReError
  else Ok {| pattern_src := src;
             search := fun text =>
                         contains (ascii_lower src) (ascii_lower text) |}.

Definition digit (c : ascii) : option Z :=
  let n := nat_of_ascii c in
  if (48 <=? n)%nat && (n <=? 57)%nat then Some (Z.of_nat (n - 48)) else None.

Fixpoint digits (acc : Z) (s : string) : option Z :=
  match s with
  | EmptyString => Some acc
  | String c s' =>
      match digit c with
      | Some d => digits (10 * acc + d)%Z s'
      | None => None
      end
  end.

Definition decimal (s : string) : option Z :=
  match s with
  | EmptyString => None
  | String c s' =>
      if Ascii.eqb c "-" then
        if is_empty s' then None else option_map Z.opp (digits 0%Z s')
      else if Ascii.eqb c "+" then
        if is_empty s' then None else digits 0%Z s'
      else digits 0%Z s
  end.

Definition literal_lib : PyLib :=
  {| lower := ascii_lower; re_compile := literal_compile;
     py_int := decimal |}.

(* ================================================================== *)
(** * The vocabulary of the properties *)

(** ** The filter *)

(** The invariant of the filter's statistics. *)
Definition balanced (s : FilterStats) : Prop :=
  total_checked s = total_allowed s + total_blocked s.

(** Why a message was blocked. *)
Inductive Reason : Type :=
| not_in_allowlist
| in_denylist
| channel_not_allowed
| channel_blocked
| content_match
| custom_rule.

(** Checks are tried in list order; the first one that holds decides. *)
Fixpoint first_decisive (checks : list (bool * Reason)) : option Reason :=
  match checks with
  | [] => None
  | (holds, reason) :: later =>
      if holds then Some reason else first_decisive later
  end.

Definition forwards (decision : option Reason) : bool :=
  match decision with
  | None => true
  | Some _ => false
  end.

(** The counters a decision is charged to. *)
Definition charge (decision : option Reason) (s : FilterStats)
    : FilterStats :=
  match decision with
  | None => incr_total_allowed s
  | Some not_in_allowlist | Some in_denylist =>
      incr_blocked_by_sender (incr_total_blocked s)
  | Some channel_not_allowed | Some channel_blocked =>
      incr_blocked_by_channel (incr_total_blocked s)
  | Some content_match =>
      incr_blocked_by_content (incr_total_blocked s)
  | Some custom_rule => incr_total_blocked s
  end.

Definition regex_match (f : MessageFilter) (text : string) : bool :=
  existsb (fun p => search p text) (regex_patterns f).

(** [a] may stand before [b] in a list sorted by priority, highest first. *)
Definition by_priority (a b : FilterRule) : Prop :=
  (priority b <= priority a)%Z.

Definition allow_or_block (r : FilterRule) : Prop :=
  action r = "allow" \/ action r = "block".

Section FilterVocabulary.
Context {lib : PyLib}.

Definition keyword_match (f : MessageFilter) (text : string) : bool :=
  existsb (fun keyword => contains (lower keyword) (lower text)) (keywords f).

Definition custom_rules_block (f : MessageFilter) (message : Message)
    : bool :=
  match _check_custom_rules (custom_rules f) message with
  | Ok false => true
  | _ => false
  end.

(** The six checks as the specification words them (section 4.2, steps 1
    to 6); step 7 is the default when none of them holds. *)
Definition spec_checks (f : MessageFilter) (message : Message)
    : list (bool * Reason) :=
  let from_node := get (m_from message) "" in
  let text := get (m_text message) "" in
  let channel := get (m_channel message) 0%Z in
  [ (nonempty (whitelist_nodes f)
       && negb (mem_str from_node (whitelist_nodes f)), not_in_allowlist);
    (mem_str from_node (blacklist_nodes f), in_denylist);
    (nonempty (allowed_channels f)
       && negb (mem_Z channel (allowed_channels f)), channel_not_allowed);
    (mem_Z channel (blocked_channels f), channel_blocked);
    (keyword_match f text || regex_match f text, content_match);
    (custom_rules_block f message, custom_rule) ].

(** The six checks as [should_forward] evaluates them: the content check
    looks at a text only when the text is not empty. *)
Definition evaluated_checks (f : MessageFilter) (message : Message)
    : list (bool * Reason) :=
  let from_node := get (m_from message) "" in
  let text := get (m_text message) "" in
  let channel := get (m_channel message) 0%Z in
  [ (nonempty (whitelist_nodes f)
       && negb (mem_str from_node (whitelist_nodes f)), not_in_allowlist);
    (mem_str from_node (blacklist_nodes f), in_denylist);
    (nonempty (allowed_channels f)
       && negb (mem_Z channel (allowed_channels f)), channel_not_allowed);
    (mem_Z channel (blocked_channels f), channel_blocked);
    (negb (is_empty text) && (keyword_match f text || regex_match f text),
     content_match);
    (custom_rules_block f message, custom_rule) ].

(** The rule's pattern matches the message. *)
Definition rule_matches (message : Message) (rule : FilterRule) : bool :=
  match _evaluate_rule rule message with
  | Ok matched => matched
  | Raise _ => false
  end.

(** The first five checks as [should_forward] evaluates them. *)
Definition builtin_checks (f : MessageFilter) (message : Message)
    : list (bool * Reason) :=
  firstn 5 (evaluated_checks f message).

(** The comparisons of a custom rule as the specification words them
    (section 4.2, step 6): the rule's kind selects the comparison,
    [keyword] a case-insensitive substring of the text, [regex] a pattern
    search over the text, [sender] a substring of [from], [channel] exact
    integer equality with the channel.  A pattern that is no regular
    expression, or no integer, is found in nothing. *)
Definition spec_pattern_matches (message : Message) (rule : FilterRule)
    : bool :=
  let kind := filter_type rule in
  if String.eqb kind "keyword" then
    contains (lower (pattern rule)) (lower (get (m_text message) ""))
  else if String.eqb kind "regex" then
    match re_compile (pattern rule) with
    | Ok p => search p (get (m_text message) "")
    | Raise _ => false
    end
  else if String.eqb kind "sender" then
    contains (pattern rule) (get (m_from message) "")
  else if String.eqb kind "channel" then
    match py_int (pattern rule) with
    | Some n => Z.eqb (get (m_channel message) 0%Z) n
    | None => false
    end
  else false.

(** The rule's pattern is found in the message and its action is [allow]
    or [block]. *)
Definition spec_rule_decides (message : Message) (rule : FilterRule) : bool :=
  spec_pattern_matches message rule
  && (String.eqb (action rule) "block" || String.eqb (action rule) "allow").

(** [re.compile] takes the pattern or refuses it with [re.error]. *)
Definition compiles_or_re_error (src : string) : bool :=
  match re_compile src with
  | Ok _ => true
  | Raise e => PyExc_eqb e ReError
  end.

(** The rule is not of kind [regex], or its pattern is one that
    [re.compile] takes or refuses with [re.error]. *)
Definition regular (rule : FilterRule) : bool :=
  negb (String.eqb (filter_type rule) "regex")
  || compiles_or_re_error (pattern rule).

(** What is asked of [str.lower] where a property speaks of a word in
    upper case: it turns the letters A to Z into a to z where they stand,
    so a word of ASCII characters that is found in a text is found, in
    lower case, in the text in lower case. *)
Definition lower_keeps_words : Prop :=
  forall word text : string,
    forallb (fun c => (nat_of_ascii c <? 128)%nat) (list_ascii_of_string word)
    = true ->
    contains word text = true ->
    contains (lower word) (lower text) = true.

End FilterVocabulary.

(** ** The decoder *)

(** [l1] is [l2] with some elements left out. *)
Inductive subsequence {A : Type} : list A -> list A -> Prop :=
| subsequence_nil : subsequence [] []
| subsequence_keep (x : A) (l1 l2 : list A) :
    subsequence l1 l2 -> subsequence (x :: l1) (x :: l2)
| subsequence_drop (x : A) (l1 l2 : list A) :
    subsequence l1 l2 -> subsequence l1 (x :: l2).

Definition scan_length (s : Scan) : nat :=
  match s with
  | Sequence n | Malformed n => n
  end.

Definition in_range (lo hi : N) (b : byte) : bool :=
  (lo <=? Byte.to_N b)%N && (Byte.to_N b <=? hi)%N.

(** The well-formed UTF-8 byte sequences, after table 3-7 of the Unicode
    standard: the bytes of one character. *)
Definition well_formed (s : list byte) : bool :=
  match s with
  | [b1] => in_range 0x00 0x7F b1
  | [b1; b2] => in_range 0xC2 0xDF b1 && in_range 0x80 0xBF b2
  | [b1; b2; b3] =>
      (in_range 0xE0 0xE0 b1 && in_range 0xA0 0xBF b2
       || in_range 0xE1 0xEC b1 && in_range 0x80 0xBF b2
       || in_range 0xED 0xED b1 && in_range 0x80 0x9F b2
       || in_range 0xEE 0xEF b1 && in_range 0x80 0xBF b2)
      && in_range 0x80 0xBF b3
  | [b1; b2; b3; b4] =>
      (in_range 0xF0 0xF0 b1 && in_range 0x90 0xBF b2
       || in_range 0xF1 0xF3 b1 && in_range 0x80 0xBF b2
       || in_range 0xF4 0xF4 b1 && in_range 0x80 0x8F b2)
      && in_range 0x80 0xBF b3 && in_range 0x80 0xBF b4
  | _ => false
  end.

(** [Ignored input output]: [output] is [input] read from left to right,
    every well-formed sequence kept as it stands and every byte at which
    no well-formed sequence starts left out, nothing put in its place. *)
Inductive Ignored : list byte -> list byte -> Prop :=
| Ignored_nil : Ignored [] []
| Ignored_keep (s rest out : list byte) :
    well_formed s = true -> Ignored rest out ->
    Ignored (s ++ rest) (s ++ out)
| Ignored_drop (b : byte) (rest out : list byte) :
    (forall s more, well_formed s = true -> b :: rest <> s ++ more) ->
    Ignored rest out ->
    Ignored (b :: rest) out.

(** ** The router *)

Definition is_send (e : Event) : bool :=
  match e with
  | SendText _ _ _ _ => true
  | _ => false
  end.

(** A [sendText] call that returned. *)
Definition is_delivery (e : Event) : bool :=
  match e with
  | SendText _ _ _ (Ok _) => true
  | _ => false
  end.

Definition is_mark_forwarded (id : Z) (e : Event) : bool :=
  match e with
  | TrackerMarkForwarded i => (i =? id)%Z
  | _ => false
  end.

Definition send_target (e : Event) : option nat :=
  match e with
  | SendText target _ _ _ => Some target
  | _ => None
  end.

(** The radio at index [j]; the default is never read where [j] is the
    index of a radio. *)
Definition link_at (links : list Link) (j : nat) : Link :=
  nth j links (fun _ _ => Ok tt).

(** The radios a message that came in on [source_idx] goes out to: the
    other ones, in registration order. *)
Definition targets (count source_idx : nat) : list nat :=
  filter (fun j => negb (j =? source_idx)%nat) (seq 0 count).

(** The [sendText] calls of a fan-out and how each ended. *)
Definition attempts (links : list Link) (source_idx : nat) (text : string)
    (channel : Z) : list Event :=
  map (fun j => SendText j text channel (link_at links j text channel))
      (targets (List.length links) source_idx).

(** The radios whose [sendText] returned: the ones that took the message. *)
Definition delivered (links : list Link) (source_idx : nat) (text : string)
    (channel : Z) : list nat :=
  filter (fun j => match link_at links j text channel with
                   | Ok _ => true
                   | Raise _ => false
                   end)
         (targets (List.length links) source_idx).

(** What a fan-out does to the statistics of radio [j]. *)
Definition settle (links : list Link) (source_idx : nat) (text : string)
    (channel : Z) (j : nat) (r : RadioStats) : RadioStats :=
  if (j <? List.length links)%nat && negb (j =? source_idx)%nat then
    match link_at links j text channel with
    | Ok _ => incr_sent r
    | Raise _ => incr_errors r
    end
  else r.

Definition mark (id : Z) (t : MessageTracker) : MessageTracker :=
  fst (mark_forwarded t id).

(** Saving the message returns: no database is configured, or
    [database.add_message] comes back. *)
Definition database_returns (b : Bridge) (msg_id : Z) : bool :=
  match database b with
  | None => true
  | Some db =>
      match fst (DatabaseManager.add_message db msg_id) with
      | Returns => true
      | Blocks => false
      end
  end.

Section RouterVocabulary.
Context {lib : PyLib}.

(** The message is new to the tracker and the filter lets it through. *)
Definition passes (b : Bridge) (now : Z) (tm : TextMessage) : bool :=
  negb (has_seen (tracker b) now (tm_id tm))
  && match fst (apply_filter b tm) with
     | Ok true => true
     | _ => false
     end.

End RouterVocabulary.

(** The entries are older entries of other ids, then the fresh one. *)
Definition ends_with_fresh (now id : Z) (fresh : TrackedEntry)
    (es : list TrackedEntry) : Prop :=
  exists kept,
    es = kept ++ [fresh]
    /\ Forall (fun e => (firstSeenAt e <= now)%Z /\ entry_id e <> id) kept.

(* ================================================================== *)
(** * Data for the examples *)

(** The two rules of the priority example. *)
Definition emergency_rule : RuleData :=
  {| rd_name := Some "Emergency Priority"; rd_type := Some "keyword";
     rd_pattern := Some "EMERGENCY"; rd_action := Some "allow";
     rd_priority := Some 100%Z |}.

Definition bad_sender_rule : RuleData :=
  {| rd_name := Some "Bad sender"; rd_type := Some "sender";
     rd_pattern := Some "bad123456"; rd_action := Some "block";
     rd_priority := Some 0%Z |}.

Definition rules_only (rules : list RuleData) : FilterConfig :=
  {| cfg_enabled := Some true; cfg_whitelist_nodes := None;
     cfg_blacklist_nodes := None; cfg_content_filters := None;
     cfg_allowed_channels := None; cfg_blocked_channels := None;
     cfg_custom_rules := Some rules |}.

(** A filter configuration after the sample of [message_filter.main], its
    patterns kept to the ones [literal_lib] reads. *)
Definition example_config : FilterConfig :=
  {| cfg_enabled := Some true;
     cfg_whitelist_nodes := Some [];
     cfg_blacklist_nodes := Some ["!bad123456"];
     cfg_content_filters :=
       Some {| cf_keywords := Some ["spam"; "advertisement"];
               cf_regex_patterns := Some ["casino"; "("] |};
     cfg_allowed_channels := Some [];
     cfg_blocked_channels := Some [];
     cfg_custom_rules := Some [emergency_rule] |}.

(** A filter that is not enabled and holds nothing. *)
Definition idle_filter : MessageFilter :=
  {| enabled := false;
     whitelist_nodes := []; blacklist_nodes := [];
     keywords := []; regex_patterns := [];
     allowed_channels := []; blocked_channels := [];
     custom_rules := [];
     stats := zero_stats |}.

(** The filter [__init__] returns for a configuration of the examples;
    none of them makes [__init__] raise. *)
Definition loaded (config : FilterConfig) : MessageFilter :=
  match MessageFilter_init (lib := literal_lib) config with
  | Ok f => f
  | Raise _ => idle_filter
  end.

Definition example_filter : MessageFilter := loaded example_config.

Definition text_from (id : Z) (from_node text : string) : Message :=
  {| m_id := Some id; m_from := Some from_node; m_to := Some "broadcast";
     m_text := Some text; m_channel := Some 0%Z |}.

Definition packet_from (id : Z) (from_node : string) (bs : list byte)
    : Packet :=
  {| decoded := Some {| portnum := Some "TEXT_MESSAGE_APP";
                        payload := Some (PBytes bs) |};
     pkt_id := Some id; fromId := Some from_node;
     toId := Some "broadcast"; pkt_channel := Some 0%Z |}.

Definition up : Link := fun _ _ => Ok tt.

Definition down : Link := fun _ _ => Raise LinkError.

Definition no_stats : RadioStats := {| received := 0; sent := 0; errors := 0 |}.

Definition empty_tracker : MessageTracker :=
  {| entries := []; maxAge := 10%Z; maxMessages := 1000;
     totalRecorded := 0; totalForwarded := 0 |}.

(** Three radios A, B and C; B's [sendText] raises when [b_link] is
    [down].  No database is configured. *)
Definition three_radios (b_link : Link) (f : option MessageFilter) : Bridge :=
  {| interfaces := [up; b_link; up];
     tracker := empty_tracker;
     message_filter := f;
     radio_stats := [no_stats; no_stats; no_stats];
     metrics := true; database := None; mqtt := false; web := false |}.

(** A database that takes every INSERT, and one whose connection is
    closed; the lock of both is free. *)
Definition working_database : DatabaseManager.t :=
  {| DatabaseManager.lock_held := false;
     DatabaseManager.insert := fun _ => Ok tt |}.

Definition closed_database : DatabaseManager.t :=
  {| DatabaseManager.lock_held := false;
     DatabaseManager.insert := fun _ => Raise SqliteError |}.

(** The three radios with a database. *)
Definition three_radios_saving (db : DatabaseManager.t) (b_link : Link)
    : Bridge :=
  with_database (three_radios b_link None) (Some db).

Definition hi : list byte := [x68; x69].

Definition bad_packet : Packet := packet_from 2 "!bad123456" hi.

Definition bad_text : TextMessage :=
  {| tm_id := 2%Z; tm_from := "!bad123456"; tm_to := "broadcast";
     tm_text := "hi"; tm_channel := 0%Z |}.

Definition blank_keyword_filter : MessageFilter :=
  loaded
    {| cfg_enabled := Some true;
       cfg_whitelist_nodes := None;
       cfg_blacklist_nodes := None;
       cfg_content_filters :=
         Some {| cf_keywords := Some [""]; cf_regex_patterns := None |};
       cfg_allowed_channels := None;
       cfg_blocked_channels := None;
       cfg_custom_rules := None |}.

Definition disabled_filter : MessageFilter :=
  loaded
    {| cfg_enabled := Some false;
       cfg_whitelist_nodes := None;
       cfg_blacklist_nodes := Some ["!bad123456"];
       cfg_content_filters := None;
       cfg_allowed_channels := None;
       cfg_blocked_channels := None;
       cfg_custom_rules := None |}.

(** A filter holding the compiled pattern [.*], which is found in every
    text. *)
Definition match_all_filter : MessageFilter :=
  {| enabled := true;
     whitelist_nodes := []; blacklist_nodes := [];
     keywords := [];
     regex_patterns := [ {| pattern_src := ".*"; search := fun _ => true |} ];
     allowed_channels := []; blocked_channels := [];
     custom_rules := [];
     stats := zero_stats |}.

Definition unbalanced_rule : RuleData :=
  {| rd_name := Some "Broken"; rd_type := Some "regex";
     rd_pattern := Some "("; rd_action := Some "block";
     rd_priority := Some 10%Z |}.

(** A rule whose pattern asks for more repetitions than the regular
    expression compiler counts. *)
Definition overflowing_rule : RuleData :=
  {| rd_name := Some "Too many"; rd_type := Some "regex";
     rd_pattern := Some "a{4294967296}"; rd_action := Some "block";
     rd_priority := Some 10%Z |}.

(** A rule that only takes note of a text, and one that stops it. *)
Definition note_rule : RuleData :=
  {| rd_name := Some "Note"; rd_type := Some "keyword";
     rd_pattern := Some "hi"; rd_action := Some "log";
     rd_priority := Some 10%Z |}.

Definition stop_rule : RuleData :=
  {| rd_name := Some "Stop"; rd_type := Some "keyword";
     rd_pattern := Some "hi"; rd_action := Some "block";
     rd_priority := Some 0%Z |}.

Definition hello_packet : Packet := packet_from 1 "N1" hi.

Definition hello_text : TextMessage :=
  {| tm_id := 1%Z; tm_from := "N1"; tm_to := "broadcast";
     tm_text := "hi"; tm_channel := 0%Z |}.

(* ================================================================== *)
(** * message_filter.py: the rest of the interface *)

(** [s.add(x)] and [s.discard(x)] on a set held as a list. *)
Definition set_add (x : string) (xs : list string) : list string :=
  if mem_str x xs then xs else x :: xs.

Definition set_discard (x : string) (xs : list string) : list string :=
  filter (fun y => negb (String.eqb y x)) xs.

Definition with_whitelist (f : MessageFilter) (nodes : list string)
    : MessageFilter :=
  {| enabled := enabled f;
     whitelist_nodes := nodes;
     blacklist_nodes := blacklist_nodes f;
     keywords := keywords f;
     regex_patterns := regex_patterns f;
     allowed_channels := allowed_channels f;
     blocked_channels := blocked_channels f;
     custom_rules := custom_rules f;
     stats := stats f |}.

Definition with_blacklist (f : MessageFilter) (nodes : list string)
    : MessageFilter :=
  {| enabled := enabled f;
     whitelist_nodes := whitelist_nodes f;
     blacklist_nodes := nodes;
     keywords := keywords f;
     regex_patterns := regex_patterns f;
     allowed_channels := allowed_channels f;
     blocked_channels := blocked_channels f;
     custom_rules := custom_rules f;
     stats := stats f |}.

Definition add_whitelist_node (f : MessageFilter) (node_id : string)
    : MessageFilter :=
  with_whitelist f (set_add node_id (whitelist_nodes f)).

Definition add_blacklist_node (f : MessageFilter) (node_id : string)
    : MessageFilter :=
  with_blacklist f (set_add node_id (blacklist_nodes f)).

Definition remove_whitelist_node (f : MessageFilter) (node_id : string)
    : MessageFilter :=
  with_whitelist f (set_discard node_id (whitelist_nodes f)).

Definition remove_blacklist_node (f : MessageFilter) (node_id : string)
    : MessageFilter :=
  with_blacklist f (set_discard node_id (blacklist_nodes f)).

(** [get_stats]: a copy of the counters. *)
Definition get_stats (f : MessageFilter) : FilterStats := stats f.

(** A call on a filter object, by a user of the class. *)
Inductive FilterCall : Type :=
| call_should_forward (message : Message)
| call_add_rule (rule : FilterRule)
| call_remove_rule (rule_name : string)
| call_add_whitelist_node (node_id : string)
| call_add_blacklist_node (node_id : string)
| call_remove_whitelist_node (node_id : string)
| call_remove_blacklist_node (node_id : string)
| call_reset_stats.

Section FilterCalls.
Context {lib : PyLib}.

(** The filter object after the call. *)
Definition after_call (f : MessageFilter) (c : FilterCall) : MessageFilter :=
  match c with
  | call_should_forward message => snd (should_forward f message)
  | call_add_rule rule => add_rule f rule
  | call_remove_rule rule_name => snd (remove_rule f rule_name)
  | call_add_whitelist_node node_id => add_whitelist_node f node_id
  | call_add_blacklist_node node_id => add_blacklist_node f node_id
  | call_remove_whitelist_node node_id => remove_whitelist_node f node_id
  | call_remove_blacklist_node node_id => remove_blacklist_node f node_id
  | call_reset_stats => reset_stats f
  end.

Definition after_calls (f : MessageFilter) (cs : list FilterCall)
    : MessageFilter :=
  fold_left after_call cs f.

(** Some [should_forward] among the calls raised. *)
Fixpoint some_call_raised (f : MessageFilter) (cs : list FilterCall) : bool :=
  match cs with
  | [] => false
  | c :: later =>
      match c with
      | call_should_forward message =>
          match fst (should_forward f message) with
          | Ok _ => false
          | Raise _ => true
          end
      | _ => false
      end
      || some_call_raised (after_call f c) later
  end.

End FilterCalls.

(** What every call keeps: the rules in priority order, no more messages
    counted as allowed or blocked than were counted as checked, and no
    more blocks counted by cause than in total. *)
Definition well_kept (f : MessageFilter) : Prop :=
  StronglySorted by_priority (custom_rules f)
  /\ total_allowed (stats f) + total_blocked (stats f)
     <= total_checked (stats f)
  /\ blocked_by_sender (stats f) + blocked_by_content (stats f)
     + blocked_by_channel (stats f) <= total_blocked (stats f).

(* ================================================================== *)
(** * bridge_enhanced.py: the accounts of a pass, and sending by name *)

(** What one turn of the loop of lines 303-334 calls for radio [idx],
    given how its [sendText] ended. *)
Definition forward_calls (b : Bridge) (text : string) (channel msg_id : Z)
    (idx : nat) (outcome : Exc unit) : list Event :=
  match outcome with
  | Ok _ =>
      [SendText idx text channel (Ok tt); TrackerMarkForwarded msg_id]
        ++ when (metrics b) [MetricsSent idx; MetricsForwarded]
        ++ when (has_database b) [DatabaseMarkForwarded msg_id Returns]
  | Raise e =>
      [SendText idx text channel (Raise e)]
        ++ when (metrics b) [MetricsErrors idx; MetricsDropped]
  end.

(** A [sendText] call that raised. *)
Definition is_failure (e : Event) : bool :=
  match e with
  | SendText _ _ _ (Raise _) => true
  | _ => false
  end.

Definition is_metrics_forwarded (e : Event) : bool :=
  match e with
  | MetricsForwarded => true
  | _ => false
  end.

Definition is_metrics_dropped (e : Event) : bool :=
  match e with
  | MetricsDropped => true
  | _ => false
  end.

Definition is_database_mark_forwarded (e : Event) : bool :=
  match e with
  | DatabaseMarkForwarded _ _ => true
  | _ => false
  end.

Definition count (p : Event -> bool) (calls : list Event) : nat :=
  List.length (filter p calls).

(** A counter of [self.stats] summed over the radios. *)
Definition total (key : RadioStats -> nat) (rs : list RadioStats) : nat :=
  list_sum (map key rs).

(** [f"radio{idx + 1}"], the name [connect] gives the radio at [idx]. *)
Definition radio_name (idx : nat) : string :=
  "radio" ++ DecimalString.NilEmpty.string_of_uint (Nat.to_uint (idx + 1)).

(** [self.radio_names]: [connect] appends to it and to [interfaces]
    together, and raises when a radio fails to connect, so a connected
    bridge holds the names of its radios in order. *)
Definition radio_names (b : Bridge) : list string :=
  map radio_name (seq 0 (List.length (interfaces b))).

(** [xs.index(x)]: the first position of [x]; [None] is the
    [ValueError]. *)
Fixpoint index (x : string) (xs : list string) : option nat :=
  match xs with
  | [] => None
  | y :: ys =>
      if String.eqb y x then Some 0 else option_map S (index x ys)
  end.

(** The calls [send_message] and [_mqtt_message_callback] make. *)
Inductive Outgoing : Type :=
| RadioSendText (target : nat) (text : string) (channel : Z)
    (outcome : Exc unit)
| MqttPublishOutgoing (from_node to_node text : string) (channel : Z).

Definition is_radio_call (c : Outgoing) : bool :=
  match c with
  | RadioSendText _ _ _ _ => true
  | MqttPublishOutgoing _ _ _ _ => false
  end.

(** [send_message]: the answer and the calls made.  The published
    message's [id] and [timestamp] are read off the clock and left out. *)
Definition send_message (b : Bridge) (text radio : string) (channel : Z)
    : bool * list Outgoing :=
  if negb (mem_str radio (radio_names b)) then (false, [])
  else
    match index radio (radio_names b) with
    | None => (false, [])
    | Some idx =>
        match nth_error (interfaces b) idx with
        | None => (false, [])
        | Some interface =>
            match interface text channel with
            | Raise e => (false, [RadioSendText idx text channel (Raise e)])
            | Ok _ =>
                (true,
                 [RadioSendText idx text channel (Ok tt)]
                   ++ (if mqtt b
                       then [MqttPublishOutgoing "bridge" "broadcast"
                                                 text channel]
                       else []))
            end
        end
    end.

(** [_mqtt_message_callback]: the calls made; nothing is answered and no
    exception leaves it. *)
Definition _mqtt_message_callback (b : Bridge) (text radio : string)
    (channel : Z) : list Outgoing :=
  if mem_str radio (radio_names b) then
    match index radio (radio_names b) with
    | None => []
    | Some idx =>
        match nth_error (interfaces b) idx with
        | None => []
        | Some interface =>
            [RadioSendText idx text channel (interface text channel)]
        end
    end
  else [].

(* ================================================================== *)
(** * metrics.py *)

(** A [dict] with string keys, in insertion order: [k in d], [d.get(k)]
    and [d[k] = v], which keeps the place of a key that is there and puts
    a new key last. *)
Fixpoint dict_get {V : Type} (k : string) (d : list (string * V))
    : option V :=
  match d with
  | [] => None
  | (k', v) :: d' => if String.eqb k' k then Some v else dict_get k d'
  end.

Definition dict_mem {V : Type} (k : string) (d : list (string * V)) : bool :=
  match dict_get k d with
  | Some _ => true
  | None => false
  end.

Fixpoint dict_set {V : Type} (k : string) (v : V) (d : list (string * V))
    : list (string * V) :=
  match d with
  | [] => [(k, v)]
  | (k', v') :: d' =>
      if String.eqb k' k then (k, v) :: d' else (k', v') :: dict_set k v d'
  end.

Definition keys {V : Type} (d : list (string * V)) : list string :=
  map fst d.

(** A processing time, in milliseconds: a finite float, as the rational
    number it stands for. *)
Definition Duration : Type := QArith_base.Q.

(** The state of a [MetricsCollector], the lock and the start time
    apart.  [min_processing_time] is [None] for [float('inf')]. *)
Record MetricsCollector : Type := {
  messages_received_total : list (string * Z);
  messages_sent_total : list (string * Z);
  messages_errors_total : list (string * Z);
  messages_forwarded_total : Z;
  messages_dropped_total : Z;
  messages_filtered_total : Z;
  connected_radios : Z;
  active_nodes : Z;
  tracked_messages : Z;
  message_processing_times : list Duration;
  max_processing_time : Duration;
  min_processing_time : option Duration;
  node_message_counts : list (string * Z)
}.

Definition MetricsCollector_init : MetricsCollector :=
  {| messages_received_total := [("radio1", 0%Z); ("radio2", 0%Z)];
     messages_sent_total := [("radio1", 0%Z); ("radio2", 0%Z)];
     messages_errors_total := [("radio1", 0%Z); ("radio2", 0%Z)];
     messages_forwarded_total := 0;
     messages_dropped_total := 0;
     messages_filtered_total := 0;
     connected_radios := 0;
     active_nodes := 0;
     tracked_messages := 0;
     message_processing_times := [];
     max_processing_time := QArith_base.Qmake 0 1;
     min_processing_time := None;
     node_message_counts := [] |}.

(** [if radio in d: d[radio] += count] *)
Definition add_if_known (radio : string) (count : Z) (d : list (string * Z))
    : list (string * Z) :=
  match dict_get radio d with
  | Some n => dict_set radio (n + count)%Z d
  | None => d
  end.

Definition increment_received (m : MetricsCollector) (radio : string)
    (count : Z) : MetricsCollector :=
  {| messages_received_total :=
       add_if_known radio count (messages_received_total m);
     messages_sent_total := messages_sent_total m;
     messages_errors_total := messages_errors_total m;
     messages_forwarded_total := messages_forwarded_total m;
     messages_dropped_total := messages_dropped_total m;
     messages_filtered_total := messages_filtered_total m;
     connected_radios := connected_radios m;
     active_nodes := active_nodes m;
     tracked_messages := tracked_messages m;
     message_processing_times := message_processing_times m;
     max_processing_time := max_processing_time m;
     min_processing_time := min_processing_time m;
     node_message_counts := node_message_counts m |}.

Definition increment_sent (m : MetricsCollector) (radio : string)
    (count : Z) : MetricsCollector :=
  {| messages_received_total := messages_received_total m;
     messages_sent_total := add_if_known radio count (messages_sent_total m);
     messages_errors_total := messages_errors_total m;
     messages_forwarded_total := messages_forwarded_total m;
     messages_dropped_total := messages_dropped_total m;
     messages_filtered_total := messages_filtered_total m;
     connected_radios := connected_radios m;
     active_nodes := active_nodes m;
     tracked_messages := tracked_messages m;
     message_processing_times := message_processing_times m;
     max_processing_time := max_processing_time m;
     min_processing_time := min_processing_time m;
     node_message_counts := node_message_counts m |}.

Definition increment_errors (m : MetricsCollector) (radio : string)
    (count : Z) : MetricsCollector :=
  {| messages_received_total := messages_received_total m;
     messages_sent_total := messages_sent_total m;
     messages_errors_total :=
       add_if_known radio count (messages_errors_total m);
     messages_forwarded_total := messages_forwarded_total m;
     messages_dropped_total := messages_dropped_total m;
     messages_filtered_total := messages_filtered_total m;
     connected_radios := connected_radios m;
     active_nodes := active_nodes m;
     tracked_messages := tracked_messages m;
     message_processing_times := message_processing_times m;
     max_processing_time := max_processing_time m;
     min_processing_time := min_processing_time m;
     node_message_counts := node_message_counts m |}.

Definition increment_forwarded (m : MetricsCollector) (count : Z)
    : MetricsCollector :=
  {| messages_received_total := messages_received_total m;
     messages_sent_total := messages_sent_total m;
     messages_errors_total := messages_errors_total m;
     messages_forwarded_total := messages_forwarded_total m + count;
     messages_dropped_total := messages_dropped_total m;
     messages_filtered_total := messages_filtered_total m;
     connected_radios := connected_radios m;
     active_nodes := active_nodes m;
     tracked_messages := tracked_messages m;
     message_processing_times := message_processing_times m;
     max_processing_time := max_processing_time m;
     min_processing_time := min_processing_time m;
     node_message_counts := node_message_counts m |}.

Definition increment_dropped (m : MetricsCollector) (count : Z)
    : MetricsCollector :=
  {| messages_received_total := messages_received_total m;
     messages_sent_total := messages_sent_total m;
     messages_errors_total := messages_errors_total m;
     messages_forwarded_total := messages_forwarded_total m;
     messages_dropped_total := messages_dropped_total m + count;
     messages_filtered_total := messages_filtered_total m;
     connected_radios := connected_radios m;
     active_nodes := active_nodes m;
     tracked_messages := tracked_messages m;
     message_processing_times := message_processing_times m;
     max_processing_time := max_processing_time m;
     min_processing_time := min_processing_time m;
     node_message_counts := node_message_counts m |}.

Definition increment_filtered (m : MetricsCollector) (count : Z)
    : MetricsCollector :=
  {| messages_received_total := messages_received_total m;
     messages_sent_total := messages_sent_total m;
     messages_errors_total := messages_errors_total m;
     messages_forwarded_total := messages_forwarded_total m;
     messages_dropped_total := messages_dropped_total m;
     messages_filtered_total := messages_filtered_total m + count;
     connected_radios := connected_radios m;
     active_nodes := active_nodes m;
     tracked_messages := tracked_messages m;
     message_processing_times := message_processing_times m;
     max_processing_time := max_processing_time m;
     min_processing_time := min_processing_time m;
     node_message_counts := node_message_counts m |}.

(** [max(a, b)] and [min(a, b)] of two numbers: the first argument,
    unless the second is strictly beyond it. *)
Definition py_max (a b : Duration) : Duration :=
  if QArith_base.Qle_bool b a then a else b.

Definition py_min (a b : Duration) : Duration :=
  if QArith_base.Qle_bool a b then a else b.

(** [duration_ms > 0] *)
Definition above_zero (d : Duration) : bool :=
  negb (QArith_base.Qle_bool d (QArith_base.Qmake 0 1)).

(** [times.append(d)], then [times.pop(0)] if there are more than 1000. *)
Definition window (times : list Duration) (d : Duration) : list Duration :=
  let times' := times ++ [d] in
  if (1000 <? List.length times')%nat then tl times' else times'.

Definition record_processing_time (m : MetricsCollector)
    (duration_ms : Duration) : MetricsCollector :=
  {| messages_received_total := messages_received_total m;
     messages_sent_total := messages_sent_total m;
     messages_errors_total := messages_errors_total m;
     messages_forwarded_total := messages_forwarded_total m;
     messages_dropped_total := messages_dropped_total m;
     messages_filtered_total := messages_filtered_total m;
     connected_radios := connected_radios m;
     active_nodes := active_nodes m;
     tracked_messages := tracked_messages m;
     message_processing_times :=
       window (message_processing_times m) duration_ms;
     max_processing_time := py_max (max_processing_time m) duration_ms;
     min_processing_time :=
       if above_zero duration_ms then
         match min_processing_time m with
         | None => Some duration_ms
         | Some least => Some (py_min least duration_ms)
         end
       else min_processing_time m;
     node_message_counts := node_message_counts m |}.

(** [if node_id not in d: d[node_id] = 0], then [d[node_id] += count]. *)
Definition increment_node_messages (m : MetricsCollector) (node_id : string)
    (count : Z) : MetricsCollector :=
  let counts :=
    if dict_mem node_id (node_message_counts m) then node_message_counts m
    else dict_set node_id 0%Z (node_message_counts m) in
  {| messages_received_total := messages_received_total m;
     messages_sent_total := messages_sent_total m;
     messages_errors_total := messages_errors_total m;
     messages_forwarded_total := messages_forwarded_total m;
     messages_dropped_total := messages_dropped_total m;
     messages_filtered_total := messages_filtered_total m;
     connected_radios := connected_radios m;
     active_nodes := active_nodes m;
     tracked_messages := tracked_messages m;
     message_processing_times := message_processing_times m;
     max_processing_time := max_processing_time m;
     min_processing_time := min_processing_time m;
     node_message_counts :=
       dict_set node_id (get (dict_get node_id counts) 0 + count)%Z counts |}.

(** The call on the collector that a call of a routing pass stands for
    (lines 271, 283-284, 321-322, 333-334 and 339 of
    [bridge_enhanced.py]); [duration_ms] is the time the pass took. *)
Definition collect (duration_ms : Duration) (m : MetricsCollector)
    (e : Event) : MetricsCollector :=
  match e with
  | MetricsFiltered => increment_filtered m 1
  | MetricsReceived radio => increment_received m (radio_name radio) 1
  | MetricsNodeMessages node => increment_node_messages m node 1
  | MetricsSent radio => increment_sent m (radio_name radio) 1
  | MetricsForwarded => increment_forwarded m 1
  | MetricsErrors radio => increment_errors m (radio_name radio) 1
  | MetricsDropped => increment_dropped m 1
  | MetricsProcessingTime => record_processing_time m duration_ms
  | _ => m
  end.

(** The collector after the calls of a pass. *)
Definition collect_all (duration_ms : Duration) (m : MetricsCollector)
    (calls : list Event) : MetricsCollector :=
  fold_left (collect duration_ms) calls m.

(** The last [n] elements of a list. *)
Definition last_n {A : Type} (n : nat) (xs : list A) : list A :=
  skipn (List.length xs - n) xs.

(** What [record_processing_time] keeps of the largest and the least
    time. *)
Definition extremes_of (ds : list Duration) (m : MetricsCollector) : Prop :=
  QArith_base.Qle (QArith_base.Qmake 0 1) (max_processing_time m)
  /\ Forall (fun d => QArith_base.Qle d (max_processing_time m)) ds
  /\ (max_processing_time m = QArith_base.Qmake 0 1
      \/ In (max_processing_time m) ds)
  /\ match min_processing_time m with
     | None => Forall (fun d => above_zero d = false) ds
     | Some least =>
         In least ds /\ above_zero least = true
         /\ Forall (fun d => above_zero d = true -> QArith_base.Qle least d) ds
     end.

Definition is_metrics_filtered (e : Event) : bool :=
  match e with
  | MetricsFiltered => true
  | _ => false
  end.

(* ================================================================== *)
(** * config.py *)

(** What a YAML or JSON file holds; the keys of a mapping are strings. *)
#[warnings="-register-all"]
Inductive Value : Type :=
| VNull
| VBool (b : bool)
| VInt (n : Z)
| VFloat (q : QArith_base.Q)
| VStr (s : string)
| VList (items : list Value)
| VDict (entries : list (string * Value)).

(** [bool(v)] *)
Definition truthy (v : Value) : bool :=
  match v with
  | VNull => false
  | VBool b => b
  | VInt n => negb (n =? 0)%Z
  | VFloat q => negb (QArith_base.Qeq_bool q (QArith_base.Qmake 0 1))
  | VStr s => negb (is_empty s)
  | VList items => nonempty items
  | VDict entries => nonempty entries
  end.

(** [s.split(sep)] for a separator of one character: the parts between
    the separators, of which there is always at least one. *)
Fixpoint str_split (sep : ascii) (s : string) : list string :=
  match s with
  | EmptyString => [EmptyString]
  | String c rest =>
      if Ascii.eqb c sep then EmptyString :: str_split sep rest
      else match str_split sep rest with
           | [] => [String c EmptyString]
           | part :: parts => String c part :: parts
           end
  end.

(** [_merge_configs] on two values: two dictionaries are merged key by
    key, in the order of the override's items; in any other case the
    override's value stands. *)
Fixpoint merge_value (base override : Value) {struct override} : Value :=
  match base, override with
  | VDict b, VDict o =>
      VDict
        ((fix merge_items (result : list (string * Value))
              (items : list (string * Value)) {struct items}
            : list (string * Value) :=
            match items with
            | [] => result
            | (key, value) :: rest =>
                merge_items
                  (dict_set key
                            (match dict_get key result with
                             | Some r => merge_value r value
                             | None => value
                             end)
                            result)
                  rest
            end) b o)
  | _, _ => override
  end.

Module BridgeConfig.

Definition DEFAULT_CONFIG : list (string * Value) :=
  [ ("bridge",
     VDict [ ("auto_detect", VBool true);
             ("ports", VList []);
             ("message_tracking",
              VDict [ ("max_age_minutes", VInt 10);
                      ("max_messages", VInt 1000) ]) ]);
    ("channels",
     VDict [ ("mapping",
              VDict [ ("LongFast", VStr "LongModerate");
                      ("LongModerate", VStr "LongFast") ]) ]);
    ("filtering",
     VDict [ ("enabled", VBool false);
             ("whitelist_nodes", VList []);
             ("blacklist_nodes", VList []);
             ("content_filters",
              VDict [ ("keywords", VList []);
                      ("regex_patterns", VList []) ]) ]);
    ("database",
     VDict [ ("enabled", VBool false);
             ("path", VStr "./meshtastic_bridge.db");
             ("retention_days", VInt 30) ]);
    ("metrics",
     VDict [ ("enabled", VBool false);
             ("port", VInt 9090);
             ("path", VStr "/metrics") ]);
    ("mqtt",
     VDict [ ("enabled", VBool false);
             ("broker", VStr "localhost");
             ("port", VInt 1883);
             ("username", VNull);
             ("password", VNull);
             ("topic_prefix", VStr "meshtastic/bridge");
             ("publish_incoming", VBool true);
             ("publish_outgoing", VBool true) ]);
    ("web",
     VDict [ ("enabled", VBool false);
             ("host", VStr "0.0.0.0");
             ("port", VInt 8080);
             ("api_enabled", VBool true) ]);
    ("logging",
     VDict [ ("level", VStr "INFO");
             ("file", VNull);
             ("max_bytes", VInt 10485760);
             ("backup_count", VInt 5) ]) ].

(** The loop of [_merge_configs] over [override.items()]. *)
Definition merge_item (result : list (string * Value))
    (item : string * Value) : list (string * Value) :=
  let '(key, value) := item in
  dict_set key
           (match dict_get key result with
            | Some r => merge_value r value
            | None => value
            end)
           result.

Definition _merge_configs (base override : list (string * Value))
    : list (string * Value) :=
  fold_left merge_item override base.

(** The loop of [get]: the value at the end of the path, if every step
    finds a dictionary that has the key. *)
Fixpoint walk (keys : list string) (value : Value) : option Value :=
  match keys with
  | [] => Some value
  | k :: keys' =>
      match value with
      | VDict entries =>
          match dict_get k entries with
          | Some v => walk keys' v
          | None => None
          end
      | _ => None
      end
  end.

Definition get (config : list (string * Value)) (key : string)
    (default : Value) : Value :=
  match walk (str_split "." key) (VDict config) with
  | Some value => value
  | None => default
  end.

(** [set], on a path that starts with [k] and goes on with [rest]: the
    loop over all keys but the last, and the assignment to the last.  A
    key that is missing on the way gets an empty dictionary.  A value on
    the way that is not a dictionary takes neither [config[k] = ...] with
    a string key nor, being a number or [None], [k not in config]: what
    the next step does with it is a [TypeError], and nothing has been
    written by then. *)
Fixpoint put (k : string) (rest : list string) (value : Value)
    (config : list (string * Value)) {struct rest}
    : Exc (list (string * Value)) :=
  match rest with
  | [] => Ok (dict_set k value config)
  | k' :: rest' =>
      let config1 :=
        if dict_mem k config then config else dict_set k (VDict []) config in
      match dict_get k config1 with
      | Some (VDict inner) =>
          inner' <- put k' rest' value inner ;;
          Ok (dict_set k (VDict inner') config1)
      | _ => Raise TypeError
      end
  end.

Definition set (config : list (string * Value)) (key : string)
    (value : Value) : Exc (list (string * Value)) :=
  match str_split "." key with
  | [] => Ok config
  | k :: rest => put k rest value config
  end.

(** The messages of [validate], without their wording. *)
Inductive Warning : Type :=
| NoPortsSpecified
| NoBrokerSpecified
| NoDatabaseDirectory (db_dir : string)
| InvalidWebPort (port : Value)
| InvalidMetricsPort (port : Value).

(** [isinstance(port, int) and 1 <= port <= 65535]; a [bool] is an
    [int], [True] being one. *)
Definition valid_port (port : Value) : bool :=
  match port with
  | VInt n => (1 <=? n)%Z && (n <=? 65535)%Z
  | VBool b => b
  | _ => false
  end.

(** [validate]; [os.path.exists] and [os.path.dirname] are the system's.
    [dirname] raises a [TypeError] for a path that is not a string. *)
Definition validate (path_exists : string -> bool)
    (dirname : string -> string) (config : list (string * Value))
    : Exc (list Warning) :=
  let bridge_warnings :=
    if negb (truthy (get config "bridge.auto_detect" VNull))
       && negb (truthy (get config "bridge.ports" VNull))
    then [NoPortsSpecified] else [] in
  let mqtt_warnings :=
    if truthy (get config "mqtt.enabled" VNull)
       && negb (truthy (get config "mqtt.broker" VNull))
    then [NoBrokerSpecified] else [] in
  database_warnings <-
    (if truthy (get config "database.enabled" VNull) then
       let db_path := get config "database.path" VNull in
       if truthy db_path then
         match db_path with
         | VStr path =>
             let db_dir := dirname path in
             Ok (if negb (is_empty db_dir) && negb (path_exists db_dir)
                 then [NoDatabaseDirectory db_dir] else [])
         | _ => Raise TypeError
         end
       else Ok []
     else Ok []) ;;
  let web_warnings :=
    if truthy (get config "web.enabled" VNull)
       && negb (valid_port (get config "web.port" VNull))
    then [InvalidWebPort (get config "web.port" VNull)] else [] in
  let metrics_warnings :=
    if truthy (get config "metrics.enabled" VNull)
       && negb (valid_port (get config "metrics.port" VNull))
    then [InvalidMetricsPort (get config "metrics.port" VNull)] else [] in
  Ok (bridge_warnings ++ mqtt_warnings ++ database_warnings
        ++ web_warnings ++ metrics_warnings).

End BridgeConfig.

(** Two paths part ways: they agree up to a point, and there each has a
    key and the keys differ. *)
Fixpoint diverge (p q : list string) : bool :=
  match p, q with
  | a :: p', b :: q' => if String.eqb a b then diverge p' q' else true
  | _, _ => false
  end.

Definition is_dict (v : Value) : bool :=
  match v with
  | VDict _ => true
  | _ => false
  end.

(** The separator does not occur in the string. *)
Fixpoint free_of (sep : ascii) (s : string) : bool :=
  match s with
  | EmptyString => true
  | String c rest => negb (Ascii.eqb c sep) && free_of sep rest
  end.

(* ================================================================== *)
(** * mqtt_bridge.py *)

(** [json.loads]: the value a text stands for, or the exception raised,
    which is [JSONDecodeError] for a text that is no JSON and can be
    another one ([ValueError] for a number of more digits than [int]
    converts, [RecursionError] for a document nested too deep). *)
Class JsonLib : Type := {
  json_loads : string -> Exc Value
}.

(** [d.get(k, default)] *)
Definition dict_get_default (k : string) (default : Value)
    (d : list (string * Value)) : Value :=
  match dict_get k d with
  | Some v => v
  | None => default
  end.

(** [str(n)] for an integer. *)
Definition str_of_int (n : Z) : string :=
  DecimalString.NilZero.string_of_int (Z.to_int n).

Module MQTTBridge.

(** [self.stats] *)
Record Stats : Type := {
  published : nat;
  received : nat;
  errors : nat
}.

(** The bridge object: what [__init__] reads off the configuration, the
    connection state and the statistics.  [message_callback] says whether
    a callback was given. *)
Record t : Type := {
  topic_prefix : string;
  publish_incoming : bool;
  publish_outgoing : bool;
  retain : bool;
  homeassistant_discovery : bool;
  message_callback : bool;
  connected : bool;
  stats : Stats
}.

Definition with_stats (self : t) (s : Stats) : t :=
  {| topic_prefix := topic_prefix self;
     publish_incoming := publish_incoming self;
     publish_outgoing := publish_outgoing self;
     retain := retain self;
     homeassistant_discovery := homeassistant_discovery self;
     message_callback := message_callback self;
     connected := connected self;
     stats := s |}.

Definition incr_published (self : t) : t :=
  with_stats self {| published := S (published (stats self));
                     received := received (stats self);
                     errors := errors (stats self) |}.

Definition incr_received (self : t) : t :=
  with_stats self {| published := published (stats self);
                     received := S (received (stats self));
                     errors := errors (stats self) |}.

Definition incr_errors (self : t) : t :=
  with_stats self {| published := published (stats self);
                     received := received (stats self);
                     errors := S (errors (stats self)) |}.

(** A call [self.message_callback(text, radio, channel)]. *)
Record Command : Type := {
  cmd_text : Value;
  cmd_radio : Value;
  cmd_channel : Value
}.

Section Commands.
Context {json : JsonLib}.

(** The inner [try] of [_handle_command] (lines 157-170): the calls made
    on the callback, which returns.  A payload that is JSON but not an
    object has no [get]; the [AttributeError], like whatever [json.loads]
    raises that is no [JSONDecodeError], is not for the inner handler. *)
Definition send_command (payload : string) : Exc (list Command) :=
  try_except
    (data <- json_loads payload ;;
     match data with
     | VDict data =>
         Ok [ {| cmd_text := dict_get_default "text" (VStr payload) data;
                 cmd_radio := dict_get_default "radio" (VStr "radio1") data;
                 cmd_channel := dict_get_default "channel" (VInt 0) data |} ]
     | _ => Raise AttributeError
     end)
    [JSONDecodeError]
    (Ok [ {| cmd_text := VStr payload;
             cmd_radio := VStr "radio1";
             cmd_channel := VInt 0 |} ]).

(** [_handle_command]: the object as the call leaves it, and the calls
    made on the callback.  What leaves the inner [try] is counted as an
    error by the outer handler. *)
Definition _handle_command (self : t) (topic payload : string)
    : t * list Command :=
  let parts := str_split "/" topic in
  if (List.length parts <? 3)%nat then (self, [])
  else
    let command := nth 2 parts EmptyString in
    if String.eqb command "send" && message_callback self then
      match send_command payload with
      | Ok calls => (self, calls)
      | Raise _ => (incr_errors self, [])
      end
    else (self, []).

(** [_on_message], for a message with the given topic and payload. *)
Definition _on_message (self : t) (topic : string) (payload : list byte)
    : t * list Command :=
  match bytes_decode Strict payload with
  | Raise _ => (incr_errors self, [])
  | Ok text =>
      let self1 := incr_received self in
      if prefix (topic_prefix self ++ "/command/") topic
      then _handle_command self1 topic text
      else (self1, [])
  end.

End Commands.

(** What is handed to [client.publish]: the JSON document of the
    message, or its text. *)
Inductive Body : Type :=
| MessageJson
| TextOnly (text : string)
| DiscoveryJson.

Record Publish : Type := {
  pub_topic : string;
  pub_body : Body;
  pub_retain : bool
}.

(** [publish_message], for a message whose [from], [text] and [channel]
    are a string, a string and an integer, as the router's are.  Nothing
    in the [try] raises for such a message. *)
Definition publish_message (self : t)
    (from_node text : string) (channel : Z) (direction : string)
    : t * list Publish :=
  if negb (connected self) then (self, [])
  else if String.eqb direction "incoming" && negb (publish_incoming self)
  then (self, [])
  else if String.eqb direction "outgoing" && negb (publish_outgoing self)
  then (self, [])
  else
    (incr_published self,
     [ {| pub_topic := topic_prefix self ++ "/messages/" ++ direction
                         ++ "/" ++ from_node;
          pub_body := MessageJson; pub_retain := retain self |};
       {| pub_topic := topic_prefix self ++ "/text/" ++ direction
                         ++ "/" ++ from_node;
          pub_body := TextOnly text; pub_retain := false |};
       {| pub_topic := topic_prefix self ++ "/channel/" ++ str_of_int channel
                         ++ "/" ++ direction;
          pub_body := MessageJson; pub_retain := false |} ]
       ++ (if homeassistant_discovery self
           then [ {| pub_topic := "homeassistant/sensor/meshtastic_"
                                    ++ from_node ++ "/config";
                     pub_body := DiscoveryJson; pub_retain := true |} ]
           else [])).

(** The topic is one [_on_message] takes for a command. *)
Definition is_command_topic (self : t) (topic : string) : bool :=
  prefix (topic_prefix self ++ "/command/") topic.

End MQTTBridge.

(** ** Data for the examples *)

(** A reader for the examples: it knows the empty object, [null] and the
    decimal numbers without a sign, of no more than 4300 digits, and takes
    a text of letters only for what it is, no JSON. *)
Definition example_json : JsonLib :=
  {| json_loads := fun s =>
       if String.eqb s "{}" then Ok (VDict [])
       else if String.eqb s "null" then Ok VNull
       else if String.eqb s "0" then Ok (VInt 0)
       else if prefix "0" s then Raise JSONDecodeError
       else if is_empty s then Raise JSONDecodeError
       else match digits 0%Z s with
            | Some n =>
                if (4300 <? String.length s)%nat then Raise ValueError
                else Ok (VInt n)
            | None => Raise JSONDecodeError
            end |}.

(** The object [__init__] makes of an empty configuration and a
    callback, once connected. *)
Definition default_mqtt : MQTTBridge.t :=
  {| MQTTBridge.topic_prefix := "meshtastic/bridge";
     MQTTBridge.publish_incoming := true;
     MQTTBridge.publish_outgoing := true;
     MQTTBridge.retain := false;
     MQTTBridge.homeassistant_discovery := false;
     MQTTBridge.message_callback := true;
     MQTTBridge.connected := true;
     MQTTBridge.stats := {| MQTTBridge.published := 0;
                            MQTTBridge.received := 0;
                            MQTTBridge.errors := 0 |} |}.

(** The same with a prefix of one level. *)
Definition one_level_mqtt : MQTTBridge.t :=
  {| MQTTBridge.topic_prefix := "mesh";
     MQTTBridge.publish_incoming := true;
     MQTTBridge.publish_outgoing := true;
     MQTTBridge.retain := false;
     MQTTBridge.homeassistant_discovery := false;
     MQTTBridge.message_callback := true;
     MQTTBridge.connected := true;
     MQTTBridge.stats := {| MQTTBridge.published := 0;
                            MQTTBridge.received := 0;
                            MQTTBridge.errors := 0 |} |}.

Definition hello : list byte := [x68; x65; x6c; x6c; x6f].


(* ================================================================== *)
(** * Properties of the filter *)

Section FilterFacts.
Context {lib : PyLib}.

(** [_evaluate_rule] makes the comparison the rule's kind selects; the
    handler of the [regex] branch is for [re.error]. *)
Lemma _evaluate_rule_spec (rule : FilterRule) (message : Message) :
  regular rule = true ->
  _evaluate_rule rule message = Ok (spec_pattern_matches message rule).
Proof.
  unfold regular, compiles_or_re_error, _evaluate_rule, spec_pattern_matches.
  destruct (String.eqb (filter_type rule) "keyword"); [reflexivity|].
  destruct (String.eqb (filter_type rule) "regex"); cbn [negb orb].
  - destruct (re_compile (pattern rule)) as [p|e]; [reflexivity|].
    intros He. cbn. now rewrite He.
  - intros _.
    destruct (String.eqb (filter_type rule) "sender"); [reflexivity|].
    destruct (String.eqb (filter_type rule) "channel"); [|reflexivity].
    now destruct (py_int (pattern rule)).
Qed.

(** What [re.compile] raises that is no [re.error] leaves
    [_evaluate_rule]. *)
Lemma _evaluate_rule_raises (rule : FilterRule) (message : Message)
    (e : PyExc) :
  filter_type rule = "regex" ->
  re_compile (pattern rule) = Raise e ->
  PyExc_eqb e ReError = false ->
  _evaluate_rule rule message = Raise e.
Proof.
  intros Hkind Hcompile He. unfold _evaluate_rule.
  rewrite Hkind, Hcompile. cbn. now rewrite He.
Qed.

(** The loop returns at the first rule that matches and says [block] or
    [allow]; a rule that matches with another action is passed over, and
    the rules behind the one that decides are not evaluated. *)
Lemma _check_custom_rules_first_deciding (before later : list FilterRule)
    (message : Message) :
  Forall (fun r => regular r = true) before ->
  _check_custom_rules (before ++ later) message
  = match find (spec_rule_decides message) before with
    | Some rule => Ok (negb (String.eqb (action rule) "block"))
    | None => _check_custom_rules later message
    end.
Proof.
  induction 1 as [|rule rest Hrule _ IH]; [reflexivity|].
  cbn [app _check_custom_rules find]. unfold spec_rule_decides at 1.
  rewrite (_evaluate_rule_spec rule message Hrule). cbn [bindE].
  destruct (spec_pattern_matches message rule); cbn [andb]; [|exact IH].
  destruct (String.eqb (action rule) "block") eqn:Hblock.
  - cbn [orb]. now rewrite Hblock.
  - cbn [orb]. destruct (String.eqb (action rule) "allow");
      [now rewrite Hblock|exact IH].
Qed.

Lemma _check_custom_rules_regular (rules : list FilterRule)
    (message : Message) :
  Forall (fun r => regular r = true) rules ->
  _check_custom_rules rules message
  = Ok (match find (spec_rule_decides message) rules with
        | Some rule => negb (String.eqb (action rule) "block")
        | None => true
        end).
Proof.
  intros Hrules.
  pose proof (_check_custom_rules_first_deciding rules [] message Hrules)
    as H.
  rewrite app_nil_r in H. rewrite H.
  now destruct (find (spec_rule_decides message) rules).
Qed.

(** The verdict does not read the counters. *)
Lemma should_forward_with_stats (f : MessageFilter) (s : FilterStats)
    (message : Message) :
  fst (should_forward (with_stats f s) message)
  = fst (should_forward f message).
Proof.
  unfold should_forward, _check_content; simpl.
  repeat match goal with
         | |- context [if ?c then _ else _] => destruct c
         end; simpl; try reflexivity.
  destruct (_check_custom_rules (custom_rules f) message) as [[|]|];
    reflexivity.
Qed.

Lemma _check_content_spec (f : MessageFilter) (text : string) :
  _check_content f text
  = negb (negb (is_empty text) && (keyword_match f text || regex_match f text)).
Proof.
  unfold _check_content, keyword_match, regex_match.
  destruct (is_empty text); [reflexivity|]; simpl.
  destruct (existsb _ (keywords f)); [reflexivity|]; simpl.
  destruct (existsb _ (regex_patterns f)); reflexivity.
Qed.

(** [should_forward] of an enabled filter, step by step: the first of the
    five built-in checks that holds blocks, and the custom rules are
    evaluated when none does. *)
Lemma should_forward_steps (f : MessageFilter) (message : Message) :
  enabled f = true ->
  let s := incr_total_checked (stats f) in
  should_forward f message
  = match first_decisive (builtin_checks f message) with
    | Some reason => (Ok false, with_stats f (charge (Some reason) s))
    | None =>
        match _check_custom_rules (custom_rules f) message with
        | Ok true => (Ok true, with_stats f (charge None s))
        | Ok false => (Ok false, with_stats f (charge (Some custom_rule) s))
        | Raise e => (Raise e, with_stats f s)
        end
    end.
Proof.
  intros Henabled s. subst s.
  unfold should_forward, builtin_checks, evaluated_checks.
  rewrite Henabled, _check_content_spec. cbn [negb firstn first_decisive].
  set (c1 := nonempty (whitelist_nodes f) && _).
  set (c2 := mem_str _ (blacklist_nodes f)).
  set (c3 := nonempty (allowed_channels f) && _).
  set (c4 := mem_Z _ (blocked_channels f)).
  set (c5 := negb (is_empty _) && _).
  clearbody c1 c2 c3 c4 c5.
  destruct c1, c2, c3, c4, c5; reflexivity.
Qed.

(** A call that returns has counted the message as checked and as allowed
    or blocked; a call that raises has counted it as checked only. *)
Lemma should_forward_counts (f : MessageFilter) (message : Message) :
  exists s,
    snd (should_forward f message) = with_stats f s
    /\ (total_allowed (stats f) + total_blocked (stats f)
        <= total_checked (stats f) ->
        total_allowed s + total_blocked s <= total_checked s)
    /\ (blocked_by_sender (stats f) + blocked_by_content (stats f)
        + blocked_by_channel (stats f) <= total_blocked (stats f) ->
        blocked_by_sender s + blocked_by_content s + blocked_by_channel s
        <= total_blocked s)
    /\ ((exists verdict, fst (should_forward f message) = Ok verdict) ->
        balanced (stats f) -> balanced s).
Proof.
  unfold balanced.
  destruct (enabled f) eqn:Henabled.
  - rewrite (should_forward_steps f message Henabled).
    destruct (first_decisive (builtin_checks f message)) as [reason|].
    + eexists. split; [reflexivity|].
      destruct reason; cbn; repeat split; intros; lia.
    + destruct (_check_custom_rules (custom_rules f) message) as [[|]|e];
        (eexists; split; [reflexivity|]); cbn; repeat split; intros; try lia.
      match goal with H : exists _, _ |- _ => destruct H; discriminate end.
  - unfold should_forward. rewrite Henabled. cbn.
    exists (stats f). split; [now destruct f|]. auto.
Qed.

End FilterFacts.

Section FilterStatistics.
Context {lib : PyLib}.

(** C10, where the code breaks it.  A custom rule of kind [regex] whose
    pattern asks for 4294967296 repetitions is loaded like any other
    rule.  When the rule is evaluated, [re.compile] raises
    [OverflowError], which is not the [re.error] the handler of
    [_evaluate_rule] is for: the exception leaves [should_forward] after
    [total_checked] has been counted up and before [total_allowed] or
    [total_blocked] is, so the counters that were balanced are not any
    more. *)
Theorem overflowing_pattern_unbalances_statistics :
  re_compile "a{4294967296}" = Raise OverflowError ->
  exists f,
    MessageFilter_init (rules_only [overflowing_rule]) = Ok f
    /\ enabled f = true
    /\ custom_rules f = [rule_of_data overflowing_rule]
    /\ balanced (stats f)
    /\ should_forward f (text_from 1 "N1" "hi")
       = (Raise OverflowError,
          with_stats f (incr_total_checked (stats f)))
    /\ total_checked (stats (snd (should_forward f (text_from 1 "N1" "hi"))))
       = 1
    /\ total_allowed (stats (snd (should_forward f (text_from 1 "N1" "hi"))))
       + total_blocked
           (stats (snd (should_forward f (text_from 1 "N1" "hi"))))
       = 0.
Proof.
  intros Hcompile.
  set (f := {| enabled := true; whitelist_nodes := []; blacklist_nodes := [];
               keywords := []; regex_patterns := [];
               allowed_channels := []; blocked_channels := [];
               custom_rules := [rule_of_data overflowing_rule];
               stats := zero_stats |}).
  assert (should_forward f (text_from 1 "N1" "hi")
          = (Raise OverflowError,
             with_stats f (incr_total_checked (stats f)))) as Hcall.
  { unfold should_forward, _check_content. cbn.
    unfold _evaluate_rule. cbn. rewrite Hcompile. reflexivity. }
  exists f. split; [reflexivity|].
  split; [reflexivity|]. split; [reflexivity|]. split; [reflexivity|].
  split; [exact Hcall|]. rewrite Hcall. split; reflexivity.
Qed.

End FilterStatistics.

(** ** The order of the checks *)

Section CheckOrder.
Context {lib : PyLib}.

(** C2, as the code has it.  A disabled filter forwards every message
    without evaluating any check.  An enabled filter evaluates, in this
    order, (1) sender missing from a non-empty allow-list, (2) sender in
    the deny-list, (3) channel missing from a non-empty channel allow-list,
    (4) channel in the channel deny-list, (5) for a non-empty text, a
    case-insensitive keyword or a regular expression found in it: the
    first of these that holds blocks the message, is the only one charged
    to the counters, and nothing after it is evaluated, whatever the
    custom rules are.  When none of the five holds, (6) the custom rules
    are evaluated, and when their evaluation returns, it blocks the
    message or (7) the message is forwarded. *)
Theorem should_forward_first_decisive_check :
  forall (f : MessageFilter) (message : Message),
    (enabled f = false -> should_forward f message = (Ok true, f))
    /\ (enabled f = true ->
        let s := incr_total_checked (stats f) in
        (forall reason,
            first_decisive (builtin_checks f message) = Some reason ->
            should_forward f message
            = (Ok false, with_stats f (charge (Some reason) s)))
        /\ (forall allowed,
              _check_custom_rules (custom_rules f) message = Ok allowed ->
              let decision := first_decisive (evaluated_checks f message) in
              should_forward f message
              = (Ok (forwards decision), with_stats f (charge decision s)))).
Proof.
  intros f message. split; intros Henabled.
  - unfold should_forward. rewrite Henabled. reflexivity.
  - cbn zeta. rewrite (should_forward_steps f message Henabled).
    split.
    + intros reason ->. reflexivity.
    + intros allowed Hrules.
      unfold builtin_checks, evaluated_checks, custom_rules_block.
      rewrite Hrules. cbn [firstn].
      set (c1 := nonempty (whitelist_nodes f) && _).
      set (c2 := mem_str _ (blacklist_nodes f)).
      set (c3 := nonempty (allowed_channels f) && _).
      set (c4 := mem_Z _ (blocked_channels f)).
      set (c5 := negb (is_empty _) && _).
      clearbody c1 c2 c3 c4 c5.
      destruct c1, c2, c3, c4, c5, allowed; reflexivity.
Qed.

End CheckOrder.

(** ** Custom rules *)

Lemma insert_rule_permutation (r : FilterRule) (rs : list FilterRule) :
  Permutation (insert_rule r rs) (r :: rs).
Proof.
  induction rs as [|r' rs IH]; simpl; [reflexivity|].
  destruct (priority r <? priority r')%Z; [|reflexivity].
  rewrite IH. apply perm_swap.
Qed.

Lemma sort_rules_permutation (rs : list FilterRule) :
  Permutation (sort_rules rs) rs.
Proof.
  induction rs as [|r rs IH]; simpl; [reflexivity|].
  rewrite insert_rule_permutation. now apply perm_skip.
Qed.

Lemma insert_rule_sorted (r : FilterRule) (rs : list FilterRule) :
  StronglySorted by_priority rs ->
  StronglySorted by_priority (insert_rule r rs).
Proof.
  induction 1 as [|r' rs Hsorted IH Hall]; simpl.
  - constructor; constructor.
  - destruct (priority r <? priority r')%Z eqn:Hlt.
    + constructor; [exact IH|].
      eapply Permutation_Forall;
        [symmetry; apply insert_rule_permutation|].
      constructor; [|exact Hall].
      unfold by_priority. apply Z.ltb_lt in Hlt. lia.
    + apply Z.ltb_ge in Hlt.
      constructor; [constructor; assumption|].
      constructor; [exact Hlt|].
      eapply Forall_impl; [|exact Hall].
      unfold by_priority. intros; lia.
Qed.

Lemma sort_rules_sorted (rs : list FilterRule) :
  StronglySorted by_priority (sort_rules rs).
Proof.
  induction rs as [|r rs IH]; simpl; [constructor|].
  now apply insert_rule_sorted.
Qed.

(** The sort is stable: rules of one priority keep their order. *)
Lemma insert_rule_stable (p : Z) (r : FilterRule) (rs : list FilterRule) :
  filter (fun x => (priority x =? p)%Z) (insert_rule r rs)
  = filter (fun x => (priority x =? p)%Z) (r :: rs).
Proof.
  induction rs as [|r' rs IH]; [reflexivity|].
  cbn [insert_rule].
  destruct (priority r <? priority r')%Z eqn:Hlt; [|reflexivity].
  apply Z.ltb_lt in Hlt. cbn [filter] in *. rewrite IH.
  destruct (priority r =? p)%Z eqn:Hr, (priority r' =? p)%Z eqn:Hr';
    try reflexivity.
  apply Z.eqb_eq in Hr, Hr'. lia.
Qed.

Lemma sort_rules_stable (p : Z) (rs : list FilterRule) :
  filter (fun x => (priority x =? p)%Z) (sort_rules rs)
  = filter (fun x => (priority x =? p)%Z) rs.
Proof.
  induction rs as [|r rs IH]; [reflexivity|].
  cbn [sort_rules]. rewrite insert_rule_stable. cbn [filter].
  now rewrite IH.
Qed.

Lemma sorted_around (before later : list FilterRule) (rule : FilterRule) :
  StronglySorted by_priority (before ++ rule :: later) ->
  Forall (fun r => (priority rule <= priority r)%Z) before
  /\ Forall (fun r => (priority r <= priority rule)%Z) later.
Proof.
  induction before as [|r before IH]; cbn [app]; intros Hsorted;
    inversion Hsorted as [|? ? Hrest Hall]; subst.
  - split; [constructor|exact Hall].
  - destruct (IH Hrest) as [Hbefore Hlater]. split; [|exact Hlater].
    constructor; [|exact Hbefore].
    rewrite Forall_app in Hall. destruct Hall as [_ Hall].
    now inversion Hall.
Qed.

Lemma find_none_before (test : FilterRule -> bool)
    (before : list FilterRule) :
  Forall (fun r => test r = false) before -> find test before = None.
Proof.
  induction 1 as [|r before Hr _ IH]; [reflexivity|].
  cbn [find]. now rewrite Hr.
Qed.

Section CustomRulesOrder.
Context {lib : PyLib}.

(** Adding a rule at run time sorts the list again. *)
Lemma add_rule_sorted (f : MessageFilter) (rule : FilterRule) :
  StronglySorted by_priority (custom_rules (add_rule f rule))
  /\ Permutation (custom_rules (add_rule f rule)) (rule :: custom_rules f).
Proof.
  unfold add_rule; cbn [custom_rules with_rules]. split.
  - apply sort_rules_sorted.
  - rewrite sort_rules_permutation. symmetry. apply Permutation_cons_append.
Qed.

(** The filter of the priority example, made of the two rules in either
    order: the rule on EMERGENCY is asked first. *)
Lemma priority_example_loaded (configured : list RuleData) :
  configured = [emergency_rule; bad_sender_rule]
  \/ configured = [bad_sender_rule; emergency_rule] ->
  MessageFilter_init (rules_only configured)
  = Ok {| enabled := true; whitelist_nodes := []; blacklist_nodes := [];
          keywords := []; regex_patterns := [];
          allowed_channels := []; blocked_channels := [];
          custom_rules :=
            [rule_of_data emergency_rule; rule_of_data bad_sender_rule];
          stats := zero_stats |}.
Proof. intros [-> | ->]; reflexivity. Qed.

Lemma priority_example_verdict (text : string) (f : MessageFilter) :
  f = {| enabled := true; whitelist_nodes := []; blacklist_nodes := [];
         keywords := []; regex_patterns := [];
         allowed_channels := []; blocked_channels := [];
         custom_rules :=
           [rule_of_data emergency_rule; rule_of_data bad_sender_rule];
         stats := zero_stats |} ->
  fst (should_forward f
         {| m_id := Some 1%Z; m_from := Some "bad123456";
            m_to := Some "broadcast"; m_text := Some text;
            m_channel := Some 0%Z |})
  = Ok (contains (lower "EMERGENCY") (lower text)).
Proof.
  intros ->. unfold should_forward, _check_content. cbn.
  destruct (is_empty text); cbn;
    destruct (contains (lower "EMERGENCY") (lower text)); reflexivity.
Qed.

(** C3, as the code has it.  The rules a filter is loaded with are the
    configured ones sorted by priority, highest first (rules of one
    priority in their configured order), and [_check_custom_rules] goes
    through them in that order.  The first rule whose pattern matches and
    whose action is [allow] or [block] decides by its action: the rules
    before it, of its priority or a higher one, did not decide (a rule
    that matches with another action is passed over), and the rules after
    it are not evaluated, whatever they are; when no rule decides, the
    message is allowed.  This is said of rules of kind [regex] whose
    pattern [re.compile] takes or refuses with [re.error].  With an allow
    rule of priority 100 on the keyword EMERGENCY and a block rule of
    priority 0 on the sender bad123456, configured in either order, a
    message from bad123456 is forwarded when its text holds EMERGENCY and
    blocked when it does not. *)
Theorem custom_rules_first_match_by_priority :
  forall (config : FilterConfig) (message : Message) (text : string),
    let rules := _load_custom_rules config in
    (Permutation rules (map rule_of_data (get (cfg_custom_rules config) []))
     /\ StronglySorted by_priority rules
     /\ forall p, filter (fun r => (priority r =? p)%Z) rules
                  = filter (fun r => (priority r =? p)%Z)
                      (map rule_of_data (get (cfg_custom_rules config) [])))
    /\ (forall before rule later,
          rules = before ++ rule :: later ->
          Forall (fun r => regular r = true) before ->
          Forall (fun r => spec_rule_decides message r = false) before ->
          regular rule = true ->
          spec_rule_decides message rule = true ->
          (forall others,
              _check_custom_rules (before ++ rule :: others) message
              = Ok (String.eqb (action rule) "allow"))
          /\ Forall (fun r => (priority rule <= priority r)%Z) before
          /\ Forall (fun r => (priority r <= priority rule)%Z) later)
    /\ (Forall (fun r => regular r = true) rules ->
        Forall (fun r => spec_rule_decides message r = false) rules ->
        _check_custom_rules rules message = Ok true)
    /\ (forall configured,
          configured = [emergency_rule; bad_sender_rule]
          \/ configured = [bad_sender_rule; emergency_rule] ->
          exists f,
            MessageFilter_init (rules_only configured) = Ok f
            /\ map priority (custom_rules f) = [100; 0]%Z
            /\ (lower_keeps_words -> contains "EMERGENCY" text = true ->
                fst (should_forward f
                       {| m_id := Some 1%Z; m_from := Some "bad123456";
                          m_to := Some "broadcast"; m_text := Some text;
                          m_channel := Some 0%Z |})
                = Ok true)
            /\ (contains (lower "EMERGENCY") (lower text) = false ->
                fst (should_forward f
                       {| m_id := Some 1%Z; m_from := Some "bad123456";
                          m_to := Some "broadcast"; m_text := Some text;
                          m_channel := Some 0%Z |})
                = Ok false)).
Proof.
  intros config message text rules.
  assert (StronglySorted by_priority rules) as Hsorted
    by apply sort_rules_sorted.
  split; [|split; [|split]].
  - split; [apply sort_rules_permutation|].
    split; [exact Hsorted|]. intros p. apply sort_rules_stable.
  - intros before rule later Hrules Hregular Hnone Hrule Hdecides.
    rewrite Hrules in Hsorted. split; [|now apply sorted_around].
    intros others.
    rewrite (_check_custom_rules_first_deciding before (rule :: others)
               message Hregular).
    rewrite (find_none_before _ _ Hnone).
    cbn [_check_custom_rules].
    rewrite (_evaluate_rule_spec rule message Hrule). cbn [bindE].
    unfold spec_rule_decides in Hdecides.
    apply andb_true_iff in Hdecides. destruct Hdecides as [-> Haction].
    destruct (String.eqb (action rule) "block") eqn:Hblock.
    + apply String.eqb_eq in Hblock. now rewrite Hblock.
    + cbn [orb] in Haction. now rewrite Haction.
  - intros Hregular Hnone.
    rewrite (_check_custom_rules_regular rules message Hregular).
    now rewrite (find_none_before _ _ Hnone).
  - intros configured Hconfigured.
    eexists. split; [exact (priority_example_loaded configured Hconfigured)|].
    split; [reflexivity|]. split.
    + intros Hlower Htext.
      rewrite (priority_example_verdict text _ eq_refl).
      f_equal. apply Hlower; [reflexivity|exact Htext].
    + intros Htext.
      rewrite (priority_example_verdict text _ eq_refl).
      now rewrite Htext.
Qed.

End CustomRulesOrder.

(** ** Malformed patterns *)

Section MalformedPatterns.
Context {lib : PyLib}.

Lemma compile_patterns_skips_malformed (srcs : list string) :
  forallb compiles_or_re_error srcs = true ->
  compile_patterns srcs
  = Ok (flat_map (fun src => match re_compile src with
                             | Ok p => [p]
                             | Raise _ => []
                             end) srcs).
Proof.
  induction srcs as [|src rest IH]; [reflexivity|].
  cbn [forallb compile_patterns flat_map]. unfold compiles_or_re_error at 1.
  intros H. apply andb_true_iff in H. destruct H as [Hsrc Hrest].
  rewrite (IH Hrest).
  destruct (re_compile src) as [p|e]; cbn; [reflexivity|].
  now rewrite Hsrc.
Qed.

(** C8, as the code has it.  Of the patterns of
    [content_filters.regex_patterns], those that [re.compile] refuses with
    [re.error] are left out when the filter is loaded, and the compiled
    ones are kept in order.  A custom rule is loaded whatever its pattern
    is: the pattern of a rule of kind [regex] is compiled each time the
    rule is evaluated, and one that [re.compile] refuses with [re.error]
    makes the rule match nothing.  With such patterns, neither the
    evaluation of a rule nor [should_forward] raises, whatever the
    message. *)
Theorem malformed_pattern_never_fails_evaluation :
  forall (config : FilterConfig) (f : MessageFilter) (rule : FilterRule)
         (message : Message),
    let srcs :=
      get (cf_regex_patterns
             (get (cfg_content_filters config)
                  {| cf_keywords := None; cf_regex_patterns := None |}))
          [] in
    (forallb compiles_or_re_error srcs = true ->
     exists loaded,
       MessageFilter_init config = Ok loaded
       /\ regex_patterns loaded
          = flat_map (fun src => match re_compile src with
                                 | Ok p => [p]
                                 | Raise _ => []
                                 end) srcs
       /\ custom_rules loaded = _load_custom_rules config)
    /\ Permutation (_load_custom_rules config)
                   (map rule_of_data (get (cfg_custom_rules config) []))
    /\ (filter_type rule = "regex" ->
        compiles_or_re_error (pattern rule) = true ->
        _evaluate_rule rule message
        = Ok (match re_compile (pattern rule) with
              | Ok p => search p (get (m_text message) "")
              | Raise _ => false
              end))
    /\ (regular rule = true ->
        exists matched, _evaluate_rule rule message = Ok matched)
    /\ (Forall (fun r => regular r = true) (custom_rules f) ->
        exists verdict, fst (should_forward f message) = Ok verdict).
Proof.
  intros config f rule message srcs.
  split; [|split; [apply sort_rules_permutation|split; [|split]]].
  - intros Hsrcs. unfold MessageFilter_init. fold srcs.
    rewrite (compile_patterns_skips_malformed srcs Hsrcs). cbn [bindE].
    eexists. split; [reflexivity|]. split; reflexivity.
  - intros Hkind Hpattern.
    rewrite _evaluate_rule_spec.
    + unfold spec_pattern_matches. now rewrite Hkind.
    + unfold regular. rewrite Hpattern. apply orb_true_r.
  - intros Hrule. rewrite (_evaluate_rule_spec rule message Hrule). eauto.
  - intros Hrules. destruct (enabled f) eqn:Henabled.
    + rewrite (should_forward_steps f message Henabled).
      destruct (first_decisive (builtin_checks f message)); [cbn; eauto|].
      rewrite (_check_custom_rules_regular _ message Hrules).
      destruct (match find _ _ with Some _ => _ | None => _ end); cbn; eauto.
    + unfold should_forward. rewrite Henabled. cbn. eauto.
Qed.

End MalformedPatterns.

(* ================================================================== *)
(** * Properties of the decoder *)

Lemma subsequence_refl {A : Type} (l : list A) : subsequence l l.
Proof. induction l; constructor; assumption. Qed.

Lemma subsequence_app {A : Type} (l1 l2 l3 l4 : list A) :
  subsequence l1 l2 -> subsequence l3 l4 -> subsequence (l1 ++ l3) (l2 ++ l4).
Proof. induction 1; simpl; intros; try constructor; auto. Qed.

Lemma subsequence_nil_l {A : Type} (l : list A) : subsequence [] l.
Proof. induction l; constructor; assumption. Qed.

Lemma subsequence_length {A : Type} (l1 l2 : list A) :
  subsequence l1 l2 -> List.length l1 <= List.length l2.
Proof. induction 1; simpl; lia. Qed.

Lemma subsequence_skipn {A : Type} (n : nat) (out bs : list A) :
  subsequence out (skipn n bs) -> subsequence out bs.
Proof.
  intros H. rewrite <- (firstn_skipn n bs).
  exact (subsequence_app _ _ _ _ (subsequence_nil_l (firstn n bs)) H).
Qed.

Lemma subsequence_firstn {A : Type} (n : nat) (out bs : list A) :
  subsequence out (skipn n bs) -> subsequence (firstn n bs ++ out) bs.
Proof.
  intros H. rewrite <- (firstn_skipn n bs) at 2.
  exact (subsequence_app _ _ _ _ (subsequence_refl (firstn n bs)) H).
Qed.

Ltac scan_cases :=
  unfold utf8_scan;
  repeat match goal with
         | |- context [if ?c then _ else _] => destruct c
         end.

(** A step takes at least one byte and no more than there are. *)
Lemma utf8_scan_bounds (b : byte) (bs : list byte) :
  1 <= scan_length (utf8_scan (b :: bs)) <= List.length (b :: bs).
Proof.
  destruct bs as [|b2 [|b3 [|b4 rest]]]; scan_cases; simpl; lia.
Qed.

(** A well-formed sequence is recognised by its own bytes. *)
Lemma utf8_scan_sequence (b : byte) (bs rest : list byte) (n : nat) :
  utf8_scan (b :: bs) = Sequence n ->
  utf8_scan (firstn n (b :: bs) ++ rest) = Sequence n.
Proof.
  destruct bs as [|b2 [|b3 [|b4 more]]]; unfold utf8_scan;
    repeat match goal with
           | |- context [if ?c then _ else _] => destruct c eqn:?
           end;
    intros [= <-]; cbn [firstn app];
    repeat match goal with
           | H : ?c = _ |- context [?c] => rewrite H
           end; reflexivity.
Qed.

Lemma decode_loop_nil (errors : ErrorHandler) (steps : nat) :
  decode_loop errors steps [] = Ok [].
Proof. destruct steps; reflexivity. Qed.

Lemma firstn_firstn_app {A : Type} (n : nat) (l rest : list A) :
  n <= List.length l ->
  firstn n (firstn n l ++ rest) = firstn n l
  /\ skipn n (firstn n l ++ rest) = rest.
Proof.
  intros Hn.
  assert (List.length (firstn n l) = n) as Hlen
    by (rewrite length_firstn; lia).
  split.
  - rewrite firstn_app, Hlen, Nat.sub_diag, firstn_O, app_nil_r.
    rewrite firstn_firstn. f_equal. lia.
  - rewrite skipn_app, Hlen, Nat.sub_diag, skipn_O.
    rewrite <- Hlen at 1. rewrite skipn_all. reflexivity.
Qed.

(** The decoder with [errors='ignore'], run for enough steps: it returns;
    what it returns is the input with bytes left out, and is well formed;
    it is the input itself when the input is well formed, and shorter when
    it is not. *)
Lemma decode_loop_ignore (steps : nat) :
  forall bs : list byte,
    List.length bs <= steps ->
    exists out,
      decode_loop Ignore steps bs = Ok out
      /\ subsequence out bs
      /\ (forall k, List.length out <= k -> decode_loop Strict k out = Ok out)
      /\ ((decode_loop Strict steps bs = Ok bs /\ out = bs)
          \/ (decode_loop Strict steps bs = Raise UnicodeDecodeError
              /\ List.length out < List.length bs)).
Proof.
  induction steps as [|steps IH]; intros bs Hlen.
  - destruct bs; [|simpl in Hlen; lia].
    exists []. repeat split; auto using subsequence_nil, decode_loop_nil.
  - destruct bs as [|b bs].
    { exists []. repeat split; auto using subsequence_nil, decode_loop_nil. }
    pose proof (utf8_scan_bounds b bs) as Hbounds.
    cbn [decode_loop].
    destruct (utf8_scan (b :: bs)) as [n|n] eqn:Hscan; cbn [scan_length] in *.
    + destruct (IH (skipn n (b :: bs))) as (out & Hout & Hsub & Hvalid & Hin).
      { rewrite length_skipn. lia. }
      exists (firstn n (b :: bs) ++ out). rewrite Hout. cbn [bindE].
      split; [reflexivity|]. split; [now apply subsequence_firstn|].
      split.
      * intros k Hk. rewrite length_app, length_firstn in Hk.
        destruct k as [|k]; [lia|].
        destruct (firstn_firstn_app n (b :: bs) out) as [Hfirst Hskip];
          [lia|].
        assert (utf8_scan (firstn n (b :: bs) ++ out) = Sequence n) as Hhead
          by now apply utf8_scan_sequence.
        cbn [decode_loop].
        destruct (firstn n (b :: bs) ++ out) as [|b' bs'] eqn:Hlist.
        { destruct n; [lia|discriminate]. }
        rewrite Hhead, Hskip, Hfirst, Hvalid by lia. cbn [bindE].
        now rewrite Hlist.
      * destruct Hin as [[Hstrict ->] | [Hstrict Hshort]]; rewrite Hstrict;
          cbn [bindE]; rewrite ?firstn_skipn; [left; auto|right].
        split; [reflexivity|].
        rewrite length_app, length_firstn.
        rewrite length_skipn in Hshort. lia.
    + destruct (IH (skipn n (b :: bs))) as (out & Hout & Hsub & Hvalid & _).
      { rewrite length_skipn. lia. }
      exists out. split; [exact Hout|].
      split; [now apply subsequence_skipn in Hsub|].
      split; [exact Hvalid|]. right. split; [reflexivity|].
      apply subsequence_length in Hsub. rewrite length_skipn in Hsub. lia.
Qed.

(** ** Well-formed sequences *)

Ltac booleans :=
  repeat match goal with
         | H : _ && _ = true |- _ =>
             apply andb_true_iff in H; destruct H
         | H : _ || _ = true |- _ =>
             apply orb_true_iff in H; destruct H
         | H : _ || _ = false |- _ =>
             apply orb_false_iff in H; destruct H
         | H : negb _ = false |- _ => apply negb_false_iff in H
         | H : negb _ = true |- _ => apply negb_true_iff in H
         | H : (if ?c then _ else _) = _ |- _ => destruct c eqn:?
         | H : (_ <=? _)%N = true |- _ => apply N.leb_le in H
         | H : (_ <=? _)%N = false |- _ => apply N.leb_gt in H
         | H : (_ <? _)%N = true |- _ => apply N.ltb_lt in H
         | H : (_ <? _)%N = false |- _ => apply N.ltb_ge in H
         | H : (_ =? _)%N = true |- _ => apply N.eqb_eq in H
         | H : (_ =? _)%N = false |- _ => apply N.eqb_neq in H
         end.

Ltac compare :=
  repeat match goal with
         | |- context [(?a <=? ?b)%N] =>
             destruct (N.leb_spec a b); try lia
         | |- context [(?a <? ?b)%N] =>
             destruct (N.ltb_spec a b); try lia
         | |- context [(?a =? ?b)%N] =>
             destruct (N.eqb_spec a b); try lia
         end.

(** The decoder takes a well-formed sequence at the head of its input for
    what it is. *)
Lemma well_formed_scan (s rest : list byte) :
  well_formed s = true ->
  utf8_scan (s ++ rest) = Sequence (List.length s) /\ 1 <= List.length s.
Proof.
  destruct s as [|b1 [|b2 [|b3 [|b4 [|b5 s]]]]]; try discriminate;
    unfold well_formed, in_range; intros H; (split; [|cbn; lia]);
    cbn [app List.length]; unfold utf8_scan, continuation;
    booleans; compare; reflexivity.
Qed.

(** What the decoder takes for a sequence is well formed. *)
Lemma scan_well_formed (b : byte) (bs : list byte) (n : nat) :
  utf8_scan (b :: bs) = Sequence n ->
  well_formed (firstn n (b :: bs)) = true.
Proof.
  destruct bs as [|b2 [|b3 [|b4 rest]]]; unfold utf8_scan, continuation;
    repeat match goal with
           | |- context [if ?c then _ else _] => destruct c eqn:?
           end;
    intros [= <-]; cbn [firstn]; unfold well_formed, in_range;
    booleans; compare; reflexivity.
Qed.

(** No well-formed sequence starts where the decoder finds an error. *)
Lemma malformed_starts_no_sequence (b : byte) (bs : list byte) (n : nat) :
  utf8_scan (b :: bs) = Malformed n ->
  forall s more, well_formed s = true -> b :: bs <> s ++ more.
Proof.
  intros Hscan s more Hs Heq. rewrite Heq in Hscan.
  destruct (well_formed_scan s more Hs) as [Hseq _]. congruence.
Qed.

Lemma continuation_starts_no_sequence (b : byte) (bs : list byte) :
  continuation b = true ->
  forall s more, well_formed s = true -> b :: bs <> s ++ more.
Proof.
  intros Hb. apply (malformed_starts_no_sequence b bs 1).
  unfold continuation in Hb. unfold utf8_scan.
  booleans; compare; reflexivity.
Qed.

(** The range of an error is its first byte and the continuation bytes
    accepted after it. *)
Lemma malformed_range (b : byte) (bs : list byte) (n : nat) :
  utf8_scan (b :: bs) = Malformed n ->
  n = 1
  \/ (exists b2 rest,
         n = 2 /\ bs = b2 :: rest /\ continuation b2 = true)
  \/ (exists b2 b3 rest,
         n = 3 /\ bs = b2 :: b3 :: rest
         /\ continuation b2 = true /\ continuation b3 = true).
Proof.
  destruct bs as [|b2 [|b3 [|b4 rest]]]; unfold utf8_scan;
    repeat match goal with
           | |- context [if ?c then _ else _] => destruct c eqn:?
           end;
    intros [= <-]; auto; booleans;
    solve [ right; left; eauto | right; right; eauto 7 ].
Qed.

(** Leaving out the range of an error is leaving out, one by one, bytes
    at which no well-formed sequence starts. *)
Lemma Ignored_skip_malformed (b : byte) (bs out : list byte) (n : nat) :
  utf8_scan (b :: bs) = Malformed n ->
  Ignored (skipn n (b :: bs)) out ->
  Ignored (b :: bs) out.
Proof.
  intros Hscan Hrest.
  pose proof (malformed_starts_no_sequence b bs n Hscan) as Hb.
  destruct (malformed_range b bs n Hscan)
    as [-> | [(b2 & rest & -> & -> & H2)
             | (b2 & b3 & rest & -> & -> & H2 & H3)]];
    cbn [skipn] in Hrest.
  - now apply Ignored_drop.
  - apply Ignored_drop; [exact Hb|].
    apply Ignored_drop; [now apply continuation_starts_no_sequence|].
    exact Hrest.
  - apply Ignored_drop; [exact Hb|].
    apply Ignored_drop; [now apply continuation_starts_no_sequence|].
    apply Ignored_drop; [now apply continuation_starts_no_sequence|].
    exact Hrest.
Qed.

(** The decoder with [errors='ignore'] keeps the well-formed sequences
    and leaves out the other bytes. *)
Lemma decode_loop_ignored (steps : nat) :
  forall bs : list byte,
    List.length bs <= steps ->
    exists out, decode_loop Ignore steps bs = Ok out /\ Ignored bs out.
Proof.
  induction steps as [|steps IH]; intros bs Hlen.
  - destruct bs; [|simpl in Hlen; lia].
    exists []. split; [reflexivity|constructor].
  - destruct bs as [|b bs].
    { exists []. split; [reflexivity|constructor]. }
    pose proof (utf8_scan_bounds b bs) as Hbounds.
    cbn [decode_loop].
    destruct (utf8_scan (b :: bs)) as [n|n] eqn:Hscan; cbn [scan_length] in *.
    + destruct (IH (skipn n (b :: bs))) as (out & Hout & Hignored).
      { rewrite length_skipn. lia. }
      exists (firstn n (b :: bs) ++ out). rewrite Hout. cbn [bindE].
      split; [reflexivity|].
      rewrite <- (firstn_skipn n (b :: bs)) at 1.
      apply Ignored_keep; [now apply scan_well_formed|exact Hignored].
    + destruct (IH (skipn n (b :: bs))) as (out & Hout & Hignored).
      { rewrite length_skipn. lia. }
      exists out. split; [exact Hout|].
      now apply (Ignored_skip_malformed b bs out n).
Qed.

Lemma app_same_length {A : Type} (l1 l2 r1 r2 : list A) :
  List.length l1 = List.length l2 -> l1 ++ r1 = l2 ++ r2 ->
  l1 = l2 /\ r1 = r2.
Proof.
  revert l2; induction l1 as [|a l1 IH]; intros [|b l2]; cbn;
    try discriminate; [auto|].
  intros [= Hlen] [= -> Happ]. destruct (IH _ Hlen Happ) as [-> ->]. auto.
Qed.

(** [Ignored] leaves no choice: an input has one output. *)
Lemma Ignored_functional (bs out1 out2 : list byte) :
  Ignored bs out1 -> Ignored bs out2 -> out1 = out2.
Proof.
  intros H1. revert out2.
  induction H1 as [|s rest out Hs _ IH|b rest out Hb _ IH]; intros out2 H2.
  - remember [] as bs eqn:Hbs.
    destruct H2 as [|s' rest' out' Hs' _|b' rest' out' _ _];
      [reflexivity| |discriminate].
    destruct s'; [discriminate Hs'|discriminate Hbs].
  - remember (s ++ rest) as bs eqn:Hbs.
    destruct H2 as [|s' rest' out' Hs' H2|b' rest' out' Hb' _].
    + destruct s; [discriminate Hs|discriminate Hbs].
    + destruct (well_formed_scan s rest Hs) as [Hscan _].
      destruct (well_formed_scan s' rest' Hs') as [Hscan' _].
      rewrite <- Hbs, Hscan' in Hscan. injection Hscan as Hlen.
      destruct (app_same_length s' s rest' rest Hlen Hbs) as [-> ->].
      f_equal. now apply IH.
    + exfalso. exact (Hb' s rest Hs Hbs).
  - remember (b :: rest) as bs eqn:Hbs.
    destruct H2 as [|s' rest' out' Hs' _|b' rest' out' _ H2].
    + discriminate.
    + exfalso. exact (Hb s' rest' Hs' eq_refl).
    + injection Hbs as -> ->. now apply IH.
Qed.

Lemma string_of_list_byte_length (bs : list byte) :
  String.length (string_of_list_byte bs) = List.length bs.
Proof.
  unfold string_of_list_byte.
  induction bs as [|b bs IH]; simpl; [reflexivity|now rewrite IH].
Qed.

(** C9, as the code has it.  The payload is decoded with
    [errors='ignore']: decoding never raises and the packet goes on to the
    duplicate check with the decoded text.  The text is the payload read
    from left to right with every well-formed sequence kept as it stands
    and every other byte left out, nothing put in its place; so it is
    well-formed UTF-8, it is the whole payload when the payload is well
    formed, and it is shorter than the payload when it is not. *)
Theorem invalid_bytes_are_left_out :
  forall (bs : list byte) (packet : Packet) (d : Decoded),
  exists text,
    payload_text (PBytes bs) = Ok text
    /\ Ignored bs (list_byte_of_string text)
    /\ (forall other, Ignored bs other -> other = list_byte_of_string text)
    /\ subsequence (list_byte_of_string text) bs
    /\ bytes_decode Strict (list_byte_of_string text) = Ok text
    /\ ((bytes_decode Strict bs = Ok text /\ list_byte_of_string text = bs)
        \/ (bytes_decode Strict bs = Raise UnicodeDecodeError
            /\ String.length text < List.length bs))
    /\ (decoded packet = Some d ->
        portnum d = Some "TEXT_MESSAGE_APP" ->
        payload d = Some (PBytes bs) ->
        extract_text_message packet
        = Some {| tm_id := get (pkt_id packet) 0%Z;
                  tm_from := get (fromId packet) "unknown";
                  tm_to := get (toId packet) "unknown";
                  tm_text := text;
                  tm_channel := get (pkt_channel packet) 0%Z |}).
Proof.
  intros bs packet d.
  destruct (decode_loop_ignore (List.length bs) bs (le_n _))
    as (out & Hout & Hsub & Hvalid & Hin).
  destruct (decode_loop_ignored (List.length bs) bs (le_n _))
    as (out' & Hout' & Hignored).
  assert (out' = out) as -> by congruence.
  exists (string_of_list_byte out).
  assert (payload_text (PBytes bs) = Ok (string_of_list_byte out)) as Htext.
  { unfold payload_text, bytes_decode, utf8_decode. now rewrite Hout. }
  rewrite list_byte_of_string_of_list_byte.
  split; [exact Htext|]. split; [exact Hignored|].
  split; [intros other Hother; exact (Ignored_functional _ _ _ Hother Hignored)|].
  split; [exact Hsub|]. split; [|split].
  - unfold bytes_decode, utf8_decode. now rewrite Hvalid.
  - unfold bytes_decode, utf8_decode.
    destruct Hin as [[-> ->] | [-> Hshort]]; [left; auto|right].
    split; [reflexivity|]. now rewrite string_of_list_byte_length.
  - intros Hdecoded Hportnum Hpayload. unfold extract_text_message.
    rewrite Hdecoded, Hportnum, Hpayload. cbn [get].
    rewrite Htext. reflexivity.
Qed.

(* ================================================================== *)
(** * Properties of the router *)

Lemma nth_error_bump (idx j : nat) (f : RadioStats -> RadioStats)
    (rs : list RadioStats) :
  nth_error (bump idx f rs) j
  = if (j =? idx)%nat then option_map f (nth_error rs j)
    else nth_error rs j.
Proof.
  revert idx j; induction rs as [|r rs IH]; intros [|idx] [|j]; cbn;
    try reflexivity.
  - now destruct (j =? idx)%nat.
  - apply IH.
Qed.

Lemma bump_length (idx : nat) (f : RadioStats -> RadioStats)
    (rs : list RadioStats) :
  List.length (bump idx f rs) = List.length rs.
Proof.
  revert idx; induction rs as [|r rs IH]; intros [|idx]; cbn; auto.
Qed.

Section FanOut.
Variables (source_idx : nat) (text : string) (channel msg_id : Z).

Abbreviation run links idx b fwd :=
  (fan_out links idx source_idx text channel msg_id b fwd) (only parsing).

(** The loop as one equation per case. *)
Lemma fan_out_cons (interface : Link) (rest : list Link) (idx : nat)
    (b : Bridge) (fwd : bool) :
  run (interface :: rest) idx b fwd
  = if (idx =? source_idx)%nat then run rest (S idx) b fwd
    else match interface text channel with
         | Ok _ =>
             let b2 :=
               with_radio_stats (with_tracker b (mark msg_id (tracker b)))
                 (bump idx incr_sent (radio_stats b)) in
             if database_locked b then
               (b2,
                [SendText idx text channel (Ok tt);
                 TrackerMarkForwarded msg_id]
                  ++ when (metrics b) [MetricsSent idx; MetricsForwarded]
                  ++ [DatabaseMarkForwarded msg_id Blocks],
                true)
             else
               (fst (fst (run rest (S idx) b2 true)),
                [SendText idx text channel (Ok tt);
                 TrackerMarkForwarded msg_id]
                  ++ when (metrics b) [MetricsSent idx; MetricsForwarded]
                  ++ when (has_database b)
                       [DatabaseMarkForwarded msg_id Returns]
                  ++ snd (fst (run rest (S idx) b2 true)),
                snd (run rest (S idx) b2 true))
         | Raise e =>
             let b1 :=
               with_radio_stats b (bump idx incr_errors (radio_stats b)) in
             (fst (fst (run rest (S idx) b1 fwd)),
              [SendText idx text channel (Raise e)]
                ++ when (metrics b) [MetricsErrors idx; MetricsDropped]
                ++ snd (fst (run rest (S idx) b1 fwd)),
              snd (run rest (S idx) b1 fwd))
         end.
Proof.
  cbn [fan_out].
  destruct (idx =? source_idx)%nat; [reflexivity|].
  destruct (interface text channel) as [[]|e]; cbn zeta.
  - destruct (database_locked b); [reflexivity|].
    destruct (fan_out rest (S idx) _ _ _ _ _ _) as [[b3 calls] f'].
    reflexivity.
  - destruct (fan_out rest (S idx) _ _ _ _ _ _) as [[b3 calls] f'].
    reflexivity.
Qed.

(** The loop while the database's lock is free. *)
Lemma fan_out_cons_free (interface : Link) (rest : list Link) (idx : nat)
    (b : Bridge) (fwd : bool) :
  database_locked b = false ->
  run (interface :: rest) idx b fwd
  = if (idx =? source_idx)%nat then run rest (S idx) b fwd
    else match interface text channel with
         | Ok _ =>
             let b2 :=
               with_radio_stats (with_tracker b (mark msg_id (tracker b)))
                 (bump idx incr_sent (radio_stats b)) in
             (fst (fst (run rest (S idx) b2 true)),
              [SendText idx text channel (Ok tt);
               TrackerMarkForwarded msg_id]
                ++ when (metrics b) [MetricsSent idx; MetricsForwarded]
                ++ when (has_database b)
                     [DatabaseMarkForwarded msg_id Returns]
                ++ snd (fst (run rest (S idx) b2 true)),
              snd (run rest (S idx) b2 true))
         | Raise e =>
             let b1 :=
               with_radio_stats b (bump idx incr_errors (radio_stats b)) in
             (fst (fst (run rest (S idx) b1 fwd)),
              [SendText idx text channel (Raise e)]
                ++ when (metrics b) [MetricsErrors idx; MetricsDropped]
                ++ snd (fst (run rest (S idx) b1 fwd)),
              snd (run rest (S idx) b1 fwd))
         end.
Proof. intros Hfree. rewrite fan_out_cons. now rewrite Hfree. Qed.

Ltac fan_out_step IH Hfree interface idx :=
  rewrite (fan_out_cons_free _ _ _ _ _ Hfree);
  destruct (idx =? source_idx)%nat eqn:Hsource;
  [ try rewrite IH by exact Hfree
  | destruct (interface text channel) as [[]|?] eqn:Hcall; cbn zeta;
    cbn [fst snd]; try rewrite IH by exact Hfree ].

(** The loop touches the tracker and the statistics only. *)
Lemma fan_out_frame (links : list Link) :
  forall (idx : nat) (b : Bridge) (fwd : bool),
    let b' := fst (fst (run links idx b fwd)) in
    interfaces b' = interfaces b
    /\ message_filter b' = message_filter b
    /\ (metrics b', database b', mqtt b', web b')
       = (metrics b, database b, mqtt b, web b)
    /\ List.length (radio_stats b') = List.length (radio_stats b).
Proof.
  induction links as [|interface rest IH]; intros idx b fwd; [now cbn|].
  cbn zeta. rewrite fan_out_cons.
  destruct (idx =? source_idx)%nat; [apply IH|].
  destruct (interface text channel) as [[]|e]; cbn zeta;
    [destruct (database_locked b);
     [cbn; rewrite bump_length; auto|]|];
    cbn [fst snd];
    match goal with
    | |- context [fan_out rest (S idx) _ _ _ _ ?b2 ?f] =>
        destruct (IH (S idx) b2 f) as (-> & -> & -> & ->)
    end; cbn; rewrite bump_length; auto.
Qed.

Lemma link_at_shift (interface : Link) (rest : list Link) (idx j : nat) :
  S idx <= j ->
  link_at (interface :: rest) (j - idx) = link_at rest (j - S idx).
Proof.
  intros Hj. unfold link_at.
  replace (j - idx) with (S (j - S idx)) by lia. reflexivity.
Qed.

(** With the lock free, every radio but the source is tried once, in
    registration order, and each try ends as that radio's [sendText]
    ends. *)
Lemma fan_out_sends (links : list Link) :
  forall (idx : nat) (b : Bridge) (fwd : bool),
    database_locked b = false ->
    filter is_send (snd (fst (run links idx b fwd)))
    = map (fun j => SendText j text channel
                      (link_at links (j - idx) text channel))
          (filter (fun j => negb (j =? source_idx)%nat)
                  (seq idx (List.length links))).
Proof.
  induction links as [|interface rest IH]; intros idx b fwd Hfree;
    [reflexivity|].
  assert (forall p,
             map (fun j => SendText j text channel
                             (link_at (interface :: rest) (j - idx)
                                      text channel))
                 (filter p (seq (S idx) (List.length rest)))
             = map (fun j => SendText j text channel
                               (link_at rest (j - S idx) text channel))
                   (filter p (seq (S idx) (List.length rest)))) as Hshift.
  { intros p. apply map_ext_in. intros j Hj.
    apply filter_In in Hj. destruct Hj as [Hj _]. apply in_seq in Hj.
    rewrite link_at_shift by lia. reflexivity. }
  cbn [List.length seq filter].
  fan_out_step IH Hfree interface idx; cbn [negb map]; rewrite ?Hshift;
    try reflexivity.
  - destruct (metrics b), (has_database b); cbn;
      rewrite IH by exact Hfree; rewrite Nat.sub_diag;
      unfold link_at at 1; cbn [nth];
      match goal with H : interface text channel = _ |- _ => rewrite H end;
      reflexivity.
  - destruct (metrics b); cbn; rewrite IH by exact Hfree;
      rewrite Nat.sub_diag;
      unfold link_at at 1; cbn [nth];
      match goal with H : interface text channel = _ |- _ => rewrite H end;
      reflexivity.
Qed.

(** With the lock free, every call of the loop returns. *)
Lemma fan_out_returns (links : list Link) :
  forall (idx : nat) (b : Bridge) (fwd : bool),
    database_locked b = false ->
    existsb blocks (snd (fst (run links idx b fwd))) = false.
Proof.
  induction links as [|interface rest IH]; intros idx b fwd Hfree;
    [reflexivity|].
  fan_out_step IH Hfree interface idx; try reflexivity.
  - rewrite !existsb_app, IH by exact Hfree.
    now destruct (metrics b), (has_database b).
  - rewrite !existsb_app, IH by exact Hfree. now destruct (metrics b).
Qed.

(** No call of the loop is made on the source. *)
Lemma fan_out_avoids_source (links : list Link) :
  forall (idx : nat) (b : Bridge) (fwd : bool),
    Forall (fun e => send_target e <> Some source_idx)
           (snd (fst (run links idx b fwd))).
Proof.
  induction links as [|interface rest IH]; intros idx b fwd; [constructor|].
  rewrite fan_out_cons.
  destruct (idx =? source_idx)%nat eqn:Hsource; [apply IH|].
  apply Nat.eqb_neq in Hsource.
  assert (forall c calls,
             Forall (fun e => send_target e <> Some source_idx) calls ->
             Forall (fun e => send_target e <> Some source_idx)
                    (when c calls)) as Hwhen.
  { intros [|] calls H; [exact H|constructor]. }
  destruct (interface text channel) as [[]|e]; cbn zeta;
    [destruct (database_locked b)|]; cbn [fst snd];
    repeat (apply Forall_app; split); try apply Hwhen; try apply IH;
    repeat constructor; cbn; congruence.
Qed.

(** The tracker is told once per [sendText] call that returned. *)
Lemma fan_out_marks (links : list Link) :
  forall (idx : nat) (b : Bridge) (fwd : bool),
    let calls := snd (fst (run links idx b fwd)) in
    List.length (filter (is_mark_forwarded msg_id) calls)
    = List.length (filter is_delivery calls)
    /\ tracker (fst (fst (run links idx b fwd)))
       = Nat.iter (List.length (filter is_delivery calls)) (mark msg_id)
                  (tracker b)
    /\ snd (run links idx b fwd)
       = fwd || (0 <? List.length (filter is_delivery calls))%nat.
Proof.
  induction links as [|interface rest IH]; intros idx b fwd.
  { cbn. now rewrite orb_false_r. }
  cbn zeta. rewrite fan_out_cons.
  destruct (idx =? source_idx)%nat; [apply IH|].
  destruct (interface text channel) as [[]|e]; cbn zeta;
    [destruct (database_locked b)|]; cbn [fst snd].
  - destruct (metrics b); cbn; rewrite Z.eqb_refl, orb_true_r; auto.
  - destruct (IH (S idx)
                 (with_radio_stats (with_tracker b (mark msg_id (tracker b)))
                    (bump idx incr_sent (radio_stats b))) true)
      as (Hmarks & Htracker & Hfwd).
    rewrite Htracker, Hfwd.
    destruct (metrics b), (has_database b);
      cbn [when app filter is_mark_forwarded is_delivery List.length
           tracker with_radio_stats with_tracker];
      rewrite Z.eqb_refl; cbn [List.length];
      rewrite Hmarks, Nat.iter_succ_r, orb_true_r; auto.
  - destruct (IH (S idx)
                 (with_radio_stats b (bump idx incr_errors (radio_stats b)))
                 fwd)
      as (Hmarks & Htracker & Hfwd).
    rewrite Htracker, Hfwd.
    destruct (metrics b);
      cbn [when app filter is_mark_forwarded is_delivery List.length
           tracker with_radio_stats with_tracker];
      rewrite Hmarks; auto.
Qed.

(** With the lock free, each radio that was tried is charged with its own
    outcome: a call that returned as a message sent, a call that raised as
    an error. *)
Lemma fan_out_stats (links : list Link) :
  forall (idx : nat) (b : Bridge) (fwd : bool) (j : nat),
    database_locked b = false ->
    nth_error (radio_stats (fst (fst (run links idx b fwd)))) j
    = option_map
        (fun r =>
           if (idx <=? j)%nat && (j <? idx + List.length links)%nat
              && negb (j =? source_idx)%nat
           then match link_at links (j - idx) text channel with
                | Ok _ => incr_sent r
                | Raise _ => incr_errors r
                end
           else r)
        (nth_error (radio_stats b) j).
Proof.
  induction links as [|interface rest IH]; intros idx b fwd j Hfree.
  { cbn [fan_out fst snd List.length].
    replace ((idx <=? j)%nat && (j <? idx + 0)%nat) with false
      by (symmetry; apply andb_false_iff;
          destruct (Nat.leb_spec idx j); [right|left]; auto;
          apply Nat.ltb_ge; lia).
    cbn. now destruct (nth_error (radio_stats b) j). }
  cbn [List.length].
  fan_out_step IH Hfree interface idx; cbn [radio_stats with_radio_stats];
    rewrite ?nth_error_bump;
    destruct (nth_error (radio_stats b) j) as [r|]; cbn [option_map];
    try (now destruct (j =? idx)%nat); f_equal.
  - (* the source itself *)
    apply Nat.eqb_eq in Hsource. subst idx.
    destruct (Nat.eq_dec j source_idx) as [->|Hne].
    + rewrite Nat.eqb_refl, !andb_false_r. reflexivity.
    + destruct (Nat.leb_spec source_idx j), (Nat.leb_spec (S source_idx) j);
        try lia; cbn [andb]; try reflexivity.
      rewrite link_at_shift by lia.
      replace (j <? source_idx + S (List.length rest))%nat
        with (j <? S source_idx + List.length rest)%nat
        by (f_equal; lia).
      reflexivity.
  - (* a call that returned *)
    destruct (Nat.eqb_spec j idx) as [->|Hne]; cbn [option_map].
    + rewrite Nat.leb_refl, Nat.sub_diag, Hsource.
      replace (S idx <=? idx)%nat with false
        by (symmetry; apply Nat.leb_gt; lia).
      replace (idx <? idx + S (List.length rest))%nat with true
        by (symmetry; apply Nat.ltb_lt; lia).
      cbn. unfold link_at; cbn [nth]. now rewrite Hcall.
    + destruct (Nat.leb_spec idx j), (Nat.leb_spec (S idx) j);
        try lia; cbn [andb]; try reflexivity.
      rewrite link_at_shift by lia.
      replace (j <? idx + S (List.length rest))%nat
        with (j <? S idx + List.length rest)%nat by (f_equal; lia).
      reflexivity.
  - (* a call that raised *)
    destruct (Nat.eqb_spec j idx) as [->|Hne]; cbn [option_map].
    + rewrite Nat.leb_refl, Nat.sub_diag, Hsource.
      replace (S idx <=? idx)%nat with false
        by (symmetry; apply Nat.leb_gt; lia).
      replace (idx <? idx + S (List.length rest))%nat with true
        by (symmetry; apply Nat.ltb_lt; lia).
      cbn. unfold link_at; cbn [nth]. now rewrite Hcall.
    + destruct (Nat.leb_spec idx j), (Nat.leb_spec (S idx) j);
        try lia; cbn [andb]; try reflexivity.
      rewrite link_at_shift by lia.
      replace (j <? idx + S (List.length rest))%nat
        with (j <? S idx + List.length rest)%nat by (f_equal; lia).
      reflexivity.
Qed.

End FanOut.

(** ** The tracker *)

Lemma fold_min_spec (zs : list Z) (z : Z) :
  let m := fold_left Z.min zs z in
  (m <= z)%Z /\ Forall (fun x => (m <= x)%Z) zs /\ In m (z :: zs).
Proof.
  revert z; induction zs as [|x zs IH]; intros z; cbn.
  - split; [lia|]. split; [constructor|auto].
  - destruct (IH (Z.min z x)) as (Hle & Hall & Hin). cbn zeta in *.
    split; [lia|]. split.
    + constructor; [lia|exact Hall].
    + destruct Hin as [Hin|Hin]; [|tauto].
      destruct (Z.min_spec z x) as [[_ Hmin]|[_ Hmin]];
        rewrite Hmin in *; tauto.
Qed.

Lemma remove_first_seen_at_app (at_ : Z) (kept rest : list TrackedEntry) :
  (exists e, In e kept /\ firstSeenAt e = at_) ->
  remove_first_seen_at at_ (kept ++ rest)
  = remove_first_seen_at at_ kept ++ rest
  /\ S (List.length (remove_first_seen_at at_ kept)) = List.length kept
  /\ (forall P : TrackedEntry -> Prop,
        Forall P kept -> Forall P (remove_first_seen_at at_ kept)).
Proof.
  induction kept as [|e kept IH]; intros (x & Hin & Hx); [destruct Hin|].
  cbn [app remove_first_seen_at].
  destruct (firstSeenAt e =? at_)%Z eqn:He.
  - split; [reflexivity|]. split; [reflexivity|].
    intros P HP. now inversion HP.
  - destruct Hin as [->|Hin]; [apply Z.eqb_neq in He; congruence|].
    destruct IH as (Happ & Hlen & Hall); [eauto|].
    cbn [app List.length]. rewrite Happ, Hlen.
    split; [reflexivity|]. split; [reflexivity|].
    intros P HP. inversion HP; subst. constructor; auto.
Qed.

Section Recording.
Variables (now id : Z) (fresh : TrackedEntry).
Hypothesis fresh_now : firstSeenAt fresh = now.
Hypothesis fresh_id : entry_id fresh = id.

Lemma remove_oldest_keeps_fresh (es : list TrackedEntry) :
  ends_with_fresh now id fresh es -> 2 <= List.length es ->
  ends_with_fresh now id fresh (remove_oldest es)
  /\ S (List.length (remove_oldest es)) = List.length es.
Proof.
  intros (kept & -> & Hkept) Hlen.
  destruct kept as [|e kept]; [cbn in Hlen; lia|].
  unfold remove_oldest. cbn [app].
  set (m := fold_left Z.min (map firstSeenAt (kept ++ [fresh]))
                      (firstSeenAt e)).
  destruct (fold_min_spec (map firstSeenAt (kept ++ [fresh]))
                          (firstSeenAt e)) as (Hle & Hall & Hin).
  fold m in Hle, Hall, Hin.
  assert (exists x, In x (e :: kept) /\ firstSeenAt x = m) as Hfound.
  { destruct Hin as [Hin|Hin]; [exists e; cbn; auto|].
    rewrite map_app, in_app_iff in Hin. destruct Hin as [Hin|Hin].
    - apply in_map_iff in Hin. destruct Hin as (x & Hx & Hin).
      exists x. cbn; auto.
    - exists e. split; [cbn; auto|].
      cbn in Hin. destruct Hin as [Hin|[]].
      inversion Hkept as [|? ? [He _] _]; subst. lia. }
  change (e :: kept ++ [fresh]) with ((e :: kept) ++ [fresh]).
  destruct (remove_first_seen_at_app m (e :: kept) [fresh] Hfound)
    as (-> & Hlen' & Hforall).
  split.
  - eexists; split; [reflexivity|]. now apply Hforall.
  - rewrite !length_app, <- Hlen'. cbn. lia.
Qed.

Lemma remove_oldest_times_keeps_fresh (n : nat) :
  forall es,
    ends_with_fresh now id fresh es -> S n <= List.length es ->
    ends_with_fresh now id fresh (remove_oldest_times n es).
Proof.
  induction n as [|n IH]; intros es Hes Hlen; [exact Hes|].
  cbn [remove_oldest_times].
  destruct (remove_oldest_keeps_fresh es Hes) as (Hes' & Hlen'); [lia|].
  apply IH; [exact Hes'|lia].
Qed.

Lemma ends_with_fresh_found (es : list TrackedEntry) :
  ends_with_fresh now id fresh es ->
  find (fun e => (entry_id e =? id)%Z) es = Some fresh.
Proof.
  intros (kept & -> & Hkept).
  induction Hkept as [|e kept [_ He] _ IH]; cbn [app find].
  - now rewrite fresh_id, Z.eqb_refl.
  - apply Z.eqb_neq in He. now rewrite He.
Qed.

End Recording.

Lemma has_seen_false_find (t : MessageTracker) (now id : Z) :
  has_seen t now id = false ->
  find (fun e => (entry_id e =? id)%Z && live t now e) (entries t) = None
  /\ Forall (fun e => entry_id e <> id) (filter (live t now) (entries t)).
Proof.
  unfold has_seen. induction (entries t) as [|e es IH]; cbn.
  - split; [reflexivity|constructor].
  - rewrite orb_false_iff. intros [He Hes]. rewrite He.
    destruct (IH Hes) as [Hfind Hall]. split; [exact Hfind|].
    destruct (live t now e); [|exact Hall].
    constructor; [|exact Hall].
    rewrite andb_true_r in He. now apply Z.eqb_neq.
Qed.

(** A fresh id is recorded: with room for one entry and a clock that does
    not run backwards, the tracker holds the new entry, not forwarded. *)
Lemma add_message_tracks (t : MessageTracker) (now id : Z)
    (from_node to_node text : string) (channel : Z) :
  has_seen t now id = false ->
  1 <= maxMessages t ->
  Forall (fun e => (firstSeenAt e <= now)%Z) (entries t) ->
  let fresh :=
    {| entry_id := id; entry_from := from_node; entry_to := to_node;
       entry_text := text; entry_channel := channel; firstSeenAt := now;
       forwarded := false; forwardCount := 0 |} in
  add_message t now id from_node to_node text channel
  = ({| entries :=
          evict (maxMessages t) (filter (live t now) (entries t) ++ [fresh]);
        maxAge := maxAge t; maxMessages := maxMessages t;
        totalRecorded := S (totalRecorded t);
        totalForwarded := totalForwarded t |}, fresh)
  /\ tracked (fst (add_message t now id from_node to_node text channel)) id
     = Some fresh.
Proof.
  intros Hseen Hroom Hclock fresh.
  destruct (has_seen_false_find t now id Hseen) as [Hfind Hother].
  unfold add_message. rewrite Hfind. split; [reflexivity|].
  unfold tracked; cbn [fst entries].
  apply (ends_with_fresh_found now id fresh); [reflexivity|].
  unfold evict.
  apply remove_oldest_times_keeps_fresh; [reflexivity|reflexivity| |].
  - exists (filter (live t now) (entries t)). split; [reflexivity|].
    rewrite Forall_forall in *. intros e He. split; [|now apply Hother].
    apply filter_In in He. now apply Hclock.
  - rewrite length_app. cbn. lia.
Qed.

Lemma mark_entry_found (id : Z) (es : list TrackedEntry) :
  match find (fun e => (entry_id e =? id)%Z) es with
  | Some e =>
      exists es', mark_entry id es = Some es'
                  /\ find (fun e => (entry_id e =? id)%Z) es'
                     = Some (set_forwarded e)
  | None => mark_entry id es = None
  end.
Proof.
  induction es as [|e es IH]; cbn [find mark_entry]; [reflexivity|].
  destruct (entry_id e =? id)%Z eqn:He.
  - eexists; split; [reflexivity|]. cbn [find set_forwarded entry_id].
    now rewrite He.
  - destruct (find _ es) as [x|].
    + destruct IH as (es' & -> & Hfind). eexists; split; [reflexivity|].
      cbn [find]. now rewrite He.
    + now rewrite IH.
Qed.

Lemma tracked_mark (id : Z) (t : MessageTracker) :
  tracked (mark id t) id = option_map set_forwarded (tracked t id)
  /\ maxAge (mark id t) = maxAge t.
Proof.
  unfold tracked, mark, mark_forwarded.
  pose proof (mark_entry_found id (entries t)) as H.
  destruct (find _ (entries t)) as [e|] eqn:Hnone.
  - destruct H as (es' & -> & Hfind). cbn. now rewrite Hfind.
  - rewrite H. cbn. now rewrite Hnone.
Qed.

Lemma tracked_iter_mark (id : Z) (k : nat) (t : MessageTracker) :
  tracked (Nat.iter k (mark id) t) id
  = option_map (Nat.iter k set_forwarded) (tracked t id)
  /\ maxAge (Nat.iter k (mark id) t) = maxAge t.
Proof.
  induction k as [|k [IHt IHa]]; [|rewrite Nat.iter_succ].
  - cbn. split; [|reflexivity]. now destruct (tracked t id).
  - destruct (tracked_mark id (Nat.iter k (mark id) t)) as [-> ->].
    rewrite IHt. split; [|exact IHa]. now destruct (tracked t id).
Qed.

Lemma iter_set_forwarded (k : nat) (e : TrackedEntry) :
  let e' := Nat.iter k set_forwarded e in
  forwarded e' = (forwarded e || (0 <? k)%nat)
  /\ forwardCount e' = k + forwardCount e
  /\ entry_id e' = entry_id e
  /\ firstSeenAt e' = firstSeenAt e.
Proof.
  cbn zeta. induction k as [|k IH]; [|rewrite Nat.iter_succ].
  - cbn. now rewrite orb_false_r.
  - destruct IH as (_ & Hcount & Hid & Hfirst).
    cbn [set_forwarded forwarded forwardCount entry_id firstSeenAt].
    rewrite Hcount, Hid, Hfirst, orb_true_r. auto.
Qed.

Lemma tracked_has_seen (t : MessageTracker) (now id : Z) (e : TrackedEntry) :
  tracked t id = Some e -> live t now e = true -> has_seen t now id = true.
Proof.
  unfold tracked, has_seen. intros Hfind Hlive.
  apply find_some in Hfind. destruct Hfind as [Hin Hid].
  apply existsb_exists. exists e. now rewrite Hid, Hlive.
Qed.

(** ** A routing pass *)

Lemma filter_delivery_sends (calls : list Event) :
  filter is_delivery calls = filter is_delivery (filter is_send calls).
Proof.
  induction calls as [|e calls IH]; [reflexivity|].
  destruct e as [target text channel [u|x]| | | | | | | | | | | | | |];
    cbn; now rewrite <- ?IH.
Qed.

Lemma deliveries_of_attempts (links : list Link) (source_idx : nat)
    (text : string) (channel : Z) :
  filter is_delivery (attempts links source_idx text channel)
  = map (fun j => SendText j text channel (Ok tt))
        (delivered links source_idx text channel).
Proof.
  unfold attempts, delivered.
  induction (targets (List.length links) source_idx) as [|j js IH];
    [reflexivity|].
  cbn [map filter is_delivery].
  destruct (link_at links j text channel) as [[]|e]; cbn [map];
    now rewrite IH.
Qed.

Lemma when_nil (c : bool) : when c [] = [].
Proof. now destruct c. Qed.

Lemma filter_when (p : Event -> bool) (c : bool) (calls : list Event) :
  filter p (when c calls) = when c (filter p calls).
Proof. now destruct c. Qed.

Lemma with_database_self (b : Bridge) : with_database b (database b) = b.
Proof. now destruct b. Qed.

(** Saving the message when [add_message] comes back: the database is as
    it was, its lock free. *)
Lemma save_message_returns (b : Bridge) (tm : TextMessage)
    (source_idx : nat) :
  database_returns b (tm_id tm) = true ->
  save_message b tm source_idx
  = (b,
     when (has_database b)
       [DatabaseAddMessage (tm_id tm) (tm_from tm) (tm_to tm) (tm_text tm)
                           (tm_channel tm) source_idx Returns],
     Returns)
  /\ database_locked b = false.
Proof.
  unfold database_returns, save_message, has_database, database_locked.
  destruct (database b) as [db|] eqn:Hdb; [|auto].
  unfold DatabaseManager.add_message.
  destruct (DatabaseManager.lock_held db); [discriminate|].
  destruct (DatabaseManager.insert db (tm_id tm)); [discriminate|].
  intros _. cbn [fst when]. rewrite <- Hdb, with_database_self. auto.
Qed.

(** Saving the message when [add_message] does not come back: the lock is
    held from then on. *)
Lemma save_message_blocks (b : Bridge) (tm : TextMessage)
    (source_idx : nat) :
  database_returns b (tm_id tm) = false ->
  exists db,
    save_message b tm source_idx
    = (with_database b (Some db),
       [DatabaseAddMessage (tm_id tm) (tm_from tm) (tm_to tm) (tm_text tm)
                           (tm_channel tm) source_idx Blocks],
       Blocks)
    /\ DatabaseManager.lock_held db = true.
Proof.
  unfold database_returns, save_message.
  destruct (database b) as [db|]; [|discriminate].
  unfold DatabaseManager.add_message.
  destruct (DatabaseManager.lock_held db) eqn:Hlock.
  - intros _. exists db. auto.
  - destruct (DatabaseManager.insert db (tm_id tm)); [|discriminate].
    intros _. exists (DatabaseManager.acquired db). auto.
Qed.

(** The part of a pass that records and forwards, when saving the message
    returns. *)
Lemma record_and_forward_eq (b : Bridge) (now : Z) (tm : TextMessage)
    (source_idx : nat) :
  database_returns b (tm_id tm) = true ->
  let added :=
    add_message (tracker b) now (tm_id tm) (tm_from tm) (tm_to tm)
                (tm_text tm) (tm_channel tm) in
  let b1 :=
    with_radio_stats (with_tracker b (fst added))
      (bump source_idx incr_received (radio_stats b)) in
  let loop :=
    fan_out (interfaces b) 0 source_idx (tm_text tm) (tm_channel tm)
            (tm_id tm) b1 false in
  record_and_forward b now tm source_idx
  = (fst (fst loop),
     [TrackerAddMessage (tm_id tm)]
       ++ when (metrics b)
            [MetricsReceived source_idx; MetricsNodeMessages (tm_from tm)]
       ++ when (has_database b)
            [DatabaseAddMessage (tm_id tm) (tm_from tm) (tm_to tm)
                                (tm_text tm) (tm_channel tm) source_idx
                                Returns]
       ++ when (mqtt b) [MqttPublish (snd added)]
       ++ when (web b) [WebBroadcast (snd added)]
       ++ snd (fst loop)
       ++ when (metrics b) [MetricsProcessingTime])
  /\ database_locked b1 = false.
Proof.
  intros Hreturns. cbn zeta. unfold record_and_forward.
  destruct (add_message _ _ _ _ _ _ _) as [t entry].
  cbn [fst snd].
  set (b1 := with_radio_stats _ _).
  destruct (save_message_returns b1 tm source_idx Hreturns)
    as [Hsaved Hfree].
  rewrite Hsaved.
  pose proof (fan_out_returns source_idx (tm_text tm) (tm_channel tm)
                (tm_id tm) (interfaces b1) 0 b1 false Hfree) as Hloop.
  change (interfaces b1) with (interfaces b) in *.
  destruct (fan_out _ _ _ _ _ _ _ _) as [[b2 calls] fwd].
  cbn [fst snd] in *. rewrite Hloop.
  split; [|exact Hfree]. rewrite <- !app_assoc. reflexivity.
Qed.

(** The same part when saving the message does not return: the pass ends
    at that call, the message recorded and counted as received, nothing
    sent. *)
Lemma record_and_forward_blocked (b : Bridge) (now : Z) (tm : TextMessage)
    (source_idx : nat) :
  database_returns b (tm_id tm) = false ->
  let added :=
    add_message (tracker b) now (tm_id tm) (tm_from tm) (tm_to tm)
                (tm_text tm) (tm_channel tm) in
  let b1 :=
    with_radio_stats (with_tracker b (fst added))
      (bump source_idx incr_received (radio_stats b)) in
  exists db,
    record_and_forward b now tm source_idx
    = (with_database b1 (Some db),
       [TrackerAddMessage (tm_id tm)]
         ++ when (metrics b)
              [MetricsReceived source_idx; MetricsNodeMessages (tm_from tm)]
         ++ [DatabaseAddMessage (tm_id tm) (tm_from tm) (tm_to tm)
                                (tm_text tm) (tm_channel tm) source_idx
                                Blocks])
    /\ DatabaseManager.lock_held db = true.
Proof.
  intros Hblocks. cbn zeta. unfold record_and_forward.
  destruct (add_message _ _ _ _ _ _ _) as [t entry].
  cbn [fst snd].
  set (b1 := with_radio_stats _ _).
  destruct (save_message_blocks b1 tm source_idx Hblocks)
    as (db & Hsaved & Hlock).
  rewrite Hsaved. exists db. split; [|exact Hlock].
  rewrite <- !app_assoc. reflexivity.
Qed.

(** What the part that records and forwards does when saving the message
    returns: the calls on the radios, the calls on the tracker, the
    tracker and the statistics it leaves. *)
Lemma record_and_forward_spec (b : Bridge) (now : Z) (tm : TextMessage)
    (source_idx : nat) :
  database_returns b (tm_id tm) = true ->
  let pass := record_and_forward b now tm source_idx in
  let links := interfaces b in
  let took :=
    List.length (delivered links source_idx (tm_text tm) (tm_channel tm)) in
  filter is_send (snd pass)
  = attempts links source_idx (tm_text tm) (tm_channel tm)
  /\ List.length (filter (is_mark_forwarded (tm_id tm)) (snd pass)) = took
  /\ tracker (fst pass)
     = Nat.iter took (mark (tm_id tm))
         (fst (add_message (tracker b) now (tm_id tm) (tm_from tm)
                           (tm_to tm) (tm_text tm) (tm_channel tm)))
  /\ (forall j,
        nth_error (radio_stats (fst pass)) j
        = option_map
            (fun r => if (j =? source_idx)%nat then incr_received r
                      else settle links source_idx (tm_text tm)
                                  (tm_channel tm) j r)
            (nth_error (radio_stats b) j))
  /\ interfaces (fst pass) = links
  /\ message_filter (fst pass) = message_filter b.
Proof.
  intros Hreturns. cbn zeta.
  destruct (record_and_forward_eq b now tm source_idx Hreturns)
    as [-> Hfree].
  cbn zeta. cbn [fst snd].
  set (added := add_message _ _ _ _ _ _ _) in *.
  set (b1 := with_radio_stats _ _) in *.
  pose proof (fan_out_sends source_idx (tm_text tm) (tm_channel tm)
                (tm_id tm) (interfaces b) 0 b1 false Hfree) as Hsends.
  destruct (fan_out_marks source_idx (tm_text tm) (tm_channel tm)
              (tm_id tm) (interfaces b) 0 b1 false)
    as (Hmarks & Htracker & _).
  pose proof (fun j =>
                fan_out_stats source_idx (tm_text tm) (tm_channel tm)
                  (tm_id tm) (interfaces b) 0 b1 false j Hfree) as Hstats.
  destruct (fan_out_frame source_idx (tm_text tm) (tm_channel tm)
              (tm_id tm) (interfaces b) 0 b1 false)
    as (Hlinks & Hfilter & _).
  set (loop := fan_out _ _ _ _ _ _ _ _) in *.
  assert (filter is_send (snd (fst loop))
          = attempts (interfaces b) source_idx (tm_text tm) (tm_channel tm))
    as Hattempts.
  { rewrite Hsends. unfold attempts, targets. apply map_ext. intros j.
    now rewrite Nat.sub_0_r. }
  assert (List.length (filter is_delivery (snd (fst loop)))
          = List.length (delivered (interfaces b) source_idx (tm_text tm)
                                   (tm_channel tm))) as Htook.
  { rewrite filter_delivery_sends, Hattempts, deliveries_of_attempts.
    apply length_map. }
  split; [|split; [|split; [|split; [|split]]]].
  - rewrite !filter_app, !filter_when. cbn [filter is_send].
    now rewrite !when_nil, Hattempts, app_nil_r.
  - rewrite !filter_app, !filter_when. cbn [filter is_mark_forwarded].
    rewrite !when_nil, app_nil_r. cbn [app]. now rewrite Hmarks.
  - rewrite Htracker, Htook. reflexivity.
  - intros j. rewrite Hstats. subst b1.
    cbn [radio_stats with_radio_stats]. rewrite nth_error_bump.
    unfold settle. cbn [Nat.leb Nat.add]. rewrite Nat.sub_0_r.
    destruct (Nat.eqb_spec j source_idx) as [->|Hne].
    + cbn [negb]. rewrite andb_false_r.
      now destruct (nth_error (radio_stats b) source_idx).
    + now destruct (nth_error (radio_stats b) j).
  - exact Hlinks.
  - exact Hfilter.
Qed.

(** Whether saving the message returns or not: the tracker is told once
    per [sendText] call that returned, and no call goes to the source. *)
Lemma record_and_forward_marks (b : Bridge) (now : Z) (tm : TextMessage)
    (source_idx : nat) :
  let pass := record_and_forward b now tm source_idx in
  let took := List.length (filter is_delivery (snd pass)) in
  List.length (filter (is_mark_forwarded (tm_id tm)) (snd pass)) = took
  /\ tracker (fst pass)
     = Nat.iter took (mark (tm_id tm))
         (fst (add_message (tracker b) now (tm_id tm) (tm_from tm)
                           (tm_to tm) (tm_text tm) (tm_channel tm)))
  /\ Forall (fun e => send_target e <> Some source_idx) (snd pass)
  /\ (database_returns b (tm_id tm) = false ->
      filter is_send (snd pass) = []).
Proof.
  cbn zeta. destruct (database_returns b (tm_id tm)) eqn:Hreturns.
  - destruct (record_and_forward_eq b now tm source_idx Hreturns)
      as [-> _].
    cbn zeta. cbn [fst snd].
    set (b1 := with_radio_stats _ _).
    destruct (fan_out_marks source_idx (tm_text tm) (tm_channel tm)
                (tm_id tm) (interfaces b) 0 b1 false)
      as (Hmarks & Htracker & _).
    pose proof (fan_out_avoids_source source_idx (tm_text tm)
                  (tm_channel tm) (tm_id tm) (interfaces b) 0 b1 false)
      as Havoid.
    set (loop := fan_out _ _ _ _ _ _ _ _) in *.
    assert (forall p : Event -> bool,
               p (TrackerAddMessage (tm_id tm)) = false ->
               (forall r n, p (MetricsReceived r) = false
                            /\ p (MetricsNodeMessages n) = false) ->
               (forall i f t x c s e,
                   p (DatabaseAddMessage i f t x c s e) = false) ->
               (forall e, p (MqttPublish e) = false
                          /\ p (WebBroadcast e) = false) ->
               p MetricsProcessingTime = false ->
               filter p
                 ([TrackerAddMessage (tm_id tm)]
                    ++ when (metrics b)
                         [MetricsReceived source_idx;
                          MetricsNodeMessages (tm_from tm)]
                    ++ when (has_database b)
                         [DatabaseAddMessage (tm_id tm) (tm_from tm)
                            (tm_to tm) (tm_text tm) (tm_channel tm)
                            source_idx Returns]
                    ++ when (mqtt b)
                         [MqttPublish
                            (snd (add_message (tracker b) now (tm_id tm)
                                    (tm_from tm) (tm_to tm) (tm_text tm)
                                    (tm_channel tm)))]
                    ++ when (web b)
                         [WebBroadcast
                            (snd (add_message (tracker b) now (tm_id tm)
                                    (tm_from tm) (tm_to tm) (tm_text tm)
                                    (tm_channel tm)))]
                    ++ snd (fst loop)
                    ++ when (metrics b) [MetricsProcessingTime])
               = filter p (snd (fst loop))) as Hfilter.
    { intros p H1 H2 H3 H4 H5.
      rewrite !filter_app, !filter_when. cbn [filter].
      rewrite H1, H3, H5, (proj1 (H2 _ "")), (proj2 (H2 0 _)),
        (proj1 (H4 _)), (proj2 (H4 _)).
      now rewrite !when_nil, app_nil_r. }
    rewrite !Hfilter by (intros; auto).
    split; [exact Hmarks|]. split; [exact Htracker|].
    split; [|discriminate].
    assert (forall c calls,
               Forall (fun e => send_target e <> Some source_idx) calls ->
               Forall (fun e => send_target e <> Some source_idx)
                      (when c calls)) as Hwhen.
    { intros [|] calls H; [exact H|constructor]. }
    repeat (apply Forall_app; split); try apply Hwhen; try exact Havoid;
      repeat constructor; cbn; congruence.
  - destruct (record_and_forward_blocked b now tm source_idx Hreturns)
      as (db & -> & _).
    cbn [fst snd]. rewrite !filter_app, !filter_when. cbn.
    rewrite !when_nil. cbn.
    split; [reflexivity|]. split; [reflexivity|]. split; [|reflexivity].
    destruct (metrics b); cbn; repeat constructor; cbn; congruence.
Qed.

Lemma with_stats_self (f : MessageFilter) : with_stats f (stats f) = f.
Proof. now destruct f. Qed.

Lemma targets_avoid_source (count source_idx : nat) :
  Forall (fun j => j <> source_idx) (targets count source_idx).
Proof.
  apply Forall_forall. intros j Hj. apply filter_In in Hj.
  destruct Hj as [_ Hj]. apply negb_true_iff in Hj. now apply Nat.eqb_neq.
Qed.

Lemma mark_called_iff (id : Z) (calls : list Event) :
  In (TrackerMarkForwarded id) calls
  <-> 0 < List.length (filter (is_mark_forwarded id) calls).
Proof.
  split.
  - intros Hin.
    assert (In (TrackerMarkForwarded id)
               (filter (is_mark_forwarded id) calls)) as H.
    { apply filter_In. split; [exact Hin|]. cbn. apply Z.eqb_refl. }
    destruct (filter _ calls); [destruct H|cbn; lia].
  - destruct (filter _ calls) as [|e rest] eqn:Hf; [cbn; lia|]. intros _.
    assert (In e (filter (is_mark_forwarded id) calls)) as H
      by (rewrite Hf; now left).
    apply filter_In in H. destruct H as [Hin He].
    destruct e; try discriminate. cbn in He. apply Z.eqb_eq in He.
    now subst.
Qed.

Lemma found_iff {A : Type} (p : A -> bool) (l : list A) :
  (exists x, In x l /\ p x = true) <-> 0 < List.length (filter p l).
Proof.
  split.
  - intros (x & Hin & Hx).
    assert (In x (filter p l)) as H by now apply filter_In.
    destruct (filter p l); [destruct H|cbn; lia].
  - destruct (filter p l) as [|x rest] eqn:Hf; [cbn; lia|]. intros _.
    assert (In x (filter p l)) as H by (rewrite Hf; now left).
    apply filter_In in H. eauto.
Qed.

Lemma filter_none {A : Type} (p : A -> bool) (l : list A) :
  Forall (fun x => p x = false) l -> filter p l = [].
Proof.
  induction 1 as [|x l Hx _ IH]; [reflexivity|].
  cbn [filter]. now rewrite Hx.
Qed.

Lemma none_found {A : Type} (p : A -> bool) (l : list A) :
  List.length (filter p l) = 0 -> Forall (fun x => p x = false) l.
Proof.
  intros Hnone. apply Forall_forall. intros x Hx.
  destruct (p x) eqn:Hp; [|reflexivity].
  assert (In x (filter p l)) as H by now apply filter_In.
  apply length_zero_iff_nil in Hnone. rewrite Hnone in H. destruct H.
Qed.

Section Routing.
Context {lib : PyLib}.

Lemma should_forward_changes_stats_only (f : MessageFilter) (m : Message) :
  exists s, snd (should_forward f m) = with_stats f s.
Proof.
  unfold should_forward.
  destruct (negb (enabled f)).
  { exists (stats f). now rewrite with_stats_self. }
  repeat match goal with
         | |- context [if ?c then _ else _] => destruct c
         end; try (eexists; reflexivity).
  destruct (_check_custom_rules _ _) as [[|]|]; eexists; reflexivity.
Qed.

(** Asking the filter changes nothing of the bridge but the filter's
    counters. *)
Lemma apply_filter_frame (b : Bridge) (tm : TextMessage) :
  let b' := snd (apply_filter b tm) in
  interfaces b' = interfaces b
  /\ tracker b' = tracker b
  /\ radio_stats b' = radio_stats b
  /\ metrics b' = metrics b
  /\ (forall again,
        fst (apply_filter b' again) = fst (apply_filter b again)).
Proof.
  unfold apply_filter. destruct (message_filter b) as [f|] eqn:Hf.
  - destruct (should_forward_changes_stats_only f (message_dict tm))
      as [s Hs].
    destruct (should_forward f (message_dict tm)) as [v f'].
    cbn in Hs. subst f'. cbn. repeat split; try reflexivity.
    intros again.
    pose proof (should_forward_with_stats f s (message_dict again)) as H.
    destruct (should_forward (with_stats f s) _) as [v1 f1].
    destruct (should_forward f (message_dict again)) as [v2 f2].
    exact H.
  - cbn. rewrite Hf. repeat split; reflexivity.
Qed.

Lemma apply_filter_collaborators (b : Bridge) (tm : TextMessage) :
  let b' := snd (apply_filter b tm) in
  database b' = database b /\ mqtt b' = mqtt b /\ web b' = web b.
Proof.
  unfold apply_filter. destruct (message_filter b) as [f|]; [|now cbn].
  destruct (should_forward f (message_dict tm)) as [v f']. now cbn.
Qed.

Lemma apply_filter_database (b : Bridge) (tm : TextMessage) (id : Z) :
  database_returns (snd (apply_filter b tm)) id = database_returns b id
  /\ has_database (snd (apply_filter b tm)) = has_database b.
Proof.
  unfold database_returns, has_database.
  now destruct (apply_filter_collaborators b tm) as (-> & _).
Qed.

Lemma _handle_message_cases (b : Bridge) (now : Z) (packet : Packet)
    (source_idx : nat) :
  _handle_message b now packet source_idx
  = match extract_text_message packet with
    | None => (b, [])
    | Some tm =>
        if has_seen (tracker b) now (tm_id tm) then (b, [])
        else match fst (apply_filter b tm) with
             | Raise _ => (snd (apply_filter b tm), [])
             | Ok false =>
                 (snd (apply_filter b tm), when (metrics b) [MetricsFiltered])
             | Ok true =>
                 record_and_forward (snd (apply_filter b tm)) now tm
                                    source_idx
             end
    end.
Proof.
  unfold _handle_message.
  destruct (extract_text_message packet) as [tm|]; [|reflexivity].
  destruct (has_seen _ _ _); [reflexivity|].
  destruct (apply_filter_frame b tm) as (_ & _ & _ & Hmetrics & _).
  destruct (apply_filter b tm) as [[[|]|e] b1]; cbn [fst snd] in *;
    now rewrite ?Hmetrics.
Qed.

Lemma _handle_message_passes (b : Bridge) (now : Z) (packet : Packet)
    (source_idx : nat) (tm : TextMessage) :
  extract_text_message packet = Some tm ->
  passes b now tm = true ->
  _handle_message b now packet source_idx
  = record_and_forward (snd (apply_filter b tm)) now tm source_idx.
Proof.
  intros Hextract Hpasses. rewrite _handle_message_cases, Hextract.
  unfold passes in Hpasses. apply andb_true_iff in Hpasses.
  destruct Hpasses as [Hnew Hverdict]. apply negb_true_iff in Hnew.
  rewrite Hnew. now destruct (fst (apply_filter b tm)) as [[|]|].
Qed.

(** The [sendText] calls of a pass: none, unless the message passes and
    saving it returns. *)
Lemma _handle_message_sends (b : Bridge) (now : Z) (packet : Packet)
    (source_idx : nat) :
  filter is_send (snd (_handle_message b now packet source_idx))
  = match extract_text_message packet with
    | Some tm =>
        if passes b now tm && database_returns b (tm_id tm)
        then attempts (interfaces b) source_idx (tm_text tm) (tm_channel tm)
        else []
    | None => []
    end.
Proof.
  rewrite _handle_message_cases. unfold passes.
  destruct (extract_text_message packet) as [tm|]; [|reflexivity].
  destruct (has_seen _ _ _); [reflexivity|]. cbn [negb andb].
  destruct (apply_filter_frame b tm) as (Hlinks & _).
  destruct (apply_filter_database b tm (tm_id tm)) as [Hreturns _].
  destruct (fst (apply_filter b tm)) as [[|]|e]; cbn [snd].
  - rewrite <- Hreturns.
    destruct (database_returns (snd (apply_filter b tm)) (tm_id tm)) eqn:Hdb.
    + destruct (record_and_forward_spec (snd (apply_filter b tm)) now tm
                                        source_idx Hdb) as (-> & _).
      now rewrite Hlinks.
    + destruct (record_and_forward_marks (snd (apply_filter b tm)) now
                  tm source_idx) as (_ & _ & _ & Hnone).
      exact (Hnone Hdb).
  - now destruct (metrics b).
  - reflexivity.
Qed.

(** No call of a pass goes to the radio the packet came in on. *)
Lemma _handle_message_avoids_source (b : Bridge) (now : Z) (packet : Packet)
    (source_idx : nat) :
  Forall (fun e => send_target e <> Some source_idx)
         (snd (_handle_message b now packet source_idx)).
Proof.
  rewrite _handle_message_cases.
  destruct (extract_text_message packet) as [tm|]; [|constructor].
  destruct (has_seen _ _ _); [constructor|].
  destruct (fst (apply_filter b tm)) as [[|]|e]; cbn [snd].
  - now destruct (record_and_forward_marks (snd (apply_filter b tm)) now tm
                    source_idx) as (_ & _ & H & _).
  - destruct (metrics b); repeat constructor. cbn. congruence.
  - constructor.
Qed.

End Routing.

Section RoutingProperties.
Context {lib : PyLib}.

(** C5.  Whatever the packet, and whether the pass returns or not, no
    [sendText] call of the pass goes to the radio the packet came in on.
    A packet that is not a text message, a duplicate, a filtered message
    and a message that the database does not come back from saving cause
    no call at all; the others cause one call per other registered radio,
    in registration order. *)
Theorem no_send_to_source :
  forall (b : Bridge) (now : Z) (packet : Packet) (source_idx : nat),
    let calls := snd (_handle_message b now packet source_idx) in
    Forall (fun e => send_target e <> Some source_idx) calls
    /\ filter is_send calls
       = match extract_text_message packet with
         | Some tm =>
             if passes b now tm && database_returns b (tm_id tm)
             then map (fun j => SendText j (tm_text tm) (tm_channel tm)
                                  (link_at (interfaces b) j (tm_text tm)
                                           (tm_channel tm)))
                      (filter (fun j => negb (j =? source_idx)%nat)
                              (seq 0 (List.length (interfaces b))))
             else []
         | None => []
         end.
Proof.
  intros b now packet source_idx calls. subst calls. split.
  - apply _handle_message_avoids_source.
  - exact (_handle_message_sends b now packet source_idx).
Qed.

(** C4.  A text message whose id the tracker has seen ends the pass at
    once: the bridge (tracker, filter counters, statistics) is as it was
    and no call was made, on a radio or on anything else.  So when a
    message has been forwarded and its entry is still tracked (the tracker
    has room for one entry, the clock has not run backwards, and the
    message is no older than [maxAge]), a later delivery of the same
    packet, on any radio, changes nothing and sends nothing. *)
Theorem duplicate_has_no_effect :
  forall (b : Bridge) (now : Z) (packet : Packet) (source_idx : nat)
         (tm : TextMessage),
    extract_text_message packet = Some tm ->
    (has_seen (tracker b) now (tm_id tm) = true ->
     _handle_message b now packet source_idx = (b, [])
     /\ _on_receive b now packet source_idx = (b, []))
    /\ (passes b now tm = true ->
        1 <= maxMessages (tracker b) ->
        Forall (fun e => (firstSeenAt e <= now)%Z) (entries (tracker b)) ->
        forall (later : Z) (other_idx : nat),
          (later - now <= maxAge (tracker b))%Z ->
          let b1 := fst (_handle_message b now packet source_idx) in
          has_seen (tracker b1) later (tm_id tm) = true
          /\ _handle_message b1 later packet other_idx = (b1, [])).
Proof.
  intros b now packet source_idx tm Hextract.
  assert (forall b0 at_ idx,
             has_seen (tracker b0) at_ (tm_id tm) = true ->
             _handle_message b0 at_ packet idx = (b0, [])) as Hdup.
  { intros b0 at_ idx Hseen.
    now rewrite _handle_message_cases, Hextract, Hseen. }
  split.
  - intros Hseen. split; [now apply Hdup|].
    unfold _on_receive. destruct (_ <? _)%nat; [now apply Hdup|reflexivity].
  - intros Hpasses Hroom Hclock later other_idx Hage b1.
    assert (has_seen (tracker b1) later (tm_id tm) = true) as Hseen.
    { subst b1. rewrite (_handle_message_passes _ _ _ _ _ Hextract Hpasses).
      destruct (record_and_forward_marks (snd (apply_filter b tm)) now tm
                                         source_idx)
        as (_ & -> & _).
      destruct (apply_filter_frame b tm) as (_ & -> & _).
      unfold passes in Hpasses. apply andb_true_iff in Hpasses.
      destruct Hpasses as [Hnew _]. apply negb_true_iff in Hnew.
      destruct (add_message_tracks (tracker b) now (tm_id tm) (tm_from tm)
                  (tm_to tm) (tm_text tm) (tm_channel tm) Hnew Hroom Hclock)
        as [Hadd Htracked].
      match goal with
      | |- has_seen (Nat.iter ?k _ ?t) _ _ = _ =>
          destruct (tracked_iter_mark (tm_id tm) k t) as [Hiter Hmax];
          destruct (iter_set_forwarded k
                      {| entry_id := tm_id tm; entry_from := tm_from tm;
                         entry_to := tm_to tm; entry_text := tm_text tm;
                         entry_channel := tm_channel tm; firstSeenAt := now;
                         forwarded := false; forwardCount := 0 |})
            as (_ & _ & _ & Hfirst)
      end.
      rewrite Htracked in Hiter. cbn [option_map] in Hiter.
      eapply tracked_has_seen; [exact Hiter|].
      unfold live. rewrite Hmax, Hfirst. rewrite Hadd. cbn.
      now apply Z.leb_le. }
    split; [exact Hseen|now apply Hdup].
Qed.

(** C7.  For a message that passes, the router calls
    [mark_forwarded(msg_id)] once for each [sendText] that returned: at
    least once when some [sendText] of the pass returned, never when none
    did.  When saving the message returns, every radio but the source is
    tried, so the tracker is told exactly when one of them takes the
    message; when it does not return, no radio is tried and the tracker
    is not told. *)
Theorem mark_forwarded_iff_a_send_succeeded :
  forall (b : Bridge) (now : Z) (packet : Packet) (source_idx : nat)
         (tm : TextMessage),
    extract_text_message packet = Some tm ->
    passes b now tm = true ->
    let calls := snd (_handle_message b now packet source_idx) in
    let took :=
      delivered (interfaces b) source_idx (tm_text tm) (tm_channel tm) in
    List.length (filter (is_mark_forwarded (tm_id tm)) calls)
    = List.length (filter is_delivery calls)
    /\ (In (TrackerMarkForwarded (tm_id tm)) calls
        <-> exists e, In e calls /\ is_delivery e = true)
    /\ (Forall (fun e => is_delivery e = false) calls ->
        Forall (fun e => is_mark_forwarded (tm_id tm) e = false) calls)
    /\ (database_returns b (tm_id tm) = true ->
        filter is_delivery calls
        = map (fun j => SendText j (tm_text tm) (tm_channel tm) (Ok tt)) took
        /\ (In (TrackerMarkForwarded (tm_id tm)) calls
            <-> exists j, j <> source_idx
                          /\ j < List.length (interfaces b)
                          /\ exists u, link_at (interfaces b) j (tm_text tm)
                                               (tm_channel tm) = Ok u))
    /\ (database_returns b (tm_id tm) = false ->
        filter is_send calls = []
        /\ Forall (fun e => is_mark_forwarded (tm_id tm) e = false) calls).
Proof.
  intros b now packet source_idx tm Hextract Hpasses calls took.
  pose proof (_handle_message_sends b now packet source_idx) as Hsends.
  fold calls in Hsends. rewrite Hextract, Hpasses in Hsends.
  cbn [andb] in Hsends.
  assert (List.length (filter (is_mark_forwarded (tm_id tm)) calls)
          = List.length (filter is_delivery calls)) as Hmarks.
  { subst calls. rewrite (_handle_message_passes _ _ _ _ _ Hextract Hpasses).
    now destruct (record_and_forward_marks (snd (apply_filter b tm)) now tm
                    source_idx) as (-> & _). }
  split; [exact Hmarks|]. split; [|split; [|split]].
  - rewrite mark_called_iff, Hmarks. symmetry. apply found_iff.
  - intros Hnone. apply none_found.
    now rewrite Hmarks, (filter_none _ _ Hnone).
  - intros Hreturns. rewrite Hreturns in Hsends.
    assert (filter is_delivery calls
            = map (fun j => SendText j (tm_text tm) (tm_channel tm) (Ok tt))
                  took) as Hdelivered.
    { rewrite filter_delivery_sends, Hsends. apply deliveries_of_attempts. }
    split; [exact Hdelivered|].
    rewrite mark_called_iff, Hmarks, Hdelivered, length_map.
    subst took. unfold delivered, targets. split.
    + destruct (filter _ (filter _ _)) as [|j js] eqn:Hj; [cbn; lia|].
      intros _.
      assert (In j (j :: js)) as Hin by now left.
      rewrite <- Hj in Hin. apply filter_In in Hin.
      destruct Hin as [Hin Hok]. apply filter_In in Hin.
      destruct Hin as [Hseq Hne]. apply in_seq in Hseq.
      apply negb_true_iff, Nat.eqb_neq in Hne.
      exists j. split; [exact Hne|]. split; [lia|].
      destruct (link_at _ _ _ _) as [u|]; [now exists u|discriminate].
    + intros (j & Hne & Hlt & u & Hok).
      assert (In j (filter
                      (fun j => match link_at (interfaces b) j (tm_text tm)
                                              (tm_channel tm) with
                                | Ok _ => true
                                | Raise _ => false
                                end)
                      (filter (fun j => negb (j =? source_idx)%nat)
                              (seq 0 (List.length (interfaces b)))))) as Hin.
      { apply filter_In. split; [|now rewrite Hok].
        apply filter_In. split; [apply in_seq; lia|].
        now apply negb_true_iff, Nat.eqb_neq. }
      destruct (filter _ (filter _ _)); [destruct Hin|cbn; lia].
  - intros Hblocks. rewrite Hblocks in Hsends. split; [exact Hsends|].
    apply none_found. rewrite Hmarks, filter_delivery_sends, Hsends.
    reflexivity.
Qed.

(** C6, where the code breaks it.  With a database configured whose lock
    is free and whose connection takes the INSERT, a message that passes
    is recorded by the tracker, counted as received and handed to
    [database.add_message], which does not return: it holds the lock when
    it calls [update_node], and [update_node] waits for the lock.  The
    pass ends there.  No radio is sent the message, whichever of them
    would have taken it; the tracked entry is not marked forwarded; and
    as the lock stays held, no later pass sends anything either. *)
Theorem database_deadlock_stops_the_fan_out :
  forall (b : Bridge) (now : Z) (packet : Packet) (source_idx : nat)
         (tm : TextMessage) (db : DatabaseManager.t),
    extract_text_message packet = Some tm ->
    passes b now tm = true ->
    database b = Some db ->
    DatabaseManager.lock_held db = false ->
    DatabaseManager.insert db (tm_id tm) = Ok tt ->
    let pass := _handle_message b now packet source_idx in
    snd pass
    = [TrackerAddMessage (tm_id tm)]
        ++ when (metrics b)
             [MetricsReceived source_idx; MetricsNodeMessages (tm_from tm)]
        ++ [DatabaseAddMessage (tm_id tm) (tm_from tm) (tm_to tm)
                               (tm_text tm) (tm_channel tm) source_idx
                               Blocks]
    /\ filter is_send (snd pass) = []
    /\ database_locked (fst pass) = true
    /\ (1 <= maxMessages (tracker b) ->
        Forall (fun e => (firstSeenAt e <= now)%Z) (entries (tracker b)) ->
        exists e,
          tracked (tracker (fst pass)) (tm_id tm) = Some e
          /\ forwarded e = false /\ forwardCount e = 0)
    /\ (forall (later : Z) (packet' : Packet) (idx : nat),
          filter is_send (snd (_handle_message (fst pass) later packet' idx))
          = []).
Proof.
  intros b now packet source_idx tm db Hextract Hpasses Hdb Hlock Hinsert
         pass.
  assert (database_returns b (tm_id tm) = false) as Hblocks.
  { unfold database_returns, DatabaseManager.add_message.
    now rewrite Hdb, Hlock, Hinsert. }
  destruct (apply_filter_frame b tm) as (_ & Htracker & _ & Hmetrics & _).
  destruct (apply_filter_database b tm (tm_id tm)) as [Hreturns _].
  rewrite <- Hreturns in Hblocks.
  destruct (record_and_forward_blocked (snd (apply_filter b tm)) now tm
              source_idx Hblocks) as (db' & Hpass & Hlock').
  cbn zeta in Hpass. rewrite Htracker, Hmetrics in Hpass.
  assert (pass = record_and_forward (snd (apply_filter b tm)) now tm
                                    source_idx) as Heq
    by exact (_handle_message_passes _ _ _ _ _ Hextract Hpasses).
  rewrite Heq, Hpass. cbn [fst snd].
  split; [reflexivity|]. split; [|split; [|split]].
  - rewrite !filter_app, filter_when. cbn. now rewrite when_nil.
  - unfold database_locked. cbn. exact Hlock'.
  - intros Hroom Hclock.
    unfold passes in Hpasses. apply andb_true_iff in Hpasses.
    destruct Hpasses as [Hnew _]. apply negb_true_iff in Hnew.
    destruct (add_message_tracks (tracker b) now (tm_id tm) (tm_from tm)
                (tm_to tm) (tm_text tm) (tm_channel tm) Hnew Hroom Hclock)
      as [_ Htracked].
    cbn [tracker with_database with_radio_stats with_tracker].
    rewrite Htracked. eexists. split; [reflexivity|]. split; reflexivity.
  - intros later packet' idx. rewrite _handle_message_sends.
    destruct (extract_text_message packet') as [tm'|]; [|reflexivity].
    assert (database_returns
              (with_database
                 (with_radio_stats
                    (with_tracker (snd (apply_filter b tm))
                       (fst (add_message (tracker b) now (tm_id tm)
                               (tm_from tm) (tm_to tm) (tm_text tm)
                               (tm_channel tm))))
                    (bump source_idx incr_received
                       (radio_stats (snd (apply_filter b tm)))))
                 (Some db')) (tm_id tm') = false) as ->.
    { unfold database_returns, DatabaseManager.add_message. cbn.
      now rewrite Hlock'. }
    now rewrite andb_false_r.
Qed.

(** X30.  For a message that passes, when saving it returns, every radio
    but the source is tried, whatever happened at the radios before it:
    a [sendText] that raises is caught and adds one to the errors of
    that radio and to nothing else of it, one that returns adds one to
    the messages it has sent.  With room for one entry in the tracker and
    a clock that does not run backwards, the tracked entry is marked
    forwarded as soon as one radio took the message, and counts the
    radios that did.  With three radios of which the second raises, every
    radio other than the source and the second is sent the message, and
    at least one is. *)
Theorem send_failures_stay_with_their_radio :
  forall (b : Bridge) (now : Z) (packet : Packet) (source_idx : nat)
         (tm : TextMessage),
    extract_text_message packet = Some tm ->
    passes b now tm = true ->
    database_returns b (tm_id tm) = true ->
    let pass := _handle_message b now packet source_idx in
    let links := interfaces b in
    let took := delivered links source_idx (tm_text tm) (tm_channel tm) in
    filter is_send (snd pass)
    = attempts links source_idx (tm_text tm) (tm_channel tm)
    /\ (forall j r,
          j <> source_idx -> j < List.length links ->
          nth_error (radio_stats b) j = Some r ->
          exists r',
            nth_error (radio_stats (fst pass)) j = Some r'
            /\ received r' = received r
            /\ match link_at links j (tm_text tm) (tm_channel tm) with
               | Ok _ => sent r' = S (sent r) /\ errors r' = errors r
               | Raise _ => sent r' = sent r /\ errors r' = S (errors r)
               end)
    /\ (1 <= maxMessages (tracker b) ->
        Forall (fun e => (firstSeenAt e <= now)%Z) (entries (tracker b)) ->
        exists e,
          tracked (tracker (fst pass)) (tm_id tm) = Some e
          /\ forwarded e = (0 <? List.length took)%nat
          /\ forwardCount e = List.length took)
    /\ (forall (l1 l2 l3 : Link) (x : PyExc),
          links = [l1; l2; l3] ->
          l1 (tm_text tm) (tm_channel tm) = Ok tt ->
          l2 (tm_text tm) (tm_channel tm) = Raise x ->
          l3 (tm_text tm) (tm_channel tm) = Ok tt ->
          source_idx < 3 ->
          filter is_delivery (snd pass)
          = map (fun j => SendText j (tm_text tm) (tm_channel tm) (Ok tt))
                (filter (fun j => negb (j =? source_idx)%nat) [0; 2])
          /\ 0 < List.length took).
Proof.
  intros b now packet source_idx tm Hextract Hpasses Hreturns pass links
         took.
  subst pass. rewrite (_handle_message_passes _ _ _ _ _ Hextract Hpasses).
  destruct (apply_filter_database b tm (tm_id tm)) as [Hdb _].
  rewrite <- Hdb in Hreturns.
  destruct (record_and_forward_spec (snd (apply_filter b tm)) now tm
                                    source_idx Hreturns)
    as (Hsends & _ & Htracker & Hstats & _).
  destruct (apply_filter_frame b tm) as (Hlinks & Htr & Hrs & _).
  rewrite Hlinks in Hsends, Htracker, Hstats. rewrite Htr in Htracker.
  fold links in Hsends, Htracker, Hstats. fold took in Htracker.
  split; [exact Hsends|]. split; [|split].
  - intros j r Hne Hlt Hr. rewrite Hstats, Hrs, Hr. cbn [option_map].
    apply Nat.eqb_neq in Hne. rewrite Hne. unfold settle.
    apply Nat.ltb_lt in Hlt. rewrite Hlt, Hne. cbn [andb negb].
    eexists. split; [reflexivity|].
    destruct (link_at links j (tm_text tm) (tm_channel tm)); cbn; auto.
  - intros Hroom Hclock.
    unfold passes in Hpasses. apply andb_true_iff in Hpasses.
    destruct Hpasses as [Hnew _]. apply negb_true_iff in Hnew.
    destruct (add_message_tracks (tracker b) now (tm_id tm) (tm_from tm)
                (tm_to tm) (tm_text tm) (tm_channel tm) Hnew Hroom Hclock)
      as [_ Htracked].
    rewrite Htracker.
    destruct (tracked_iter_mark (tm_id tm) (List.length took)
                (fst (add_message (tracker b) now (tm_id tm) (tm_from tm)
                        (tm_to tm) (tm_text tm) (tm_channel tm))))
      as [-> _].
    rewrite Htracked. cbn [option_map]. eexists. split; [reflexivity|].
    match goal with
    | |- context [Nat.iter ?k set_forwarded ?e] =>
        destruct (iter_set_forwarded k e) as (-> & -> & _)
    end.
    cbn. split; [reflexivity|lia].
  - intros l1 l2 l3 x Hthree H1 H2 H3 Hsrc.
    rewrite filter_delivery_sends, Hsends.
    subst took. unfold delivered, attempts, targets, link_at.
    rewrite Hthree.
    destruct source_idx as [|[|[|]]]; [| | |lia];
      cbn; rewrite ?H1, ?H2, ?H3; cbn; split; (reflexivity || lia).
Qed.

(** C1, as the code has it.  When the filter rejects a text message that
    is new to the tracker, the pass ends before the message is recorded:
    the tracker is as it was, the id is still unseen, no radio is called,
    and only the filter's counters and the [filtered] metric have moved.
    A later delivery of the same packet, on any radio, is therefore not a
    duplicate to the tracker: the filter is asked again, gives the same
    verdict, and again nothing is sent and nothing is recorded. *)
Theorem filtered_message_is_not_recorded :
  forall (b : Bridge) (now : Z) (packet : Packet) (source_idx : nat)
         (tm : TextMessage),
    extract_text_message packet = Some tm ->
    has_seen (tracker b) now (tm_id tm) = false ->
    fst (apply_filter b tm) = Ok false ->
    let pass := _handle_message b now packet source_idx in
    (tracker (fst pass) = tracker b
     /\ has_seen (tracker (fst pass)) now (tm_id tm) = false
     /\ radio_stats (fst pass) = radio_stats b
     /\ snd pass = when (metrics b) [MetricsFiltered])
    /\ forall (later : Z) (other_idx : nat),
         let again := _handle_message (fst pass) later packet other_idx in
         filter is_send (snd again) = []
         /\ tracker (fst again) = tracker b
         /\ (has_seen (tracker b) later (tm_id tm) = false ->
             fst (apply_filter (fst pass) tm) = Ok false
             /\ snd again = when (metrics b) [MetricsFiltered]).
Proof.
  intros b now packet source_idx tm Hextract Hnew Hverdict pass.
  destruct (apply_filter_frame b tm) as (Hlinks & Htr & Hrs & Hm & Hsame).
  assert (pass = (snd (apply_filter b tm), when (metrics b) [MetricsFiltered]))
    as Hpass.
  { subst pass. now rewrite _handle_message_cases, Hextract, Hnew, Hverdict. }
  rewrite Hpass. cbn [fst snd]. rewrite Htr, Hrs.
  split; [repeat split; assumption|].
  intros later other_idx.
  rewrite _handle_message_cases, Hextract, Htr, Hsame, Hverdict, Hm.
  destruct (apply_filter_frame (snd (apply_filter b tm)) tm)
    as (_ & Htr' & _).
  destruct (has_seen (tracker b) later (tm_id tm)); cbn [fst snd].
  - rewrite Htr. repeat split; discriminate.
  - rewrite Htr', Htr. split; [now destruct (metrics b)|].
    split; [reflexivity|]. intros _. split; reflexivity.
Qed.

End RoutingProperties.

(* ================================================================== *)
(** * Examples *)

#[local] Existing Instance literal_lib.

Lemma ascii_lower_prefix (s1 s2 : string) :
  prefix s1 s2 = true -> prefix (ascii_lower s1) (ascii_lower s2) = true.
Proof.
  revert s1; induction s2 as [|b s2 IH]; intros [|a s1]; simpl; auto.
  destruct (ascii_dec a b) as [->|]; [|discriminate].
  intros H. destruct (ascii_dec (lower_ascii b) (lower_ascii b));
    [auto|congruence].
Qed.

(** The [lower] of the examples does what is asked of [str.lower]. *)
Lemma ascii_lower_keeps_words : lower_keeps_words.
Proof.
  intros word text _. cbn [lower literal_lib].
  induction text as [|c text IH].
  - destruct word; [reflexivity|discriminate].
  - cbn [contains ascii_lower]. rewrite !orb_true_iff. intros [H|H].
    + left. exact (ascii_lower_prefix _ (String c text) H).
    + right. auto.
Qed.

Example example_filter_is_loaded :
  MessageFilter_init example_config = Ok example_filter
  /\ MessageFilter_init
       {| cfg_enabled := Some true; cfg_whitelist_nodes := None;
          cfg_blacklist_nodes := None;
          cfg_content_filters :=
            Some {| cf_keywords := None;
                    cf_regex_patterns := Some ["casino"; "a{4294967296}"] |};
          cfg_allowed_channels := None; cfg_blocked_channels := None;
          cfg_custom_rules := None |}
     = Raise OverflowError.
Proof. split; reflexivity. Qed.

Example hello_is_forwarded :
  fst (should_forward example_filter
         (text_from 1 "!abc123456" "Hello everyone!"))
  = Ok true.
Proof. reflexivity. Qed.

Example blacklisted_sender_is_blocked :
  fst (should_forward example_filter
         (text_from 2 "!bad123456" "This should be blocked"))
  = Ok false.
Proof. reflexivity. Qed.

Example spam_is_blocked :
  fst (should_forward example_filter
         (text_from 3 "!xyz789012" "Check out this SPAM advertisement!"))
  = Ok false.
Proof. reflexivity. Qed.

Example emergency_is_forwarded :
  fst (should_forward example_filter
         (text_from 5 "!ghi901234" "EMERGENCY: Need help!"))
  = Ok true.
Proof. reflexivity. Qed.

Example only_well_formed_patterns_are_loaded :
  map pattern_src (regex_patterns example_filter) = ["casino"].
Proof. reflexivity. Qed.

Example fan_out_from_a :
  snd (_handle_message (three_radios up None) 0%Z (packet_from 1 "N1" hi) 0)
  = [ TrackerAddMessage 1; MetricsReceived 0; MetricsNodeMessages "N1";
      SendText 1 "hi" 0 (Ok tt); TrackerMarkForwarded 1; MetricsSent 1;
      MetricsForwarded;
      SendText 2 "hi" 0 (Ok tt); TrackerMarkForwarded 1; MetricsSent 2;
      MetricsForwarded;
      MetricsProcessingTime ].
Proof. reflexivity. Qed.

(** With a database whose connection is closed, [add_message] returns
    and the message goes out. *)
Example fan_out_with_a_closed_database :
  snd (_handle_message (three_radios_saving closed_database up) 0%Z
         (packet_from 1 "N1" hi) 0)
  = [ TrackerAddMessage 1; MetricsReceived 0; MetricsNodeMessages "N1";
      DatabaseAddMessage 1 "N1" "broadcast" "hi" 0 0 Returns;
      SendText 1 "hi" 0 (Ok tt); TrackerMarkForwarded 1; MetricsSent 1;
      MetricsForwarded; DatabaseMarkForwarded 1 Returns;
      SendText 2 "hi" 0 (Ok tt); TrackerMarkForwarded 1; MetricsSent 2;
      MetricsForwarded; DatabaseMarkForwarded 1 Returns;
      MetricsProcessingTime ].
Proof. reflexivity. Qed.

(** With a database that works, the pass ends in [add_message]. *)
Example no_fan_out_with_a_working_database :
  snd (_handle_message (three_radios_saving working_database up) 0%Z
         (packet_from 1 "N1" hi) 0)
  = [ TrackerAddMessage 1; MetricsReceived 0; MetricsNodeMessages "N1";
      DatabaseAddMessage 1 "N1" "broadcast" "hi" 0 0 Blocks ].
Proof. reflexivity. Qed.

Example fan_out_past_a_failure :
  let pass :=
    _handle_message (three_radios down None) 0%Z (packet_from 1 "N1" hi) 0 in
  filter is_send (snd pass)
  = [SendText 1 "hi" 0 (Raise LinkError); SendText 2 "hi" 0 (Ok tt)]
  /\ radio_stats (fst pass)
     = [ {| received := 1; sent := 0; errors := 0 |};
         {| received := 0; sent := 0; errors := 1 |};
         {| received := 0; sent := 1; errors := 0 |} ]
  /\ option_map forwarded (tracked (tracker (fst pass)) 1) = Some true.
Proof. repeat split. Qed.

Example well_formed_sequences_are_kept :
  payload_text (PBytes [x61; xff; x62]) = Ok "ab"
  /\ payload_text (PBytes [xe2; x82; x41]) = Ok "A"
  /\ payload_text (PBytes [xe2; x82; xac]) 
     = Ok (string_of_list_byte [xe2; x82; xac]).
Proof. repeat split. Qed.

(** ** Where the code departs from the specification's wording *)

(** C1 fails as stated: a message of a blacklisted sender, new to the
    tracker, is rejected by the filter and the pass leaves the tracker
    empty, so the id is still unseen; delivered again, the packet is not
    dropped as a duplicate but checked, and counted, by the filter a second
    time. *)
Lemma filtered_message_stays_unseen :
  let b := three_radios up (Some example_filter) in
  let pass := _handle_message b 0%Z bad_packet 0 in
  let again := _handle_message (fst pass) 1%Z bad_packet 1 in
  extract_text_message bad_packet = Some bad_text
  /\ has_seen (tracker b) 0%Z 2%Z = false
  /\ fst (apply_filter b bad_text) = Ok false
  /\ snd pass = [MetricsFiltered]
  /\ entries (tracker (fst pass)) = []
  /\ has_seen (tracker (fst pass)) 0%Z 2%Z = false
  /\ snd again = [MetricsFiltered]
  /\ option_map (fun f => total_checked (stats f))
                (message_filter (fst again)) = Some 2.
Proof. repeat split. Qed.

(** C2 fails as stated, twice.  The empty keyword is a substring of every
    text and the pattern [.*] is found in every text, the empty text
    included, so step 5 as worded blocks an empty text; [_check_content]
    lets an empty text through before it looks at any keyword or pattern.
    And a filter that is not enabled evaluates no check: it forwards a
    message of a blacklisted sender. *)
Lemma empty_text_skips_the_content_check :
  (contains (lower "") (lower "") = true
   /\ first_decisive
        (spec_checks blank_keyword_filter (text_from 1 "!abc123456" ""))
      = Some content_match
   /\ fst (should_forward blank_keyword_filter (text_from 1 "!abc123456" ""))
      = Ok true)
  /\ (first_decisive
        (spec_checks match_all_filter (text_from 1 "!abc123456" ""))
      = Some content_match
      /\ fst (should_forward match_all_filter (text_from 1 "!abc123456" ""))
         = Ok true
      /\ fst (should_forward match_all_filter (text_from 1 "!abc123456" "x"))
         = Ok false)
  /\ (first_decisive
        (spec_checks disabled_filter (text_from 2 "!bad123456" "hello"))
      = Some in_denylist
      /\ should_forward disabled_filter (text_from 2 "!bad123456" "hello")
         = (Ok true, disabled_filter)).
Proof. repeat split. Qed.

(** C3 fails as stated: the first rule whose pattern matches does not
    decide when its action is neither [allow] nor [block].  The rule of
    priority 10 matches the text and says [log]; evaluation does not stop
    there, and it is the rule of priority 0 behind it that decides: the
    message is blocked with a [block] rule behind, and forwarded with an
    [allow] rule or with nothing behind. *)
Lemma matching_rule_of_another_action_does_not_decide :
  let rules := custom_rules (loaded (rules_only [stop_rule; note_rule])) in
  let message := text_from 1 "N1" "hi" in
  rules = [rule_of_data note_rule; rule_of_data stop_rule]
  /\ map priority rules = [10; 0]%Z
  /\ find (spec_pattern_matches message) rules = Some (rule_of_data note_rule)
  /\ _evaluate_rule (rule_of_data note_rule) message = Ok true
  /\ action (rule_of_data note_rule) = "log"
  /\ _check_custom_rules rules message = Ok false
  /\ _check_custom_rules [rule_of_data note_rule] message = Ok true
  /\ _check_custom_rules [rule_of_data note_rule; rule_of_data emergency_rule]
                         message = Ok true
  /\ fst (should_forward (loaded (rules_only [stop_rule; note_rule])) message)
     = Ok false.
Proof. repeat split. Qed.

(** C8 fails as stated for custom rules: a rule of kind [regex] whose
    pattern does not compile is loaded like any other, and it is at
    evaluation that the pattern is compiled and refused; the error is
    caught there, the rule matches nothing and the message is forwarded. *)
Lemma malformed_custom_rule_is_loaded :
  let f := loaded (rules_only [unbalanced_rule]) in
  MessageFilter_init (rules_only [unbalanced_rule]) = Ok f
  /\ re_compile "(" = Raise ReError
  /\ custom_rules f = [rule_of_data unbalanced_rule]
  /\ re_compile (pattern (rule_of_data unbalanced_rule)) = Raise ReError
  /\ _evaluate_rule (rule_of_data unbalanced_rule) (text_from 1 "N1" "hi")
     = Ok false
  /\ fst (should_forward f (text_from 1 "N1" "hi")) = Ok true.
Proof. repeat split. Qed.

(** C9 fails as stated: the byte FF is no part of any UTF-8 sequence; the
    router's decoding leaves it out, where [errors='replace'] would have
    put U+FFFD in its place. *)
Lemma invalid_byte_is_not_replaced :
  bytes_decode Strict [x68; x69; xff] = Raise UnicodeDecodeError
  /\ payload_text (PBytes [x68; x69; xff]) = Ok "hi"
  /\ bytes_decode Replace [x68; x69; xff]
     = Ok (string_of_list_byte [x68; x69; xef; xbf; xbd])
  /\ option_map tm_text
       (extract_text_message (packet_from 1 "N1" [x68; x69; xff]))
     = Some "hi".
Proof. repeat split. Qed.

(** ** The theorems at concrete inputs *)

Lemma filtered_message_is_not_recorded_witness :
  let b := three_radios up (Some example_filter) in
  extract_text_message bad_packet = Some bad_text
  /\ has_seen (tracker b) 0%Z (tm_id bad_text) = false
  /\ fst (apply_filter b bad_text) = Ok false
  /\ tracker (fst (_handle_message b 0%Z bad_packet 0)) = tracker b.
Proof.
  cbv zeta. do 3 (split; [reflexivity|]).
  exact (proj1 (proj1 (filtered_message_is_not_recorded
                         (three_radios up (Some example_filter)) 0%Z
                         bad_packet 0 bad_text eq_refl eq_refl eq_refl))).
Defined.

Lemma should_forward_first_decisive_check_witness :
  enabled example_filter = true
  /\ first_decisive
       (builtin_checks example_filter
          (text_from 2 "!bad123456" "EMERGENCY: let me in"))
     = Some in_denylist
  /\ should_forward example_filter
       (text_from 2 "!bad123456" "EMERGENCY: let me in")
     = (Ok false,
        with_stats example_filter
          (charge (Some in_denylist)
                  (incr_total_checked (stats example_filter))))
  /\ _check_custom_rules (custom_rules example_filter)
       (text_from 3 "!xyz789012" "Check out this SPAM advertisement!")
     = Ok true
  /\ should_forward example_filter
       (text_from 3 "!xyz789012" "Check out this SPAM advertisement!")
     = (Ok false,
        with_stats example_filter
          (charge (Some content_match)
                  (incr_total_checked (stats example_filter)))).
Proof.
  split; [reflexivity|]. split; [reflexivity|].
  pose proof (should_forward_first_decisive_check
                example_filter
                (text_from 2 "!bad123456" "EMERGENCY: let me in")) as H1.
  pose proof (should_forward_first_decisive_check
                example_filter
                (text_from 3 "!xyz789012"
                           "Check out this SPAM advertisement!")) as H2.
  split; [exact (proj1 (proj2 H1 eq_refl) in_denylist eq_refl)|].
  split; [reflexivity|].
  exact (proj2 (proj2 H2 eq_refl) true eq_refl).
Defined.

Lemma custom_rules_first_match_by_priority_witness :
  let config := rules_only [bad_sender_rule; emergency_rule] in
  let message := text_from 1 "bad123456" "EMERGENCY here" in
  _load_custom_rules config
  = [] ++ rule_of_data emergency_rule :: [rule_of_data bad_sender_rule]
  /\ regular (rule_of_data emergency_rule) = true
  /\ spec_rule_decides message (rule_of_data emergency_rule) = true
  /\ _check_custom_rules
       ([] ++ rule_of_data emergency_rule :: [rule_of_data overflowing_rule])
       message
     = Ok true
  /\ contains "EMERGENCY" "EMERGENCY here" = true
  /\ exists f,
       MessageFilter_init config = Ok f
       /\ fst (should_forward f message) = Ok true.
Proof.
  cbv zeta.
  pose proof (custom_rules_first_match_by_priority
                (rules_only [bad_sender_rule; emergency_rule])
                (text_from 1 "bad123456" "EMERGENCY here")
                "EMERGENCY here") as (_ & Hfirst & _ & Hexample).
  do 3 (split; [reflexivity|]).
  split.
  - exact (proj1 (Hfirst [] (rule_of_data emergency_rule)
                    [rule_of_data bad_sender_rule] eq_refl
                    (Forall_nil _) (Forall_nil _) eq_refl eq_refl)
                 [rule_of_data overflowing_rule]).
  - split; [reflexivity|].
    destruct (Hexample _ (or_intror eq_refl)) as (f & Hf & _ & Hallow & _).
    exists f. split; [exact Hf|].
    exact (Hallow ascii_lower_keeps_words eq_refl).
Defined.

Lemma duplicate_has_no_effect_witness :
  let b := three_radios up None in
  let b1 := fst (_handle_message b 0%Z hello_packet 0) in
  extract_text_message hello_packet = Some hello_text
  /\ passes b 0%Z hello_text = true
  /\ 1 <= maxMessages (tracker b)
  /\ Forall (fun e => (firstSeenAt e <= 0)%Z) (entries (tracker b))
  /\ (5 - 0 <= maxAge (tracker b))%Z
  /\ has_seen (tracker b1) 5%Z (tm_id hello_text) = true
  /\ _handle_message b1 5%Z hello_packet 1 = (b1, []).
Proof.
  cbv zeta.
  assert (1 <= maxMessages (tracker (three_radios up None))) as Hroom
    by (cbn; lia).
  assert (5 - 0 <= maxAge (tracker (three_radios up None)))%Z as Hage
    by (cbn; lia).
  do 2 (split; [reflexivity|]). split; [exact Hroom|].
  split; [constructor|]. split; [exact Hage|].
  exact (proj2 (duplicate_has_no_effect (three_radios up None) 0%Z
                  hello_packet 0 hello_text eq_refl)
               eq_refl Hroom (Forall_nil _) 5%Z 1 Hage).
Defined.

Lemma mark_forwarded_iff_a_send_succeeded_witness :
  let b := three_radios_saving closed_database down in
  let calls := snd (_handle_message b 0%Z hello_packet 0) in
  extract_text_message hello_packet = Some hello_text
  /\ passes b 0%Z hello_text = true
  /\ database_returns b 1%Z = true
  /\ List.length (filter (is_mark_forwarded 1%Z) calls)
     = List.length (filter is_delivery calls)
  /\ filter is_delivery calls = [SendText 2 "hi" 0 (Ok tt)].
Proof.
  cbv zeta. do 3 (split; [reflexivity|]).
  pose proof (mark_forwarded_iff_a_send_succeeded
                (three_radios_saving closed_database down) 0%Z hello_packet
                0 hello_text eq_refl eq_refl) as (Hmarks & _ & _ & Hlinks & _).
  split; [exact Hmarks|].
  exact (proj1 (Hlinks eq_refl)).
Defined.

Lemma database_deadlock_stops_the_fan_out_witness :
  let b := three_radios_saving working_database down in
  let pass := _handle_message b 0%Z hello_packet 0 in
  extract_text_message hello_packet = Some hello_text
  /\ passes b 0%Z hello_text = true
  /\ interfaces b = [up; down; up]
  /\ database b = Some working_database
  /\ DatabaseManager.lock_held working_database = false
  /\ DatabaseManager.insert working_database 1%Z = Ok tt
  /\ filter is_send (snd pass) = []
  /\ database_locked (fst pass) = true
  /\ exists e, tracked (tracker (fst pass)) 1%Z = Some e
               /\ forwarded e = false /\ forwardCount e = 0.
Proof.
  cbv zeta.
  pose proof (database_deadlock_stops_the_fan_out
                (three_radios_saving working_database down) 0%Z hello_packet
                0 hello_text working_database eq_refl eq_refl eq_refl
                eq_refl eq_refl)
    as (_ & Hsends & Hlocked & Hflag & _).
  do 6 (split; [reflexivity|]).
  split; [exact Hsends|]. split; [exact Hlocked|].
  assert (1 <= maxMessages
                 (tracker (three_radios_saving working_database down)))
    as Hroom by (cbn; lia).
  exact (Hflag Hroom (Forall_nil _)).
Defined.

Lemma send_failures_stay_with_their_radio_witness :
  let b := three_radios down None in
  let pass := _handle_message b 0%Z hello_packet 0 in
  extract_text_message hello_packet = Some hello_text
  /\ passes b 0%Z hello_text = true
  /\ database_returns b 1%Z = true
  /\ interfaces b = [up; down; up]
  /\ down "hi" 0%Z = Raise LinkError
  /\ filter is_send (snd pass)
     = [SendText 1 "hi" 0 (Raise LinkError); SendText 2 "hi" 0 (Ok tt)]
  /\ filter is_delivery (snd pass) = [SendText 2 "hi" 0 (Ok tt)]
  /\ exists e, tracked (tracker (fst pass)) 1%Z = Some e
               /\ forwarded e = true /\ forwardCount e = 1.
Proof.
  cbv zeta.
  pose proof (send_failures_stay_with_their_radio (three_radios down None)
                0%Z hello_packet 0 hello_text eq_refl eq_refl eq_refl)
    as (Hsends & _ & Hflag & Hthree).
  do 5 (split; [reflexivity|]).
  split; [exact Hsends|]. split.
  - exact (proj1 (Hthree up down up LinkError eq_refl eq_refl eq_refl
                         eq_refl (le_S _ _ (le_S _ _ (le_n 1))))).
  - assert (1 <= maxMessages (tracker (three_radios down None))) as Hroom
      by (cbn; lia).
    exact (Hflag Hroom (Forall_nil _)).
Defined.

Lemma malformed_pattern_never_fails_evaluation_witness :
  let rule := rule_of_data unbalanced_rule in
  filter_type rule = "regex"
  /\ compiles_or_re_error (pattern rule) = true
  /\ re_compile (pattern rule) = Raise ReError
  /\ _evaluate_rule rule (text_from 1 "N1" "hi") = Ok false
  /\ forallb compiles_or_re_error ["casino"; "("] = true
  /\ exists f,
       MessageFilter_init example_config = Ok f
       /\ map pattern_src (regex_patterns f) = ["casino"].
Proof.
  cbv zeta.
  pose proof (malformed_pattern_never_fails_evaluation
                example_config example_filter
                (rule_of_data unbalanced_rule) (text_from 1 "N1" "hi"))
    as (Hload & _ & Hrule & _).
  do 3 (split; [reflexivity|]).
  split; [exact (Hrule eq_refl eq_refl)|]. split; [reflexivity|].
  destruct (Hload eq_refl) as (f & Hf & Hpatterns & _).
  exists f. split; [exact Hf|]. now rewrite Hpatterns.
Defined.

Lemma overflowing_pattern_unbalances_statistics_witness :
  re_compile "a{4294967296}" = Raise OverflowError
  /\ exists f,
       MessageFilter_init (rules_only [overflowing_rule]) = Ok f
       /\ balanced (stats f)
       /\ fst (should_forward f (text_from 1 "N1" "hi")) = Raise OverflowError
       /\ total_checked
            (stats (snd (should_forward f (text_from 1 "N1" "hi")))) = 1
       /\ total_allowed
            (stats (snd (should_forward f (text_from 1 "N1" "hi"))))
          + total_blocked
              (stats (snd (should_forward f (text_from 1 "N1" "hi")))) = 0.
Proof.
  split; [reflexivity|].
  destruct (overflowing_pattern_unbalances_statistics (lib := literal_lib)
              eq_refl)
    as (f & Hf & _ & _ & Hbalanced & Hcall & Hchecked & Hcounted).
  exists f. split; [exact Hf|]. split; [exact Hbalanced|].
  split; [now rewrite Hcall|]. split; [exact Hchecked|exact Hcounted].
Defined.

Lemma invalid_bytes_are_left_out_witness :
  let packet := packet_from 1 "N1" [x68; x69; xff] in
  exists text,
    portnum {| portnum := Some "TEXT_MESSAGE_APP";
               payload := Some (PBytes [x68; x69; xff]) |}
    = Some "TEXT_MESSAGE_APP"
    /\ payload_text (PBytes [x68; x69; xff]) = Ok text
    /\ String.length text < 3
    /\ option_map tm_text (extract_text_message packet) = Some text.
Proof.
  cbv zeta.
  destruct (invalid_bytes_are_left_out
              [x68; x69; xff] (packet_from 1 "N1" [x68; x69; xff])
              {| portnum := Some "TEXT_MESSAGE_APP";
                 payload := Some (PBytes [x68; x69; xff]) |})
    as (text & Htext & _ & _ & _ & _ & Hshort & Hextract).
  exists text. split; [reflexivity|]. split; [exact Htext|]. split.
  - destruct Hshort as [[Hstrict _]|[_ Hlt]]; [discriminate Hstrict|].
    exact Hlt.
  - now rewrite (Hextract eq_refl eq_refl eq_refl).
Defined.

Lemma no_send_to_source_witness :
  let calls :=
    snd (_handle_message (three_radios up None) 0%Z hello_packet 1) in
  Forall (fun e => send_target e <> Some 1) calls
  /\ map send_target (filter is_send calls) = [Some 0; Some 2].
Proof.
  cbv zeta. split; [|reflexivity].
  exact (proj1 (no_send_to_source (three_radios up None) 0%Z hello_packet 1)).
Defined.

(* ================================================================== *)
(** * More of the filter *)

Lemma with_rules_self (f : MessageFilter) : with_rules f (custom_rules f) = f.
Proof. now destruct f. Qed.

Lemma remove_first_none (n : string) (rs : list FilterRule) :
  remove_first n rs = None <-> Forall (fun r => name r <> n) rs.
Proof.
  induction rs as [|r rs IH]; cbn [remove_first].
  - split; [constructor|reflexivity].
  - destruct (String.eqb_spec (name r) n) as [Heq|Hne].
    + split; [discriminate|]. intros H. inversion H; subst. congruence.
    + destruct (remove_first n rs) as [rs'|].
      * split; [discriminate|]. intros H. exfalso. inversion H as [|? ? _ Hrs]; subst.
        apply IH in Hrs. discriminate.
      * split; [|reflexivity]. intros _. constructor; [exact Hne|].
        now apply IH.
Qed.

Lemma remove_first_split (n : string) (pre post : list FilterRule)
    (r : FilterRule) :
  Forall (fun x => name x <> n) pre -> name r = n ->
  remove_first n (pre ++ r :: post) = Some (pre ++ post).
Proof.
  intros Hpre Hr. induction Hpre as [|x pre Hx _ IH]; cbn [app remove_first].
  - subst n. now rewrite String.eqb_refl.
  - apply String.eqb_neq in Hx. now rewrite Hx, IH.
Qed.

Lemma remove_first_some (n : string) (rs rs' : list FilterRule) :
  remove_first n rs = Some rs' ->
  exists pre r post,
    rs = pre ++ r :: post /\ rs' = pre ++ post /\ name r = n
    /\ Forall (fun x => name x <> n) pre.
Proof.
  revert rs'; induction rs as [|x rs IH]; intros rs'; cbn [remove_first];
    [discriminate|].
  destruct (String.eqb_spec (name x) n) as [Heq|Hne].
  - intros [= <-]. exists [], x, rs. repeat split; auto.
  - destruct (remove_first n rs) as [rs''|]; [|discriminate].
    intros [= <-]. destruct (IH _ eq_refl) as (pre & r & post & -> & -> & Hr & Hpre).
    exists (x :: pre), r, post. repeat split; auto.
Qed.

Lemma sorted_remove (pre post : list FilterRule) (r : FilterRule) :
  StronglySorted by_priority (pre ++ r :: post) ->
  StronglySorted by_priority (pre ++ post).
Proof.
  induction pre as [|x pre IH]; cbn [app]; intros H; inversion H; subst.
  - assumption.
  - constructor; [now apply IH|].
    rewrite Forall_app in *. destruct H3 as [Hpre Hpost].
    split; [exact Hpre|]. now inversion Hpost.
Qed.

(** A list in priority order with a rule appended is sorted by putting
    the rule after the rules of its priority or higher, and nothing else
    moves. *)
Lemma sort_rules_appended (rs : list FilterRule) (r : FilterRule) :
  StronglySorted by_priority rs ->
  exists pre post,
    rs = pre ++ post
    /\ sort_rules (rs ++ [r]) = pre ++ r :: post
    /\ Forall (fun x => (priority r <= priority x)%Z) pre
    /\ Forall (fun x => (priority x < priority r)%Z) post.
Proof.
  induction 1 as [|a rest Hsorted IH Hall].
  - exists [], []. cbn. repeat split; constructor.
  - destruct IH as (pre & post & Hrest & Hsort & Hpre & Hpost).
    cbn [app sort_rules]. rewrite Hsort.
    destruct pre as [|h pre].
    + cbn [app] in *. subst post.
      cbn [insert_rule]. destruct (priority a <? priority r)%Z eqn:Hlt.
      * exists [], (a :: rest). cbn [app]. split; [reflexivity|].
        assert (insert_rule a rest = a :: rest) as ->.
        { destruct rest as [|b rest']; [reflexivity|]. cbn [insert_rule].
          inversion Hall as [|? ? Hb _]; subst. unfold by_priority in Hb.
          apply Z.ltb_ge in Hb. now rewrite Hb. }
        split; [reflexivity|]. split; [constructor|].
        constructor; [now apply Z.ltb_lt|exact Hpost].
      * exists [a], rest. cbn [app]. apply Z.ltb_ge in Hlt.
        repeat split; auto.
    + cbn [app] in *. subst rest. cbn [insert_rule].
      inversion Hall as [|? ? Hh _]; subst. unfold by_priority in Hh.
      apply Z.ltb_ge in Hh. rewrite Hh.
      exists (a :: h :: pre), post. cbn [app]. repeat split; auto.
      constructor; [|exact Hpre]. inversion Hpre; subst. lia.
Qed.

Lemma sort_rules_top (rs : list FilterRule) (r : FilterRule) :
  Forall (fun x => (priority x < priority r)%Z) rs ->
  sort_rules (rs ++ [r]) = r :: sort_rules rs.
Proof.
  induction 1 as [|a rs Ha _ IH]; [reflexivity|].
  cbn [app sort_rules]. rewrite IH. cbn [insert_rule].
  apply Z.ltb_lt in Ha. now rewrite Ha.
Qed.

Lemma mem_str_In (x : string) (xs : list string) :
  mem_str x xs = true <-> In x xs.
Proof.
  unfold mem_str. rewrite existsb_exists. split.
  - intros (y & Hin & Heq). apply String.eqb_eq in Heq. now subst.
  - intros Hin. exists x. split; [exact Hin|apply String.eqb_refl].
Qed.

Lemma mem_str_set_add (x y : string) (xs : list string) :
  mem_str x (set_add y xs) = String.eqb x y || mem_str x xs.
Proof.
  unfold set_add. destruct (mem_str y xs) eqn:Hy; [|reflexivity].
  destruct (String.eqb_spec x y) as [->|_]; [|reflexivity].
  now rewrite Hy.
Qed.

Lemma nonempty_set_add (y : string) (xs : list string) :
  nonempty (set_add y xs) = true.
Proof.
  unfold set_add. destruct (mem_str y xs) eqn:Hy; [|reflexivity].
  destruct xs; [discriminate|reflexivity].
Qed.

Lemma mem_str_set_discard (x y : string) (xs : list string) :
  mem_str x (set_discard y xs) = negb (String.eqb x y) && mem_str x xs.
Proof.
  unfold set_discard, mem_str.
  induction xs as [|a xs IH]; cbn [filter existsb].
  - now rewrite andb_false_r.
  - destruct (String.eqb_spec a y) as [->|Hne]; cbn [negb existsb].
    + rewrite IH. destruct (String.eqb x y); reflexivity.
    + rewrite IH. destruct (String.eqb_spec x a) as [->|_]; [|reflexivity].
      apply String.eqb_neq in Hne. now rewrite Hne.
Qed.

Lemma set_discard_absent (y : string) (xs : list string) :
  mem_str y xs = false -> set_discard y xs = xs.
Proof.
  unfold set_discard, mem_str.
  induction xs as [|a xs IH]; cbn [filter existsb]; [reflexivity|].
  rewrite String.eqb_sym. destruct (String.eqb a y); cbn [orb negb];
    [discriminate|]. intros H. now rewrite IH.
Qed.

Lemma with_whitelist_self (f : MessageFilter) :
  with_whitelist f (whitelist_nodes f) = f.
Proof. now destruct f. Qed.

Lemma with_blacklist_self (f : MessageFilter) :
  with_blacklist f (blacklist_nodes f) = f.
Proof. now destruct f. Qed.

Lemma remove_rule_cases (f : MessageFilter) (n : string) :
  remove_rule f n = (false, f)
  \/ (exists pre r post,
        custom_rules f = pre ++ r :: post
        /\ remove_rule f n = (true, with_rules f (pre ++ post))).
Proof.
  unfold remove_rule.
  destruct (remove_first n (custom_rules f)) as [rs|] eqn:Hremove.
  - right. destruct (remove_first_some _ _ _ Hremove)
      as (pre & r & post & Hrules & -> & _).
    exists pre, r, post. auto.
  - now left.
Qed.

Section FilterInterface.
Context {lib : PyLib}.

(** X1.  [add_rule] on a list in priority order puts the new rule behind
    the rules of its own priority or a higher one and before the rules of
    a lower one; the rules that were there keep their places relative to
    one another, and nothing but the rule list changes. *)
Theorem add_rule_inserts_by_priority (f : MessageFilter)
    (rule : FilterRule) :
  StronglySorted by_priority (custom_rules f) ->
  exists pre post,
    custom_rules f = pre ++ post
    /\ add_rule f rule = with_rules f (pre ++ rule :: post)
    /\ Forall (fun x => (priority rule <= priority x)%Z) pre
    /\ Forall (fun x => (priority x < priority rule)%Z) post.
Proof.
  intros Hsorted.
  destruct (sort_rules_appended _ rule Hsorted)
    as (pre & post & Hrules & Hsort & Hpre & Hpost).
  exists pre, post. unfold add_rule. rewrite Hsort. auto.
Qed.

(** X2.  [remove_rule] answers [False] and changes nothing when no rule
    has the name; otherwise it answers [True] and takes out the first rule
    of that name and no other: the rules before and after it stay, in
    their order, and a later rule of the same name stays too. *)
Theorem remove_rule_takes_first_of_name (f : MessageFilter) (n : string) :
  (Forall (fun r => name r <> n) (custom_rules f)
   /\ remove_rule f n = (false, f))
  \/ (exists pre r post,
        custom_rules f = pre ++ r :: post
        /\ Forall (fun x => name x <> n) pre
        /\ name r = n
        /\ remove_rule f n = (true, with_rules f (pre ++ post))).
Proof.
  unfold remove_rule.
  destruct (remove_first n (custom_rules f)) as [rs|] eqn:Hremove.
  - right. destruct (remove_first_some _ _ _ Hremove)
      as (pre & r & post & Hrules & -> & Hr & Hpre).
    exists pre, r, post. auto.
  - left. split; [now apply remove_first_none|reflexivity].
Qed.

(** X3.  Adding a rule under a name no rule has yet and removing that
    name again gives back the filter as it was, when the rules were in
    priority order. *)
Theorem remove_rule_undoes_add_rule (f : MessageFilter) (rule : FilterRule) :
  StronglySorted by_priority (custom_rules f) ->
  Forall (fun r => name r <> name rule) (custom_rules f) ->
  remove_rule (add_rule f rule) (name rule) = (true, f).
Proof.
  intros Hsorted Hfresh.
  destruct (sort_rules_appended _ rule Hsorted)
    as (pre & post & Hrules & Hsort & _ & _).
  unfold remove_rule, add_rule. cbn [custom_rules with_rules].
  rewrite Hsort, remove_first_split; [| |reflexivity].
  - rewrite <- Hrules. destruct f; reflexivity.
  - rewrite Hrules in Hfresh. now apply Forall_app in Hfresh.
Qed.

(** X4.  A rule added with a priority above every rule of the filter
    decides each message its pattern matches, by its action, whatever the
    other rules say. *)
Theorem added_top_rule_decides (f : MessageFilter) (rule : FilterRule)
    (message : Message) :
  Forall (fun x => (priority x < priority rule)%Z) (custom_rules f) ->
  allow_or_block rule ->
  rule_matches message rule = true ->
  _check_custom_rules (custom_rules (add_rule f rule)) message
  = Ok (negb (String.eqb (action rule) "block")).
Proof.
  intros Htop Haction Hmatch.
  unfold add_rule. cbn [custom_rules with_rules].
  rewrite (sort_rules_top _ _ Htop). cbn [_check_custom_rules].
  unfold rule_matches in Hmatch.
  destruct (_evaluate_rule rule message) as [[|]|e]; try discriminate.
  cbn [bindE].
  destruct Haction as [Haction|Haction]; rewrite Haction; reflexivity.
Qed.

Lemma after_call_well_kept (f : MessageFilter) (c : FilterCall) :
  well_kept f -> well_kept (after_call f c).
Proof.
  unfold well_kept. intros (Hsorted & Hcounted & Hbreakdown).
  destruct c as [message|rule|n|n|n|n|n|]; cbn [after_call];
    try (repeat split; assumption).
  - destruct (should_forward_counts f message) as (s & -> & Hc & Hs & _).
    cbn [with_stats custom_rules stats]. auto.
  - split; [apply add_rule_sorted|split; assumption].
  - destruct (remove_rule_cases f n) as [->|(pre & r & post & Hrules & ->)];
      cbn [snd with_rules custom_rules stats]; [auto|].
    split; [|split; assumption]. rewrite Hrules in Hsorted.
    exact (sorted_remove _ _ _ Hsorted).
  - cbn. repeat split; auto.
Qed.

Lemma after_calls_balanced (cs : list FilterCall) :
  forall f : MessageFilter,
    balanced (stats f) -> some_call_raised f cs = false ->
    balanced (stats (after_calls f cs)).
Proof.
  unfold after_calls.
  induction cs as [|c cs IH]; intros f Hf Hquiet; [exact Hf|].
  cbn [fold_left]. cbn [some_call_raised] in Hquiet.
  apply orb_false_iff in Hquiet. destruct Hquiet as [Hc Hcs].
  apply IH; [|exact Hcs].
  destruct c as [message|rule|n|n|n|n|n|]; cbn [after_call];
    try exact Hf.
  - destruct (should_forward_counts f message) as (s & Hs & _ & _ & Hb).
    rewrite Hs. cbn [stats with_stats]. apply Hb; [|exact Hf].
    destruct (fst (should_forward f message)) as [verdict|e];
      [eauto|discriminate].
  - destruct (remove_rule_cases f n) as [->|(pre & r & post & _ & ->)];
      exact Hf.
  - reflexivity.
Qed.

(** X5.  Whatever is called on a filter object after [__init__], in
    whatever order, the rules stay in priority order (highest first),
    no more messages are counted as allowed or blocked than as checked,
    and the three causes of blocking never add up to more than the
    blocked total (a block by a custom rule is counted in the total
    only).  As long as no [should_forward] has raised, every message
    counted as checked is counted as allowed or as blocked. *)
Theorem filter_calls_keep_rules_sorted_and_counters_consistent
    (config : FilterConfig) (f : MessageFilter) (cs : list FilterCall) :
  MessageFilter_init config = Ok f ->
  well_kept (after_calls f cs)
  /\ (some_call_raised f cs = false -> balanced (stats (after_calls f cs))).
Proof.
  intros Hinit. unfold MessageFilter_init in Hinit.
  destruct (compile_patterns _) as [patterns|e]; [|discriminate].
  cbn [bindE] in Hinit. injection Hinit as <-. split.
  - unfold after_calls.
    match goal with
    | |- well_kept (fold_left _ _ ?f0) =>
        assert (well_kept f0) as Hkept
          by (unfold well_kept; cbn;
              split; [apply sort_rules_sorted|split; reflexivity]);
        revert Hkept; generalize f0
    end.
    induction cs as [|c cs IH]; intros f Hf; [exact Hf|].
    cbn [fold_left]. apply IH. now apply after_call_well_kept.
  - apply after_calls_balanced. reflexivity.
Qed.

(** X6.  Once a node is on the blacklist of an enabled filter, every
    message from it is blocked and counted as blocked by sender, before
    any channel, content or custom rule is looked at; the verdict on a
    message from any other sender is what it was. *)
Theorem add_blacklist_node_blocks_the_sender (f : MessageFilter)
    (node_id : string) (message : Message) :
  enabled f = true ->
  let f' := add_blacklist_node f node_id in
  (get (m_from message) "" = node_id ->
   should_forward f' message
   = (Ok false,
      with_stats f' (incr_blocked_by_sender
                       (incr_total_blocked
                          (incr_total_checked (stats f))))))
  /\ (get (m_from message) "" <> node_id ->
      fst (should_forward f' message) = fst (should_forward f message)).
Proof.
  intros Henabled f'. subst f'. split; intros Hfrom.
  - unfold should_forward.
    cbn [add_blacklist_node with_blacklist enabled whitelist_nodes
         blacklist_nodes stats].
    rewrite Henabled, mem_str_set_add, Hfrom, String.eqb_refl.
    cbn [negb orb]. destruct (_ && _); reflexivity.
  - apply String.eqb_neq in Hfrom.
    unfold should_forward, _check_content.
    cbn [add_blacklist_node with_blacklist enabled whitelist_nodes
         blacklist_nodes stats allowed_channels blocked_channels keywords
         regex_patterns custom_rules].
    rewrite mem_str_set_add, Hfrom. cbn [orb].
    repeat match goal with
           | |- context [if ?c then _ else _] => destruct c
           end; cbn [fst]; try reflexivity.
    destruct (_check_custom_rules (custom_rules f) message) as [[|]|];
      reflexivity.
Qed.

(** X7.  Adding a node to the whitelist of an enabled filter closes the
    filter to every sender that is neither that node nor already on the
    whitelist, also when the whitelist was empty and the sender check was
    off until then. *)
Theorem add_whitelist_node_blocks_other_senders (f : MessageFilter)
    (node_id : string) (message : Message) :
  enabled f = true ->
  get (m_from message) "" <> node_id ->
  mem_str (get (m_from message) "") (whitelist_nodes f) = false ->
  let f' := add_whitelist_node f node_id in
  should_forward f' message
  = (Ok false,
     with_stats f' (incr_blocked_by_sender
                      (incr_total_blocked (incr_total_checked (stats f))))).
Proof.
  intros Henabled Hfrom Hlisted f'. subst f'.
  apply String.eqb_neq in Hfrom. unfold should_forward.
  cbn [add_whitelist_node with_whitelist enabled whitelist_nodes stats].
  now rewrite Henabled, nonempty_set_add, mem_str_set_add, Hfrom, Hlisted.
Qed.

(** X8.  Taking the only node off the whitelist opens the filter: a
    sender that was blocked for not being listed is from then on judged
    by the remaining checks alone, as by a filter that has no
    whitelist. *)
Theorem remove_last_whitelist_node_opens_filter (f : MessageFilter)
    (node_id : string) (message : Message) :
  enabled f = true ->
  whitelist_nodes f = [node_id] ->
  get (m_from message) "" <> node_id ->
  fst (should_forward f message) = Ok false
  /\ fst (should_forward (remove_whitelist_node f node_id) message)
     = fst (should_forward (with_whitelist f []) message).
Proof.
  intros Henabled Hlist Hfrom. apply String.eqb_neq in Hfrom.
  assert (remove_whitelist_node f node_id = with_whitelist f []) as Hopen.
  { unfold remove_whitelist_node. rewrite Hlist. cbn.
    now rewrite String.eqb_refl. }
  split; [|now rewrite Hopen].
  unfold should_forward. rewrite Henabled, Hlist. cbn.
  now rewrite Hfrom.
Qed.

(** X9.  [discard] does not complain about a node that is not listed:
    removing such a node from a list leaves the filter as it is, and
    removing a node right after adding it undoes the addition. *)
Theorem remove_node_undoes_add_node (f : MessageFilter) (node_id : string) :
  mem_str node_id (blacklist_nodes f) = false ->
  mem_str node_id (whitelist_nodes f) = false ->
  remove_blacklist_node f node_id = f
  /\ remove_blacklist_node (add_blacklist_node f node_id) node_id = f
  /\ remove_whitelist_node f node_id = f
  /\ remove_whitelist_node (add_whitelist_node f node_id) node_id = f.
Proof.
  intros Hblack Hwhite.
  unfold remove_blacklist_node, add_blacklist_node, remove_whitelist_node,
    add_whitelist_node, set_add.
  rewrite Hblack, Hwhite.
  cbn [with_blacklist with_whitelist blacklist_nodes whitelist_nodes
       set_discard filter].
  rewrite String.eqb_refl. cbn [negb].
  fold (set_discard node_id (blacklist_nodes f)).
  fold (set_discard node_id (whitelist_nodes f)).
  rewrite (set_discard_absent _ _ Hblack), (set_discard_absent _ _ Hwhite).
  repeat split; destruct f; reflexivity.
Qed.

End FilterInterface.
(* ================================================================== *)
(** * More of the router *)

Lemma total_bump (idx : nat) (rs : list RadioStats) :
  idx < List.length rs ->
  (total sent (bump idx incr_sent rs) = S (total sent rs)
   /\ total errors (bump idx incr_sent rs) = total errors rs
   /\ total received (bump idx incr_sent rs) = total received rs)
  /\ (total sent (bump idx incr_errors rs) = total sent rs
      /\ total errors (bump idx incr_errors rs) = S (total errors rs)
      /\ total received (bump idx incr_errors rs) = total received rs)
  /\ (total sent (bump idx incr_received rs) = total sent rs
      /\ total errors (bump idx incr_received rs) = total errors rs
      /\ total received (bump idx incr_received rs)
         = S (total received rs)).
Proof.
  unfold total. revert idx.
  induction rs as [|r rs IH]; intros [|idx] Hidx; cbn in Hidx; try lia.
  - cbn. repeat split; reflexivity.
  - assert (idx < List.length rs) as Hidx' by lia.
    destruct (IH idx Hidx')
      as ((Hs1 & He1 & Hr1) & (Hs2 & He2 & Hr2) & (Hs3 & He3 & Hr3)).
    change (bump (S idx) ?f (r :: rs)) with (r :: bump idx f rs).
    change (list_sum (map ?k (r :: ?l))) with (k r + list_sum (map k l)).
    rewrite Hs1, He1, Hr1, Hs2, He2, Hr2, Hs3, He3, Hr3.
    repeat split; lia.
Qed.

Lemma count_app (p : Event -> bool) (xs ys : list Event) :
  count p (xs ++ ys) = count p xs + count p ys.
Proof. unfold count. now rewrite filter_app, length_app. Qed.

Lemma flat_map_ext_in {A B : Type} (f g : A -> list B) (l : list A) :
  (forall a, In a l -> f a = g a) -> flat_map f l = flat_map g l.
Proof.
  induction l as [|a l IH]; intros H; [reflexivity|].
  cbn [flat_map]. rewrite (H a (or_introl eq_refl)), IH; [reflexivity|].
  intros x Hx. apply H. now right.
Qed.

Section FanOutCalls.
Variables (source_idx : nat) (text : string) (channel msg_id : Z).

(** The calls of the loop, radio by radio, with the lock free. *)
Lemma fan_out_calls (links : list Link) :
  forall (idx : nat) (b : Bridge) (fwd : bool),
    database_locked b = false ->
    snd (fst (fan_out links idx source_idx text channel msg_id b fwd))
    = flat_map
        (fun j => forward_calls b text channel msg_id j
                    (link_at links (j - idx) text channel))
        (filter (fun j => negb (j =? source_idx)%nat)
                (seq idx (List.length links))).
Proof.
  induction links as [|interface rest IH]; intros idx b fwd Hfree;
    [reflexivity|].
  assert (forall p,
             flat_map
               (fun j => forward_calls b text channel msg_id j
                           (link_at (interface :: rest) (j - idx)
                                    text channel))
               (filter p (seq (S idx) (List.length rest)))
             = flat_map
                 (fun j => forward_calls b text channel msg_id j
                             (link_at rest (j - S idx) text channel))
                 (filter p (seq (S idx) (List.length rest)))) as Hshift.
  { intros p. apply flat_map_ext_in. intros j Hj.
    apply filter_In in Hj. destruct Hj as [Hj _]. apply in_seq in Hj.
    rewrite link_at_shift by lia. reflexivity. }
  cbn [List.length seq filter]. rewrite (fan_out_cons_free _ _ _ _ _ _ _ _ _ Hfree).
  destruct (idx =? source_idx)%nat; cbn [negb].
  - rewrite IH by exact Hfree. symmetry. apply Hshift.
  - cbn [flat_map]. rewrite Nat.sub_diag, Hshift.
    unfold link_at at 1; cbn [nth].
    destruct (interface text channel) as [[]|e]; cbn zeta; cbn [fst snd];
      rewrite IH by exact Hfree; unfold forward_calls, has_database;
      cbn [metrics database with_radio_stats with_tracker];
      rewrite <- !app_assoc; reflexivity.
Qed.

(** The statistics of the radios summed: a call that returned adds one
    message sent, a call that raised one error, and nothing is received. *)
Lemma fan_out_totals (links : list Link) :
  forall (idx : nat) (b : Bridge) (fwd : bool),
    database_locked b = false ->
    idx + List.length links <= List.length (radio_stats b) ->
    let run := fan_out links idx source_idx text channel msg_id b fwd in
    total sent (radio_stats (fst (fst run)))
    = total sent (radio_stats b) + count is_delivery (snd (fst run))
    /\ total errors (radio_stats (fst (fst run)))
       = total errors (radio_stats b) + count is_failure (snd (fst run))
    /\ total received (radio_stats (fst (fst run)))
       = total received (radio_stats b).
Proof.
  induction links as [|interface rest IH]; intros idx b fwd Hfree Hlen.
  { cbn. repeat split; lia. }
  cbn [List.length] in Hlen. cbn zeta.
  rewrite (fan_out_cons_free _ _ _ _ _ _ _ _ _ Hfree).
  destruct (idx =? source_idx)%nat; [apply IH; [exact Hfree|lia]|].
  assert (idx < List.length (radio_stats b)) as Hidx by lia.
  destruct (total_bump idx (radio_stats b) Hidx)
    as ((Hs1 & He1 & Hr1) & (Hs2 & He2 & Hr2) & _).
  destruct (interface text channel) as [[]|e]; cbn zeta; cbn [fst snd];
    match goal with
    | |- context [fan_out rest (S idx) _ _ _ _ ?b2 ?f] =>
        destruct (IH (S idx) b2 f Hfree) as (Hs & He & Hr);
        [cbn [radio_stats with_radio_stats]; rewrite bump_length; lia|]
    end; rewrite Hs, He, Hr; cbn [radio_stats with_radio_stats with_tracker];
    rewrite ?Hs1, ?He1, ?Hr1, ?Hs2, ?He2, ?Hr2;
    destruct (metrics b), (has_database b); cbn [when app];
    unfold count; cbn [filter is_delivery is_failure List.length];
    repeat split; lia.
Qed.

End FanOutCalls.

Lemma forward_calls_counts (b : Bridge) (text : string) (channel msg_id : Z)
    (js : list nat) (outcome : nat -> Exc unit) :
  let calls :=
    flat_map (fun j => forward_calls b text channel msg_id j (outcome j))
             js in
  count is_delivery calls + count is_failure calls = List.length js
  /\ count is_metrics_forwarded calls
     = (if metrics b then count is_delivery calls else 0)
  /\ count is_metrics_dropped calls
     = (if metrics b then count is_failure calls else 0)
  /\ count is_database_mark_forwarded calls
     = (if has_database b then count is_delivery calls else 0).
Proof.
  cbn zeta. induction js as [|j js IH].
  { cbn. now destruct (metrics b), (has_database b). }
  cbn [flat_map List.length]. rewrite !count_app.
  destruct IH as (Hall & Hforwarded & Hdropped & Hmarked).
  rewrite Hforwarded, Hdropped, Hmarked, <- Hall.
  remember (flat_map _ js) as rest eqn:Hrest. clear Hrest.
  unfold forward_calls.
  destruct (outcome j) as [[]|e], (metrics b), (has_database b);
    unfold count;
    cbn [when app filter is_delivery is_failure is_metrics_forwarded
         is_metrics_dropped is_database_mark_forwarded List.length];
    repeat split; lia.
Qed.

Lemma targets_length (n source_idx : nat) :
  source_idx < n -> List.length (targets n source_idx) = n - 1.
Proof.
  intros Hsource. unfold targets.
  assert (forall start len,
             List.length
               (filter (fun j => negb (j =? source_idx)%nat) (seq start len))
             = if (start <=? source_idx)%nat
                  && (source_idx <? start + len)%nat
               then len - 1 else len) as Hcount.
  { intros start len. revert start.
    induction len as [|len IH]; intros start.
    - cbn [seq filter List.length].
      destruct (Nat.leb_spec start source_idx),
        (Nat.ltb_spec source_idx (start + 0)); cbn [andb]; lia.
    - cbn [seq filter].
      destruct (Nat.eqb_spec start source_idx) as [Heq|Hne];
        cbn [negb List.length]; rewrite IH;
        destruct (Nat.leb_spec (S start) source_idx),
          (Nat.leb_spec start source_idx),
          (Nat.ltb_spec source_idx (S start + len)),
          (Nat.ltb_spec source_idx (start + S len)); cbn [andb]; lia. }
  rewrite Hcount. cbn [Nat.leb Nat.add andb].
  apply Nat.ltb_lt in Hsource. now rewrite Hsource.
Qed.

(** The calls of the part of a pass that records and forwards, when
    saving the message returns. *)
Lemma record_and_forward_calls (b : Bridge) (now : Z) (tm : TextMessage)
    (source_idx : nat) :
  database_returns b (tm_id tm) = true ->
  snd (record_and_forward b now tm source_idx)
  = [TrackerAddMessage (tm_id tm)]
      ++ when (metrics b)
           [MetricsReceived source_idx; MetricsNodeMessages (tm_from tm)]
      ++ when (has_database b)
           [DatabaseAddMessage (tm_id tm) (tm_from tm) (tm_to tm)
                               (tm_text tm) (tm_channel tm) source_idx
                               Returns]
      ++ when (mqtt b)
           [MqttPublish
              (snd (add_message (tracker b) now (tm_id tm) (tm_from tm)
                                (tm_to tm) (tm_text tm) (tm_channel tm)))]
      ++ when (web b)
           [WebBroadcast
              (snd (add_message (tracker b) now (tm_id tm) (tm_from tm)
                                (tm_to tm) (tm_text tm) (tm_channel tm)))]
      ++ flat_map
           (fun j =>
              forward_calls b (tm_text tm) (tm_channel tm) (tm_id tm) j
                (link_at (interfaces b) j (tm_text tm) (tm_channel tm)))
           (targets (List.length (interfaces b)) source_idx)
      ++ when (metrics b) [MetricsProcessingTime].
Proof.
  intros Hreturns.
  destruct (record_and_forward_eq b now tm source_idx Hreturns)
    as [-> Hfree].
  cbn zeta. cbn [snd].
  rewrite fan_out_calls by exact Hfree. unfold targets. do 5 f_equal.
  f_equal. apply flat_map_ext_in. intros j _. now rewrite Nat.sub_0_r.
Qed.

(** The accounts of that part agree with its [sendText] calls. *)
Lemma record_and_forward_counts (b : Bridge) (now : Z) (tm : TextMessage)
    (source_idx : nat) :
  database_returns b (tm_id tm) = true ->
  source_idx < List.length (interfaces b) ->
  let calls := snd (record_and_forward b now tm source_idx) in
  count is_delivery calls + count is_failure calls
  = List.length (interfaces b) - 1
  /\ count is_metrics_forwarded calls
     = (if metrics b then count is_delivery calls else 0)
  /\ count is_metrics_dropped calls
     = (if metrics b then count is_failure calls else 0)
  /\ count is_database_mark_forwarded calls
     = (if has_database b then count is_delivery calls else 0)
  /\ count is_metrics_filtered calls = 0.
Proof.
  intros Hreturns Hsource. cbn zeta.
  rewrite (record_and_forward_calls b now tm source_idx Hreturns),
    !count_app.
  destruct (forward_calls_counts b (tm_text tm) (tm_channel tm) (tm_id tm)
              (targets (List.length (interfaces b)) source_idx)
              (fun j => link_at (interfaces b) j (tm_text tm)
                                (tm_channel tm)))
    as (Hall & Hforwarded & Hdropped & Hmarked).
  rewrite Hforwarded, Hdropped, Hmarked.
  rewrite (targets_length _ _ Hsource) in Hall.
  assert (forall js,
             count is_metrics_filtered
               (flat_map
                  (fun j =>
                     forward_calls b (tm_text tm) (tm_channel tm)
                       (tm_id tm) j
                       (link_at (interfaces b) j (tm_text tm)
                                (tm_channel tm))) js) = 0) as ->.
  { induction js as [|j js IH]; [reflexivity|].
    cbn [flat_map]. rewrite count_app, IH. unfold forward_calls.
    destruct (link_at _ _ _ _) as [[]|e], (metrics b), (has_database b);
      reflexivity. }
  destruct (metrics b), (has_database b), (mqtt b), (web b); cbn;
    rewrite ?Nat.add_0_r; repeat split; lia.
Qed.

Section PassAccounts.
Context {lib : PyLib}.

(** X10.  The calls of a pass on a message that is new and passes the
    filter, all of them and in order: the tracker records the message,
    the metrics count it as received, and the database, when one is
    configured, is asked to save it.  When that call does not return, it
    is the last of the pass.  When it returns, or no database is
    configured, the other collaborators that are configured are told of
    the message; then each radio but the source, in registration order,
    is sent the text, and what follows the call depends on how that one
    call ended (a mark in the tracker, the metrics and the database when
    it returned; the error metrics when it raised); the processing time
    is recorded last. *)
Theorem pass_calls_in_order (b : Bridge) (now : Z) (packet : Packet)
    (source_idx : nat) (tm : TextMessage) :
  extract_text_message packet = Some tm ->
  passes b now tm = true ->
  let entry :=
    snd (add_message (tracker b) now (tm_id tm) (tm_from tm) (tm_to tm)
                     (tm_text tm) (tm_channel tm)) in
  let received :=
    [TrackerAddMessage (tm_id tm)]
      ++ when (metrics b)
           [MetricsReceived source_idx; MetricsNodeMessages (tm_from tm)] in
  snd (_handle_message b now packet source_idx)
  = if database_returns b (tm_id tm)
    then
      received
        ++ when (has_database b)
             [DatabaseAddMessage (tm_id tm) (tm_from tm) (tm_to tm)
                                 (tm_text tm) (tm_channel tm) source_idx
                                 Returns]
        ++ when (mqtt b) [MqttPublish entry]
        ++ when (web b) [WebBroadcast entry]
        ++ flat_map
             (fun j =>
                forward_calls b (tm_text tm) (tm_channel tm) (tm_id tm) j
                  (link_at (interfaces b) j (tm_text tm) (tm_channel tm)))
             (targets (List.length (interfaces b)) source_idx)
        ++ when (metrics b) [MetricsProcessingTime]
    else
      received
        ++ [DatabaseAddMessage (tm_id tm) (tm_from tm) (tm_to tm)
                               (tm_text tm) (tm_channel tm) source_idx
                               Blocks].
Proof.
  intros Hextract Hpasses. cbn zeta.
  rewrite (_handle_message_passes _ _ _ _ _ Hextract Hpasses).
  destruct (apply_filter_frame b tm) as (Hlinks & Htracker & _ & Hmetrics & _).
  destruct (apply_filter_collaborators b tm) as (Hdatabase & Hmqtt & Hweb).
  destruct (apply_filter_database b tm (tm_id tm)) as [Hreturns Hhas].
  rewrite <- Hreturns.
  destruct (database_returns (snd (apply_filter b tm)) (tm_id tm)) eqn:Hdb.
  - rewrite (record_and_forward_calls _ now tm source_idx Hdb).
    rewrite Hlinks, Htracker, Hmetrics, Hhas, Hmqtt, Hweb.
    rewrite <- !app_assoc. do 5 f_equal. f_equal.
    apply flat_map_ext_in. intros j _. unfold forward_calls.
    now rewrite Hmetrics, Hhas.
  - destruct (record_and_forward_blocked _ now tm source_idx Hdb)
      as (db & -> & _).
    cbn [snd]. rewrite Hmetrics, <- !app_assoc. reflexivity.
Qed.

(** X11.  The accounts of such a pass, when saving the message returns,
    agree with its [sendText] calls.  Every radio but the source is
    called once, so the calls that returned and the calls that raised
    number one less than the radios.  With the metrics on,
    [increment_forwarded] is called once per call that returned and
    [increment_dropped] once per call that raised: the forwarded total
    counts deliveries, not messages.  With the database on,
    [mark_forwarded] is called once per call that returned. *)
Theorem pass_accounts_agree_with_sends (b : Bridge) (now : Z)
    (packet : Packet) (source_idx : nat) (tm : TextMessage) :
  extract_text_message packet = Some tm ->
  passes b now tm = true ->
  database_returns b (tm_id tm) = true ->
  source_idx < List.length (interfaces b) ->
  let calls := snd (_handle_message b now packet source_idx) in
  count is_delivery calls + count is_failure calls
  = List.length (interfaces b) - 1
  /\ count is_metrics_forwarded calls
     = (if metrics b then count is_delivery calls else 0)
  /\ count is_metrics_dropped calls
     = (if metrics b then count is_failure calls else 0)
  /\ count is_database_mark_forwarded calls
     = (if has_database b then count is_delivery calls else 0).
Proof.
  intros Hextract Hpasses Hreturns Hsource. cbn zeta.
  rewrite (_handle_message_passes _ _ _ _ _ Hextract Hpasses).
  destruct (apply_filter_frame b tm) as (Hlinks & _ & _ & Hmetrics & _).
  destruct (apply_filter_database b tm (tm_id tm)) as [Hdb Hhas].
  rewrite <- Hlinks in Hsource. rewrite <- Hdb in Hreturns.
  destruct (record_and_forward_counts (snd (apply_filter b tm)) now tm
              source_idx Hreturns Hsource)
    as (Hall & Hforwarded & Hdropped & Hmarked & _).
  rewrite Hlinks, ?Hmetrics, ?Hhas in *. auto.
Qed.

(** X12.  With a counter for each radio, as [connect] leaves them, such a
    pass, when saving the message returns, adds one to the messages
    received, summed over the radios, one to the messages sent for each
    call that returned and one to the errors for each call that raised:
    the counters grow by the number of radios in all. *)
Theorem pass_adds_one_count_per_radio (b : Bridge) (now : Z)
    (packet : Packet) (source_idx : nat) (tm : TextMessage) :
  extract_text_message packet = Some tm ->
  passes b now tm = true ->
  database_returns b (tm_id tm) = true ->
  source_idx < List.length (interfaces b) ->
  List.length (radio_stats b) = List.length (interfaces b) ->
  let pass := _handle_message b now packet source_idx in
  let before := radio_stats b in
  let after := radio_stats (fst pass) in
  total received after = S (total received before)
  /\ total sent after = total sent before + count is_delivery (snd pass)
  /\ total errors after = total errors before + count is_failure (snd pass)
  /\ total received after + total sent after + total errors after
     = total received before + total sent before + total errors before
       + List.length (interfaces b).
Proof.
  intros Hextract Hpasses Hreturns Hsource Hlen. cbn zeta.
  rewrite (_handle_message_passes _ _ _ _ _ Hextract Hpasses).
  destruct (apply_filter_frame b tm) as (Hlinks & _ & Hstats & Hmetrics & _).
  destruct (apply_filter_database b tm (tm_id tm)) as [Hdb _].
  rewrite <- Hdb in Hreturns.
  assert (source_idx < List.length (interfaces (snd (apply_filter b tm))))
    as Hsource' by now rewrite Hlinks.
  destruct (record_and_forward_counts (snd (apply_filter b tm)) now tm
              source_idx Hreturns Hsource') as (Hall & _).
  rewrite Hlinks in Hall. revert Hall.
  destruct (record_and_forward_eq (snd (apply_filter b tm)) now tm
              source_idx Hreturns) as [-> Hfree].
  cbn zeta. cbn [fst snd].
  set (b1 := with_radio_stats _ _) in *.
  assert (source_idx < List.length (radio_stats b)) as Hsource'' by lia.
  destruct (total_bump source_idx (radio_stats b) Hsource'')
    as (_ & _ & (Hs & He & Hr)).
  destruct (fan_out_totals source_idx (tm_text tm) (tm_channel tm) (tm_id tm)
              (interfaces (snd (apply_filter b tm))) 0 b1 false Hfree)
    as (Hsent & Herrors & Hreceived).
  { subst b1. cbn [radio_stats with_radio_stats].
    rewrite bump_length, Hstats, Hlinks. lia. }
  rewrite Hsent, Herrors, Hreceived. subst b1.
  cbn [radio_stats with_radio_stats]. rewrite Hstats, Hs, He, Hr.
  rewrite !count_app.
  destruct (metrics (snd (apply_filter b tm))),
    (has_database (snd (apply_filter b tm))),
    (mqtt (snd (apply_filter b tm))), (web (snd (apply_filter b tm)));
    unfold count; cbn [when app filter is_delivery is_failure List.length];
    rewrite ?Nat.add_0_r; intros Hall; repeat split; lia.
Qed.

End PassAccounts.

(** ** Sending by radio name *)

Lemma radio_name_inj (i j : nat) : radio_name i = radio_name j -> i = j.
Proof.
  unfold radio_name. intros H. injection H as H.
  assert (Some (Nat.to_uint (i + 1)) = Some (Nat.to_uint (j + 1))) as Huint.
  { rewrite <- !DecimalString.NilEmpty.usu. now rewrite H. }
  injection Huint as Huint.
  apply DecimalNat.Unsigned.to_uint_inj in Huint. lia.
Qed.

Lemma index_radio_name (idx start len : nat) :
  start <= idx < start + len ->
  index (radio_name idx) (map radio_name (seq start len))
  = Some (idx - start).
Proof.
  revert start. induction len as [|len IH]; intros start Hidx; [lia|].
  cbn [seq map index].
  destruct (String.eqb_spec (radio_name start) (radio_name idx)) as [Heq|Hne].
  - apply radio_name_inj in Heq. subst. now rewrite Nat.sub_diag.
  - assert (start <> idx) as Hstart by congruence.
    rewrite IH by lia. cbn [option_map]. f_equal. lia.
Qed.

Lemma mem_radio_names (b : Bridge) (radio : string) :
  mem_str radio (radio_names b) = true
  <-> exists idx, idx < List.length (interfaces b) /\ radio = radio_name idx.
Proof.
  rewrite mem_str_In. unfold radio_names. rewrite in_map_iff. split.
  - intros (idx & <- & Hin). apply in_seq in Hin. exists idx. split; [lia|auto].
  - intros (idx & Hidx & ->). exists idx. split; [reflexivity|].
    apply in_seq. lia.
Qed.

Lemma nth_error_link_at (links : list Link) (idx : nat) :
  idx < List.length links -> nth_error links idx = Some (link_at links idx).
Proof.
  intros Hidx. unfold link_at. now apply nth_error_nth'.
Qed.

Lemma radio_name_found (b : Bridge) (idx : nat) :
  idx < List.length (interfaces b) ->
  mem_str (radio_name idx) (radio_names b) = true
  /\ index (radio_name idx) (radio_names b) = Some idx
  /\ nth_error (interfaces b) idx = Some (link_at (interfaces b) idx).
Proof.
  intros Hidx. split; [apply mem_radio_names; eauto|]. split.
  - unfold radio_names. rewrite index_radio_name by lia.
    now rewrite Nat.sub_0_r.
  - now apply nth_error_link_at.
Qed.

(** X13.  [send_message] with the name of a radio of the bridge calls
    [sendText] on that radio and on no other: it answers [True] when the
    call returns, after publishing the message as outgoing if MQTT is
    configured, and [False] when the call raises, having published
    nothing. *)
Theorem send_message_calls_the_named_radio (b : Bridge) (text : string)
    (channel : Z) (idx : nat) :
  idx < List.length (interfaces b) ->
  send_message b text (radio_name idx) channel
  = match link_at (interfaces b) idx text channel with
    | Ok _ =>
        (true,
         RadioSendText idx text channel (Ok tt)
           :: (if mqtt b
               then [MqttPublishOutgoing "bridge" "broadcast" text channel]
               else []))
    | Raise e => (false, [RadioSendText idx text channel (Raise e)])
    end.
Proof.
  intros Hidx. unfold send_message.
  destruct (radio_name_found b idx Hidx) as (-> & -> & ->).
  cbn [negb].
  now destruct (link_at (interfaces b) idx text channel) as [[]|e].
Qed.

(** X14.  [send_message] answers [True] exactly when the name is that
    of a radio of the bridge and that radio's [sendText] returned; and it
    makes no call at all exactly when the name is not that of a radio of
    the bridge. *)
Theorem send_message_true_iff_sent (b : Bridge) (text radio : string)
    (channel : Z) :
  (fst (send_message b text radio channel) = true
   <-> exists idx,
         idx < List.length (interfaces b)
         /\ radio = radio_name idx
         /\ link_at (interfaces b) idx text channel = Ok tt)
  /\ (snd (send_message b text radio channel) = []
      <-> Forall (fun idx => radio <> radio_name idx)
                 (seq 0 (List.length (interfaces b)))).
Proof.
  destruct (mem_str radio (radio_names b)) eqn:Hmem.
  - apply mem_radio_names in Hmem. destruct Hmem as (idx & Hidx & ->).
    unfold send_message.
    destruct (radio_name_found b idx Hidx) as (-> & -> & ->).
    cbn [negb]. split; split.
    + destruct (link_at (interfaces b) idx text channel) as [[]|e] eqn:Hcall;
        cbn [fst]; [|discriminate].
      intros _. exists idx. auto.
    + intros (idx' & _ & Hname & Hcall).
      apply radio_name_inj in Hname. subst idx'. now rewrite Hcall.
    + now destruct (link_at (interfaces b) idx text channel) as [[]|e].
    + intros Hnone. rewrite Forall_forall in Hnone.
      destruct (Hnone idx); [apply in_seq; lia|reflexivity].
  - assert (send_message b text radio channel = (false, [])) as ->
      by (unfold send_message; now rewrite Hmem).
    assert (forall idx, idx < List.length (interfaces b) ->
                        radio <> radio_name idx) as Hunknown.
    { intros idx Hidx ->.
      assert (mem_str (radio_name idx) (radio_names b) = true)
        by (apply mem_radio_names; eauto).
      congruence. }
    cbn [fst snd]. split; split.
    + discriminate.
    + intros (idx & Hidx & Hname & _). now destruct (Hunknown idx Hidx).
    + intros _. apply Forall_forall. intros idx Hidx. apply in_seq in Hidx.
      apply Hunknown. lia.
    + reflexivity.
Qed.

(** X15.  A send command that comes in over MQTT makes the radio call
    [send_message] makes for the same text, name and channel, and nothing
    else: the message it sends is not published back to MQTT. *)
Theorem mqtt_message_callback_sends_like_send_message (b : Bridge)
    (text radio : string) (channel : Z) :
  _mqtt_message_callback b text radio channel
  = filter is_radio_call (snd (send_message b text radio channel)).
Proof.
  unfold _mqtt_message_callback, send_message.
  destruct (mem_str radio (radio_names b)); [|reflexivity]. cbn [negb].
  destruct (index radio (radio_names b)) as [idx|]; [|reflexivity].
  destruct (nth_error (interfaces b) idx) as [interface|]; [|reflexivity].
  destruct (interface text channel) as [[]|e]; [|reflexivity].
  now destruct (mqtt b).
Qed.
(* ================================================================== *)
(** * The metrics collector *)

Lemma py_max_spec (a b : Duration) :
  QArith_base.Qle a (py_max a b) /\ QArith_base.Qle b (py_max a b)
  /\ (py_max a b = a \/ py_max a b = b).
Proof.
  unfold py_max. destruct (QArith_base.Qle_bool b a) eqn:Hle.
  - apply QArith_base.Qle_bool_iff in Hle.
    split; [apply QArith_base.Qle_refl|]. split; [exact Hle|now left].
  - assert (~ QArith_base.Qle b a) as Hnot.
    { intros H. apply QArith_base.Qle_bool_iff in H. congruence. }
    apply QArith_base.Qnot_le_lt, QArith_base.Qlt_le_weak in Hnot.
    split; [exact Hnot|]. split; [apply QArith_base.Qle_refl|now right].
Qed.

Lemma py_min_spec (a b : Duration) :
  QArith_base.Qle (py_min a b) a /\ QArith_base.Qle (py_min a b) b
  /\ (py_min a b = a \/ py_min a b = b).
Proof.
  unfold py_min. destruct (QArith_base.Qle_bool a b) eqn:Hle.
  - apply QArith_base.Qle_bool_iff in Hle.
    split; [apply QArith_base.Qle_refl|]. split; [exact Hle|now left].
  - assert (~ QArith_base.Qle a b) as Hnot.
    { intros H. apply QArith_base.Qle_bool_iff in H. congruence. }
    apply QArith_base.Qnot_le_lt, QArith_base.Qlt_le_weak in Hnot.
    split; [exact Hnot|]. split; [apply QArith_base.Qle_refl|now right].
Qed.

Lemma tl_skipn {A : Type} (n : nat) (xs : list A) :
  tl (skipn n xs) = skipn (S n) xs.
Proof.
  revert xs. induction n as [|n IH]; intros [|x xs]; try reflexivity.
  change (tl (skipn n xs) = skipn (S n) xs). apply IH.
Qed.

Lemma app_comm_cons_tl {A : Type} (xs ys : list A) :
  0 < List.length xs -> tl (xs ++ ys) = tl xs ++ ys.
Proof. destruct xs; cbn; [lia|reflexivity]. Qed.

Lemma window_last_n (xs : list Duration) (d : Duration) :
  window (last_n 1000 xs) d = last_n 1000 (xs ++ [d]).
Proof.
  unfold window, last_n. rewrite !length_app, length_skipn.
  cbn [List.length].
  destruct (Nat.le_gt_cases (List.length xs) 999) as [Hshort|Hlong].
  - replace (List.length xs - 1000) with 0 by lia.
    replace (List.length xs + 1 - 1000) with 0 by lia.
    cbn [skipn].
    replace (1000 <? List.length xs - 0 + 1)%nat with false
      by (symmetry; apply Nat.ltb_ge; lia).
    reflexivity.
  - replace (1000 <? List.length xs - (List.length xs - 1000) + 1)%nat
      with true by (symmetry; apply Nat.ltb_lt; lia).
    rewrite app_comm_cons_tl by (rewrite length_skipn; lia).
    rewrite tl_skipn.
    replace (List.length xs + 1 - 1000) with (S (List.length xs - 1000))
      by lia.
    rewrite skipn_app.
    replace (S (List.length xs - 1000) - List.length xs) with 0 by lia.
    reflexivity.
Qed.

Lemma record_processing_times (ds : list Duration) :
  forall m,
    message_processing_times (fold_left record_processing_time ds m)
    = fold_left window ds (message_processing_times m).
Proof.
  induction ds as [|d ds IH]; intros m; [reflexivity|].
  cbn [fold_left]. now rewrite IH.
Qed.

(** X16.  The processing times kept are the last thousand recorded, in
    the order they were recorded: the window never holds more than a
    thousand, and nothing is dropped before it is full. *)
Theorem processing_times_are_the_last_thousand (ds : list Duration) :
  let m := fold_left record_processing_time ds MetricsCollector_init in
  message_processing_times m = last_n 1000 ds
  /\ List.length (message_processing_times m) = Nat.min 1000 (List.length ds).
Proof.
  cbn zeta. rewrite record_processing_times.
  cbn [message_processing_times MetricsCollector_init].
  assert (forall xs, fold_left window ds (last_n 1000 xs)
                     = last_n 1000 (xs ++ ds)) as Hfold.
  { induction ds as [|d ds IH]; intros xs.
    - now rewrite app_nil_r.
    - cbn [fold_left]. rewrite window_last_n, IH, <- app_assoc.
      reflexivity. }
  specialize (Hfold []). cbn [app] in Hfold.
  change (last_n 1000 []) with (@nil Duration) in Hfold. rewrite Hfold.
  split; [reflexivity|]. unfold last_n. rewrite length_skipn. lia.
Qed.


Lemma record_processing_time_extremes (xs : list Duration)
    (m : MetricsCollector) (d : Duration) :
  extremes_of xs m -> extremes_of (xs ++ [d]) (record_processing_time m d).
Proof.
  unfold extremes_of.
  cbn [record_processing_time max_processing_time min_processing_time].
  intros (Hzero & Hmax & Hwhich & Hmin).
  destruct (py_max_spec (max_processing_time m) d) as (Hold & Hnew & Hor).
  split; [exact (QArith_base.Qle_trans _ _ _ Hzero Hold)|].
  split.
  { apply Forall_app. split; [|now repeat constructor].
    eapply Forall_impl; [|exact Hmax]. intros x Hx.
    exact (QArith_base.Qle_trans _ _ _ Hx Hold). }
  split.
  { destruct Hor as [-> | ->].
    - destruct Hwhich as [Hwhich|Hwhich]; [now left|right].
      apply in_or_app. now left.
    - right. apply in_or_app. right. now left. }
  destruct (above_zero d) eqn:Hpositive.
  - destruct (min_processing_time m) as [least|].
    + destruct Hmin as (Hin & Hleast & Hall).
      destruct (py_min_spec least d) as (Hle1 & Hle2 & Hor').
      split; [|split].
      * destruct Hor' as [-> | ->]; apply in_or_app;
          [now left|right; now left].
      * now destruct Hor' as [-> | ->].
      * apply Forall_app. split; [|now repeat constructor].
        eapply Forall_impl; [|exact Hall]. intros x Hx Hpos.
        exact (QArith_base.Qle_trans _ _ _ Hle1 (Hx Hpos)).
    + split; [apply in_or_app; right; now left|]. split; [exact Hpositive|].
      apply Forall_app. split.
      * eapply Forall_impl; [|exact Hmin]. intros x Hx Hpos. congruence.
      * repeat constructor. intros _. apply QArith_base.Qle_refl.
  - destruct (min_processing_time m) as [least|].
    + destruct Hmin as (Hin & Hleast & Hall).
      split; [apply in_or_app; now left|]. split; [exact Hleast|].
      apply Forall_app. split; [exact Hall|].
      repeat constructor. intros Hpos. congruence.
    + apply Forall_app. split; [exact Hmin|now repeat constructor].
Qed.

(** X17.  The largest and the least processing time cover every time
    ever recorded, not only the thousand of the window.  The largest is
    never below zero, where it starts, and no recorded time is above it;
    the least is the least of the times above zero, and stays at
    infinity until such a time is recorded: a time of zero or less
    counts for the largest but not for the least. *)
Theorem processing_time_extremes_cover_all_times (ds : list Duration) :
  extremes_of ds (fold_left record_processing_time ds MetricsCollector_init).
Proof.
  assert (forall m xs,
             extremes_of xs m ->
             extremes_of (xs ++ ds) (fold_left record_processing_time ds m))
    as Hfold.
  { induction ds as [|d ds IH]; intros m xs Hm.
    - now rewrite app_nil_r.
    - cbn [fold_left].
      replace (xs ++ d :: ds) with ((xs ++ [d]) ++ ds)
        by (now rewrite <- app_assoc).
      apply IH. now apply record_processing_time_extremes. }
  apply (Hfold MetricsCollector_init []).
  unfold extremes_of. cbn. repeat split; auto.
  apply QArith_base.Qle_refl.
Qed.

Lemma dict_get_set {V : Type} (k k' : string) (v : V)
    (d : list (string * V)) :
  dict_get k' (dict_set k v d)
  = if String.eqb k k' then Some v else dict_get k' d.
Proof.
  induction d as [|[k0 v0] d IH]; cbn [dict_set dict_get].
  - reflexivity.
  - destruct (String.eqb_spec k0 k) as [->|Hne]; cbn [dict_get].
    + now destruct (String.eqb k k').
    + rewrite IH. destruct (String.eqb_spec k0 k') as [->|Hne'];
        [|reflexivity].
      apply String.eqb_neq in Hne. rewrite String.eqb_sym in Hne.
      now rewrite Hne.
Qed.

Lemma keys_dict_set {V : Type} (k : string) (v : V) (d : list (string * V)) :
  dict_mem k d = true -> keys (dict_set k v d) = keys d.
Proof.
  unfold dict_mem, keys.
  induction d as [|[k0 v0] d IH]; cbn [dict_set dict_get map fst];
    [discriminate|].
  destruct (String.eqb_spec k0 k) as [->|Hne]; [reflexivity|].
  intros Hmem. cbn [map fst]. now rewrite IH.
Qed.

Lemma dict_get_keys {V : Type} (k : string) (d : list (string * V)) :
  dict_get k d = None <-> ~ In k (keys d).
Proof.
  unfold keys. induction d as [|[k0 v0] d IH]; cbn [dict_get map fst In].
  - tauto.
  - destruct (String.eqb_spec k0 k) as [->|Hne].
    + split; [discriminate|]. intros H. exfalso. apply H. now left.
    + rewrite IH. tauto.
Qed.

Lemma keys_add_if_known (radio : string) (count : Z)
    (d : list (string * Z)) :
  keys (add_if_known radio count d) = keys d.
Proof.
  unfold add_if_known. destruct (dict_get radio d) as [n|] eqn:Hget;
    [|reflexivity].
  apply keys_dict_set. unfold dict_mem. now rewrite Hget.
Qed.

(** The per-radio counters have the two keys [__init__] gives them. *)
Lemma collect_keeps_two_radios (duration_ms : Duration)
    (calls : list Event) :
  forall m,
    let m' := collect_all duration_ms m calls in
    keys (messages_received_total m') = keys (messages_received_total m)
    /\ keys (messages_sent_total m') = keys (messages_sent_total m)
    /\ keys (messages_errors_total m') = keys (messages_errors_total m).
Proof.
  unfold collect_all.
  induction calls as [|e calls IH]; intros m; [now cbn|].
  cbn [fold_left]. cbn zeta in IH.
  destruct (IH (collect duration_ms m e)) as (-> & -> & ->).
  destruct e; cbn -[keys add_if_known]; rewrite ?keys_add_if_known; auto.
Qed.

Lemma radio_name_beyond_two (idx : nat) :
  2 <= idx -> ~ In (radio_name idx) ["radio1"; "radio2"].
Proof.
  intros Hidx [H|[H|[]]].
  - change "radio1" with (radio_name 0) in H.
    apply radio_name_inj in H. lia.
  - change "radio2" with (radio_name 1) in H.
    apply radio_name_inj in H. lia.
Qed.

Lemma add_if_known_counts (k : string) (d : list (string * Z)) :
  In k (keys d) ->
  exists n, dict_get k d = Some n
            /\ dict_get k (add_if_known k 1 d) = Some (n + 1)%Z.
Proof.
  intros Hin. destruct (dict_get k d) as [n|] eqn:Hget.
  - exists n. split; [reflexivity|]. unfold add_if_known.
    now rewrite Hget, dict_get_set, String.eqb_refl.
  - apply dict_get_keys in Hget. contradiction.
Qed.

(** X18.  The collector counts per radio for [radio1] and [radio2] only,
    whatever number of radios the bridge has: after any calls of the
    router, a message received on, sent to or failed on the third radio
    or a later one changes nothing in the collector, while for the first
    two radios the counter of that radio, for messages received, for
    messages sent or for errors, goes up by one. *)
Theorem per_radio_metrics_count_two_radios_only (duration_ms : Duration)
    (calls : list Event) (idx : nat) :
  let m := collect_all duration_ms MetricsCollector_init calls in
  if (idx <? 2)%nat then
    exists received sent errors : Z,
      (dict_get (radio_name idx) (messages_received_total m) = Some received
       /\ dict_get (radio_name idx) (messages_sent_total m) = Some sent
       /\ dict_get (radio_name idx) (messages_errors_total m) = Some errors)
      /\ dict_get (radio_name idx)
                  (messages_received_total
                     (collect duration_ms m (MetricsReceived idx)))
         = Some (received + 1)%Z
      /\ dict_get (radio_name idx)
                  (messages_sent_total
                     (collect duration_ms m (MetricsSent idx)))
         = Some (sent + 1)%Z
      /\ dict_get (radio_name idx)
                  (messages_errors_total
                     (collect duration_ms m (MetricsErrors idx)))
         = Some (errors + 1)%Z
  else
    collect duration_ms m (MetricsReceived idx) = m
    /\ collect duration_ms m (MetricsSent idx) = m
    /\ collect duration_ms m (MetricsErrors idx) = m.
Proof.
  cbn zeta.
  destruct (collect_keeps_two_radios duration_ms calls MetricsCollector_init)
    as (Hreceived & Hsent & Herrors).
  set (m := collect_all duration_ms MetricsCollector_init calls) in *.
  cbn [MetricsCollector_init messages_received_total messages_sent_total
       messages_errors_total keys map fst] in Hreceived, Hsent, Herrors.
  destruct (Nat.ltb_spec idx 2) as [Hidx|Hidx].
  - assert (In (radio_name idx) ["radio1"; "radio2"]) as Hin.
    { destruct idx as [|[|idx]]; [now left|right; now left|lia]. }
    destruct (add_if_known_counts (radio_name idx)
                (messages_received_total m)) as (r & Hr & Hr');
      [now rewrite Hreceived|].
    destruct (add_if_known_counts (radio_name idx)
                (messages_sent_total m)) as (s & Hs & Hs');
      [now rewrite Hsent|].
    destruct (add_if_known_counts (radio_name idx)
                (messages_errors_total m)) as (e & He & He');
      [now rewrite Herrors|].
    exists r, s, e. auto 6.
  - pose proof (radio_name_beyond_two idx Hidx) as Hnot.
    assert (dict_get (radio_name idx) (messages_received_total m) = None)
      as Hr by (apply dict_get_keys; now rewrite Hreceived).
    assert (dict_get (radio_name idx) (messages_sent_total m) = None)
      as Hs by (apply dict_get_keys; now rewrite Hsent).
    assert (dict_get (radio_name idx) (messages_errors_total m) = None)
      as He by (apply dict_get_keys; now rewrite Herrors).
    unfold collect, increment_received, increment_sent, increment_errors,
      add_if_known. rewrite Hr, Hs, He.
    repeat split; destruct m; reflexivity.
Qed.

(** X19.  [increment_node_messages] adds the count to the node's counter,
    which starts at zero for a node not seen before, and leaves the
    counter of every other node as it is. *)
Theorem increment_node_messages_counts_the_node (m : MetricsCollector)
    (node_id : string) (count : Z) :
  let m' := increment_node_messages m node_id count in
  dict_get node_id (node_message_counts m')
  = Some (get (dict_get node_id (node_message_counts m)) 0 + count)%Z
  /\ (forall other,
        other <> node_id ->
        dict_get other (node_message_counts m')
        = dict_get other (node_message_counts m))
  /\ (dict_mem node_id (node_message_counts m) = true ->
      keys (node_message_counts m') = keys (node_message_counts m)).
Proof.
  cbn zeta. unfold increment_node_messages. cbn [node_message_counts].
  set (d := node_message_counts m).
  split; [|split].
  - rewrite dict_get_set, String.eqb_refl.
    unfold dict_mem. destruct (dict_get node_id d) as [n|] eqn:Hget.
    + now rewrite Hget.
    + now rewrite dict_get_set, String.eqb_refl.
  - intros other Hother.
    apply String.eqb_neq in Hother. rewrite String.eqb_sym in Hother.
    rewrite dict_get_set, Hother.
    unfold dict_mem. destruct (dict_get node_id d) as [n|]; [reflexivity|].
    now rewrite dict_get_set, Hother.
  - intros Hmem. rewrite Hmem. now apply keys_dict_set.
Qed.

Lemma collect_all_totals (duration_ms : Duration) (calls : list Event) :
  forall m,
    let m' := collect_all duration_ms m calls in
    (messages_forwarded_total m'
     = messages_forwarded_total m
       + Z.of_nat (count is_metrics_forwarded calls))%Z
    /\ (messages_dropped_total m'
        = messages_dropped_total m
          + Z.of_nat (count is_metrics_dropped calls))%Z
    /\ (messages_filtered_total m'
        = messages_filtered_total m
          + Z.of_nat (count is_metrics_filtered calls))%Z.
Proof.
  unfold collect_all, count.
  induction calls as [|e calls IH]; intros m.
  { cbn. repeat split; lia. }
  cbn [fold_left]. cbn zeta in IH.
  destruct (IH (collect duration_ms m e)) as (-> & -> & ->).
  destruct e; cbn [collect filter is_metrics_forwarded is_metrics_dropped
                   is_metrics_filtered List.length];
    cbn -[Z.add Z.of_nat]; repeat split; lia.
Qed.

Section PassMetrics.
Context {lib : PyLib}.

(** X20.  What a pass on a message that is new and passes the filter
    leaves in the collector of a bridge with metrics, when saving the
    message returns: the forwarded total has grown by the number of
    radios that took the message, the dropped total by the number of
    radios whose [sendText] raised, the two together by one less than
    the number of radios, and the filtered total not at all. *)
Theorem pass_metrics_count_each_target_once (b : Bridge) (now : Z)
    (packet : Packet) (source_idx : nat) (tm : TextMessage)
    (duration_ms : Duration) (m : MetricsCollector) :
  extract_text_message packet = Some tm ->
  passes b now tm = true ->
  database_returns b (tm_id tm) = true ->
  source_idx < List.length (interfaces b) ->
  metrics b = true ->
  let calls := snd (_handle_message b now packet source_idx) in
  let m' := collect_all duration_ms m calls in
  (messages_forwarded_total m'
   = messages_forwarded_total m + Z.of_nat (count is_delivery calls))%Z
  /\ (messages_dropped_total m'
      = messages_dropped_total m + Z.of_nat (count is_failure calls))%Z
  /\ (messages_forwarded_total m' + messages_dropped_total m'
      = messages_forwarded_total m + messages_dropped_total m
        + Z.of_nat (List.length (interfaces b) - 1))%Z
  /\ messages_filtered_total m' = messages_filtered_total m.
Proof.
  intros Hextract Hpasses Hreturns Hsource Hmetrics. cbn zeta.
  destruct (collect_all_totals duration_ms
              (snd (_handle_message b now packet source_idx)) m)
    as (-> & -> & ->).
  rewrite (_handle_message_passes _ _ _ _ _ Hextract Hpasses).
  destruct (apply_filter_frame b tm) as (Hlinks & _ & _ & Hsame & _).
  destruct (apply_filter_database b tm (tm_id tm)) as [Hdb _].
  rewrite <- Hdb in Hreturns.
  assert (source_idx < List.length (interfaces (snd (apply_filter b tm))))
    as Hsource' by now rewrite Hlinks.
  destruct (record_and_forward_counts (snd (apply_filter b tm)) now tm
              source_idx Hreturns Hsource')
    as (Hall & Hforwarded & Hdropped & _ & Hfiltered).
  rewrite Hsame, Hmetrics in Hforwarded, Hdropped. rewrite Hlinks in Hall.
  rewrite Hforwarded, Hdropped, Hfiltered.
  repeat split; lia.
Qed.

End PassMetrics.
(* ================================================================== *)
(** * The configuration *)

Lemma str_split_cons (sep : ascii) (s : string) :
  exists part parts, str_split sep s = part :: parts.
Proof.
  induction s as [|c s IH]; cbn [str_split]; [eauto|].
  destruct (Ascii.eqb c sep); [eauto|].
  destruct IH as (part & parts & ->). eauto.
Qed.

Lemma dict_get_mem {V : Type} (k : string) (d : list (string * V)) :
  dict_mem k d = false <-> dict_get k d = None.
Proof.
  unfold dict_mem. destruct (dict_get k d); split; congruence.
Qed.

Lemma walk_cons (k : string) (keys : list string)
    (entries : list (string * Value)) :
  BridgeConfig.walk (k :: keys) (VDict entries)
  = match dict_get k entries with
    | Some v => BridgeConfig.walk keys v
    | None => None
    end.
Proof. reflexivity. Qed.

Lemma put_walk (value : Value) (rest : list string) :
  forall k config config',
    BridgeConfig.put k rest value config = Ok config' ->
    BridgeConfig.walk (k :: rest) (VDict config') = Some value.
Proof.
  induction rest as [|k' rest IH]; intros k config config';
    cbn [BridgeConfig.put].
  - intros [= <-]. cbn [BridgeConfig.walk].
    now rewrite dict_get_set, String.eqb_refl.
  - set (config1 := if dict_mem k config then config else _).
    destruct (dict_get k config1) as [[| | | | | |inner]|]; try discriminate.
    destruct (BridgeConfig.put k' rest value inner) as [inner'|e] eqn:Hput;
      cbn [bindE]; [|discriminate].
    intros [= <-].
    rewrite walk_cons, dict_get_set, String.eqb_refl. exact (IH _ _ _ Hput).
Qed.

Lemma walk_empty (q : list string) :
  q <> [] -> BridgeConfig.walk q (VDict []) = None.
Proof. destruct q; [congruence|reflexivity]. Qed.

Lemma diverge_cons (p q : list string) :
  diverge p q = true -> p <> [] /\ q <> [].
Proof. destruct p, q; cbn; split; congruence. Qed.

Lemma put_frame (value : Value) (rest : list string) :
  forall k config config' q,
    BridgeConfig.put k rest value config = Ok config' ->
    diverge (k :: rest) q = true ->
    BridgeConfig.walk q (VDict config') = BridgeConfig.walk q (VDict config).
Proof.
  induction rest as [|k' rest IH]; intros k config config' [|b q];
    cbn [BridgeConfig.put diverge]; try discriminate.
  - intros [= <-]. destruct (String.eqb k b) eqn:Hkb; [now destruct q|].
    intros _. cbn [BridgeConfig.walk]. now rewrite dict_get_set, Hkb.
  - set (config1 := if dict_mem k config then config else _).
    destruct (dict_get k config1) as [[| | | | | |inner]|] eqn:Hinner;
      try discriminate.
    destruct (BridgeConfig.put k' rest value inner) as [inner'|e] eqn:Hput;
      cbn [bindE]; [|discriminate].
    intros [= <-] Hdiverge. cbn [BridgeConfig.walk].
    rewrite dict_get_set.
    assert (String.eqb k b = false -> dict_get b config1 = dict_get b config)
      as Hother.
    { intros Hkb. subst config1. destruct (dict_mem k config); [reflexivity|].
      now rewrite dict_get_set, Hkb. }
    destruct (String.eqb_spec k b) as [<-|Hkb].
    + rewrite (IH _ _ _ _ Hput Hdiverge).
      subst config1. destruct (dict_mem k config) eqn:Hmem.
      * now rewrite Hinner.
      * rewrite dict_get_set, String.eqb_refl in Hinner.
        injection Hinner as <-.
        apply dict_get_mem in Hmem. rewrite Hmem.
        apply walk_empty.
        exact (proj2 (diverge_cons (k' :: rest) q Hdiverge)).
    + apply String.eqb_neq in Hkb. now rewrite Hother.
Qed.

(** X21.  What [set] has written, [get] reads back under the same key,
    whatever the default: a key that [set] accepts holds the value
    afterwards, dictionaries having been made on the way where the path
    did not exist. *)
Theorem get_returns_what_set_wrote (config config' : list (string * Value))
    (key : string) (value default : Value) :
  BridgeConfig.set config key value = Ok config' ->
  BridgeConfig.get config' key default = value.
Proof.
  unfold BridgeConfig.set, BridgeConfig.get.
  destruct (str_split_cons "." key) as (k & rest & ->).
  intros Hput. now rewrite (put_walk _ _ _ _ _ Hput).
Qed.

(** X22.  [set] leaves every other setting as it was: a key whose path
    parts ways with the path written, at a point where both have a part
    and the parts differ, reads the same value before and after. *)
Theorem set_leaves_other_keys (config config' : list (string * Value))
    (key other : string) (value default : Value) :
  BridgeConfig.set config key value = Ok config' ->
  diverge (str_split "." key) (str_split "." other) = true ->
  BridgeConfig.get config' other default
  = BridgeConfig.get config other default.
Proof.
  unfold BridgeConfig.set, BridgeConfig.get.
  destruct (str_split_cons "." key) as (k & rest & ->).
  intros Hput Hdiverge. now rewrite (put_frame _ _ _ _ _ _ Hput Hdiverge).
Qed.

Lemma put_raises (value : Value) (rest : list string) :
  forall k config,
    (exists config', BridgeConfig.put k rest value config = Ok config'
                     /\ Forall (fun n =>
                                  match BridgeConfig.walk
                                          (firstn n (k :: rest))
                                          (VDict config) with
                                  | Some v => is_dict v = true
                                  | None => True
                                  end)
                               (seq 1 (List.length rest)))
    \/ (BridgeConfig.put k rest value config = Raise TypeError
        /\ Exists (fun n =>
                     match BridgeConfig.walk (firstn n (k :: rest))
                                             (VDict config) with
                     | Some v => is_dict v = false
                     | None => False
                     end)
                  (seq 1 (List.length rest))).
Proof.
  induction rest as [|k' rest IH]; intros k config.
  { left. cbn. eauto. }
  cbn [BridgeConfig.put List.length seq].
  assert (forall n,
             BridgeConfig.walk (firstn (S (S n)) (k :: k' :: rest))
                               (VDict config)
             = match dict_get k config with
               | Some v => BridgeConfig.walk (firstn (S n) (k' :: rest)) v
               | None => None
               end) as Hstep by reflexivity.
  assert (BridgeConfig.walk (firstn 1 (k :: k' :: rest)) (VDict config)
          = dict_get k config) as Hfirst.
  { cbn. now destruct (dict_get k config). }
  destruct (dict_mem k config) eqn:Hmem.
  - unfold dict_mem in Hmem.
    destruct (dict_get k config) as [v|] eqn:Hget; [|discriminate].
    destruct v as [| | | | | |inner];
      try (right; split; [reflexivity|];
           apply Exists_cons_hd; now rewrite Hfirst).
    destruct (IH k' inner) as [(inner' & -> & Hall)|(-> & Hsome)];
      cbn [bindE].
    + left. eexists. split; [reflexivity|].
      constructor; [now rewrite Hfirst|].
      rewrite <- seq_shift, Forall_map.
      eapply Forall_impl; [|exact Hall]. intros n Hn.
      destruct n as [|n]; [|now rewrite Hstep].
      cbn. now rewrite Hget.
    + right. split; [reflexivity|]. apply Exists_cons_tl.
      rewrite <- seq_shift, Exists_map.
      eapply Exists_impl; [|exact Hsome]. intros n Hn.
      destruct n as [|n]; [|now rewrite Hstep].
      cbn in Hn. discriminate.
  - apply dict_get_mem in Hmem.
    rewrite dict_get_set, String.eqb_refl.
    destruct (IH k' []) as [(inner' & -> & _)|(_ & Hsome)]; cbn [bindE].
    + left. eexists. split; [reflexivity|].
      constructor; [now rewrite Hfirst, Hmem|].
      rewrite <- seq_shift, Forall_map. apply Forall_forall. intros n _.
      destruct n as [|n]; [cbn; now rewrite Hmem|].
      now rewrite Hstep, Hmem.
    + exfalso. apply Exists_exists in Hsome.
      destruct Hsome as (n & Hn & Hwalk). apply in_seq in Hn.
      destruct n as [|n]; [lia|]. cbn in Hwalk. exact Hwalk.
Qed.

(** X23.  [set] fails exactly when the path runs into a value that is
    not a dictionary before its last part: that is a [TypeError], and
    otherwise [set] returns.  A key without dots has no such part and is
    always accepted. *)
Theorem set_raises_iff_path_meets_a_leaf (config : list (string * Value))
    (key : string) (value : Value) :
  let path := str_split "." key in
  let meets_leaf n :=
    match BridgeConfig.walk (firstn n path) (VDict config) with
    | Some v => is_dict v = false
    | None => False
    end in
  (BridgeConfig.set config key value = Raise TypeError
   <-> Exists meets_leaf (seq 1 (List.length path - 1)))
  /\ ((exists config', BridgeConfig.set config key value = Ok config')
      \/ BridgeConfig.set config key value = Raise TypeError).
Proof.
  cbn zeta. unfold BridgeConfig.set.
  destruct (str_split_cons "." key) as (k & rest & ->).
  replace (List.length (k :: rest) - 1) with (List.length rest)
    by (cbn [List.length]; lia).
  destruct (put_raises value rest k config)
    as [(config' & Hput & Hall)|(Hput & Hsome)]; rewrite Hput.
  - split; [|left; eauto]. split; [discriminate|].
    intros Hsome. exfalso. apply Exists_exists in Hsome.
    destruct Hsome as (n & Hn & Hleaf).
    rewrite Forall_forall in Hall. specialize (Hall n Hn).
    destruct (BridgeConfig.walk _ _); [congruence|exact Hleaf].
  - split; [|now right]. split; auto.
Qed.

Lemma merge_value_dicts (b o : list (string * Value)) :
  merge_value (VDict b) (VDict o) = VDict (BridgeConfig._merge_configs b o).
Proof.
  unfold BridgeConfig._merge_configs. cbn [merge_value]. f_equal.
  revert b. induction o as [|[key value] o IH]; intros b; [reflexivity|].
  cbn [fold_left BridgeConfig.merge_item]. apply IH.
Qed.

Lemma merge_item_other (result : list (string * Value)) (key k : string)
    (value : Value) :
  String.eqb key k = false ->
  dict_get k (BridgeConfig.merge_item result (key, value)) = dict_get k result.
Proof.
  intros Hk. cbn [BridgeConfig.merge_item]. now rewrite dict_get_set, Hk.
Qed.

Lemma _merge_configs_untouched (override : list (string * Value))
    (k : string) :
  forall base,
    dict_get k override = None ->
    dict_get k (BridgeConfig._merge_configs base override) = dict_get k base.
Proof.
  unfold BridgeConfig._merge_configs.
  induction override as [|[key value] override IH]; intros base Hk;
    [reflexivity|].
  cbn [dict_get] in Hk. destruct (String.eqb key k) eqn:Hkey; [discriminate|].
  cbn [fold_left]. rewrite (IH _ Hk). now apply merge_item_other.
Qed.

Lemma _merge_configs_get (override : list (string * Value)) (k : string) :
  forall base,
    NoDup (keys override) ->
    dict_get k (BridgeConfig._merge_configs base override)
    = match dict_get k override with
      | None => dict_get k base
      | Some value =>
          Some (match dict_get k base with
                | Some r => merge_value r value
                | None => value
                end)
      end.
Proof.
  unfold BridgeConfig._merge_configs.
  induction override as [|[key value] override IH]; intros base Hkeys;
    [reflexivity|].
  cbn [keys map fst] in Hkeys. inversion Hkeys as [|? ? Hfresh Hrest]; subst.
  cbn [fold_left dict_get].
  destruct (String.eqb_spec key k) as [->|Hne].
  - apply dict_get_keys in Hfresh.
    fold (BridgeConfig._merge_configs
            (BridgeConfig.merge_item base (k, value)) override).
    rewrite (_merge_configs_untouched _ _ _ Hfresh).
    cbn [BridgeConfig.merge_item].
    now rewrite dict_get_set, String.eqb_refl.
  - apply String.eqb_neq in Hne.
    rewrite (IH _ Hrest), (merge_item_other _ _ _ _ Hne). reflexivity.
Qed.

(** X24.  [_merge_configs] key by key.  A key the override does not have
    keeps the base's value.  A key the override has takes the override's
    value, except that two dictionaries are merged in their turn: a key
    is replaced as a whole only when one of the two values is not a
    dictionary. *)
Theorem merge_configs_key_by_key (base override : list (string * Value))
    (k : string) :
  NoDup (keys override) ->
  dict_get k (BridgeConfig._merge_configs base override)
  = match dict_get k override, dict_get k base with
    | None, from_base => from_base
    | Some (VDict o), Some (VDict b) =>
        Some (VDict (BridgeConfig._merge_configs b o))
    | Some value, _ => Some value
    end.
Proof.
  intros Hkeys. rewrite (_merge_configs_get _ _ _ Hkeys).
  destruct (dict_get k override) as [value|]; [|reflexivity].
  destruct (dict_get k base) as [r|]; [|now destruct value].
  destruct r, value; try reflexivity.
  now rewrite merge_value_dicts.
Qed.

Lemma str_split_free (sep : ascii) (s : string) :
  free_of sep s = true -> str_split sep s = [s].
Proof.
  induction s as [|c s IH]; cbn [free_of str_split]; [reflexivity|].
  destruct (Ascii.eqb c sep); [discriminate|]. cbn [negb andb].
  intros Hfree. now rewrite (IH Hfree).
Qed.

Lemma str_split_app (sep : ascii) (s t : string) :
  free_of sep s = true ->
  str_split sep (s ++ String sep t) = s :: str_split sep t.
Proof.
  induction s as [|c s IH]; cbn [free_of append str_split].
  - now rewrite Ascii.eqb_refl.
  - destruct (Ascii.eqb c sep); [discriminate|]. cbn [negb andb].
    intros Hfree. now rewrite (IH Hfree).
Qed.

(** X25.  A file that overrides part of a section leaves the rest of the
    section at its defaults: a setting the override's section does not
    mention reads after the merge as it reads in the base. *)
Theorem merge_configs_keeps_unmentioned_settings
    (base override section : list (string * Value)) (s k : string)
    (default : Value) :
  NoDup (keys override) ->
  dict_get s override = Some (VDict section) ->
  dict_get k section = None ->
  free_of "." s = true ->
  free_of "." k = true ->
  BridgeConfig.get (BridgeConfig._merge_configs base override)
                   (s ++ "." ++ k) default
  = BridgeConfig.get base (s ++ "." ++ k) default.
Proof.
  intros Hkeys Hsection Hk Hs Hfree. unfold BridgeConfig.get.
  change (s ++ "." ++ k)%string with (s ++ String "." k)%string.
  rewrite (str_split_app _ _ _ Hs), (str_split_free _ _ Hfree).
  rewrite !walk_cons, (_merge_configs_get _ _ _ Hkeys), Hsection.
  destruct (dict_get s base) as [[| | | | | |b]|]; cbn [merge_value];
    try (cbn; now rewrite Hk).
  change (match BridgeConfig.walk [k]
                  (merge_value (VDict b) (VDict section)) with
          | Some value => value
          | None => default
          end
          = match BridgeConfig.walk [k] (VDict b) with
            | Some value => value
            | None => default
            end).
  rewrite merge_value_dicts, !walk_cons.
  now rewrite (_merge_configs_untouched _ _ _ Hk).
Qed.

(** X26.  The defaults validate without a warning, whatever the file
    system holds, and so does every configuration made by merging into
    them a file that has none of the sections [bridge], [mqtt],
    [database], [web] and [metrics]. *)
Theorem validate_accepts_the_defaults (path_exists : string -> bool)
    (dirname : string -> string) (override : list (string * Value)) :
  Forall (fun s => dict_get s override = None)
         ["bridge"; "mqtt"; "database"; "web"; "metrics"] ->
  BridgeConfig.validate path_exists dirname
    (BridgeConfig._merge_configs BridgeConfig.DEFAULT_CONFIG override)
  = Ok [].
Proof.
  intros Hsections.
  repeat match goal with
         | H : Forall _ (_ :: _) |- _ => inversion H; subst; clear H
         end.
  unfold BridgeConfig.validate, BridgeConfig.get.
  cbn [str_split Ascii.eqb Bool.eqb].
  rewrite !walk_cons.
  repeat match goal with
         | H : dict_get ?s override = None |- _ =>
             rewrite (_merge_configs_untouched _ _ _ H); clear H
         end.
  reflexivity.
Qed.
(* ================================================================== *)
(** * The MQTT bridge *)

Lemma append_assoc (s t u : string) :
  ((s ++ t) ++ u = s ++ (t ++ u))%string.
Proof. induction s as [|c s IH]; cbn; [reflexivity|now rewrite IH]. Qed.

Lemma prefix_append (p s : string) :
  prefix p s = true -> exists rest, s = (p ++ rest)%string.
Proof.
  revert s. induction p as [|c p IH]; intros s.
  - intros _. now exists s.
  - destruct s as [|c' s]; cbn [prefix append]; [discriminate|].
    destruct (Ascii.ascii_dec c c') as [<-|Hne]; [|discriminate].
    intros Hp. destruct (IH _ Hp) as [rest ->]. now exists rest.
Qed.

Lemma prefix_common (p x y : string) :
  prefix (p ++ x) (p ++ y) = prefix x y.
Proof.
  induction p as [|c p IH]; cbn [append prefix]; [reflexivity|].
  destruct (Ascii.ascii_dec c c); [exact IH|congruence].
Qed.

Lemma str_split_length (sep : ascii) (s : string) :
  1 <= List.length (str_split sep s).
Proof.
  destruct (str_split_cons sep s) as (part & parts & ->). cbn. lia.
Qed.

Section MqttCommands.
Context {json : JsonLib}.

(** X27.  With a topic prefix of two levels, as the default
    [meshtastic/bridge] is, no message from the broker reaches the
    callback, whatever its topic and payload: the third level of a
    command topic, which [_handle_command] takes for the command, is
    the word [command] itself. *)
Theorem two_level_prefix_never_reaches_callback (self : MQTTBridge.t)
    (a b topic : string) (payload : list byte) :
  MQTTBridge.topic_prefix self = (a ++ "/" ++ b)%string ->
  free_of "/" a = true ->
  free_of "/" b = true ->
  snd (MQTTBridge._on_message self topic payload) = [].
Proof.
  intros Hprefix Ha Hb. unfold MQTTBridge._on_message.
  destruct (bytes_decode Strict payload) as [text|e]; [|reflexivity].
  destruct (prefix _ topic) eqn:Htopic; [|reflexivity].
  apply prefix_append in Htopic. destruct Htopic as [rest ->].
  cbn [MQTTBridge.topic_prefix MQTTBridge.incr_received
       MQTTBridge.with_stats].
  unfold MQTTBridge._handle_command.
  rewrite Hprefix, !append_assoc.
  change ("/" ++ b ++ "/command/" ++ rest)%string
    with (String "/" (b ++ String "/" ("command" ++ String "/" rest))).
  rewrite (str_split_app _ _ _ Ha), (str_split_app _ _ _ Hb).
  rewrite (str_split_app "/" "command" rest eq_refl).
  pose proof (str_split_length "/" rest) as Hlen.
  cbn [List.length nth].
  replace (S (S (S (List.length (str_split "/" rest)))) <? 3)%nat
    with false by (symmetry; apply Nat.ltb_ge; lia).
  reflexivity.
Qed.

(** X28.  With a topic prefix of one level, a message on the prefix's
    [command/send] topic, or below it, reaches the callback when its
    payload is an object or is not JSON at all: an object gives the
    text, the radio and the channel, each with its default (the payload
    itself, [radio1] and 0); a payload for which [json.loads] raises
    [JSONDecodeError] is sent as it is.  A payload that is JSON but not
    an object, and a payload for which [json.loads] raises anything
    else, is counted as an error and sends nothing.  The message is
    counted as received in every case. *)
Theorem one_level_prefix_send_command (self : MQTTBridge.t)
    (rest text : string) (payload : list byte) :
  free_of "/" (MQTTBridge.topic_prefix self) = true ->
  MQTTBridge.message_callback self = true ->
  bytes_decode Strict payload = Ok text ->
  hd EmptyString (str_split "/" rest) = "send" ->
  let topic := (MQTTBridge.topic_prefix self ++ "/command/" ++ rest)%string in
  let self1 := MQTTBridge.incr_received self in
  MQTTBridge._on_message self topic payload
  = match json_loads text with
    | Ok (VDict data) =>
        (self1,
         [ {| MQTTBridge.cmd_text :=
                dict_get_default "text" (VStr text) data;
              MQTTBridge.cmd_radio :=
                dict_get_default "radio" (VStr "radio1") data;
              MQTTBridge.cmd_channel :=
                dict_get_default "channel" (VInt 0) data |} ])
    | Ok _ => (MQTTBridge.incr_errors self1, [])
    | Raise JSONDecodeError =>
        (self1,
         [ {| MQTTBridge.cmd_text := VStr text;
              MQTTBridge.cmd_radio := VStr "radio1";
              MQTTBridge.cmd_channel := VInt 0 |} ])
    | Raise _ => (MQTTBridge.incr_errors self1, [])
    end.
Proof.
  intros Hprefix Hcallback Hdecode Hsend. cbn zeta.
  unfold MQTTBridge._on_message. rewrite Hdecode.
  replace (prefix (MQTTBridge.topic_prefix self ++ "/command/")
                  (MQTTBridge.topic_prefix self ++ "/command/" ++ rest))
    with true.
  2:{ symmetry. rewrite prefix_common. now destruct rest. }
  unfold MQTTBridge._handle_command.
  cbn [MQTTBridge.message_callback MQTTBridge.incr_received
       MQTTBridge.with_stats].
  change ("/command/" ++ rest)%string
    with (String "/" ("command" ++ String "/" rest)).
  rewrite (str_split_app _ _ _ Hprefix).
  rewrite (str_split_app "/" "command" rest eq_refl).
  destruct (str_split_cons "/" rest) as (part & parts & Hrest).
  rewrite Hrest in *. cbn [hd] in Hsend. subst part.
  cbn [List.length nth Nat.ltb Nat.leb String.eqb Ascii.eqb Bool.eqb andb].
  rewrite Hcallback. unfold MQTTBridge.send_command.
  destruct (json_loads text) as [[]|[]]; reflexivity.
Qed.

(** X29.  What the bridge publishes never comes back as a command: with
    Home Assistant discovery off, none of the topics [publish_message]
    publishes on is a command topic, so the bridge's own messages,
    delivered back by the broker, reach no callback; and a message is
    counted as published once, not once per topic. *)
Theorem published_topics_are_not_commands (self : MQTTBridge.t)
    (from_node text : string) (channel : Z) (direction : string) :
  MQTTBridge.homeassistant_discovery self = false ->
  let self' :=
    fst (MQTTBridge.publish_message self from_node text channel direction) in
  let published :=
    snd (MQTTBridge.publish_message self from_node text channel direction) in
  Forall (fun p =>
            MQTTBridge.is_command_topic self' (MQTTBridge.pub_topic p) = false
            /\ forall payload,
                 snd (MQTTBridge._on_message self' (MQTTBridge.pub_topic p)
                                             payload) = [])
         published
  /\ (List.length published = 0 \/ List.length published = 3)
  /\ MQTTBridge.published (MQTTBridge.stats self')
     = MQTTBridge.published (MQTTBridge.stats self)
       + (if nonempty published then 1 else 0).
Proof.
  intros Hdiscovery. cbn zeta. unfold MQTTBridge.publish_message.
  rewrite Hdiscovery.
  destruct (negb (MQTTBridge.connected self));
    [cbn; repeat split; auto; lia|].
  destruct (_ && _); [cbn; repeat split; auto; lia|].
  destruct (_ && _); [cbn; repeat split; auto; lia|].
  cbn [fst snd app List.length nonempty].
  split; [|split; [now right|cbn; lia]].
  assert (forall topic,
             prefix (MQTTBridge.topic_prefix self ++ "/command/") topic
             = false ->
             MQTTBridge.is_command_topic (MQTTBridge.incr_published self)
                                         topic = false
             /\ forall payload,
                  snd (MQTTBridge._on_message
                         (MQTTBridge.incr_published self) topic payload)
                  = []) as Hquiet.
  { intros topic Htopic. split; [exact Htopic|]. intros payload.
    unfold MQTTBridge._on_message.
    destruct (bytes_decode Strict payload); [|reflexivity].
    cbn [MQTTBridge.topic_prefix MQTTBridge.incr_published
         MQTTBridge.with_stats].
    now rewrite Htopic. }
  repeat (apply Forall_cons || apply Forall_nil);
    cbn [MQTTBridge.pub_topic]; apply Hquiet; rewrite prefix_common;
    reflexivity.
Qed.

End MqttCommands.
(* ================================================================== *)
(** * The further properties at work *)

Lemma add_rule_inserts_by_priority_witness :
  let f := example_filter in
  let rule := rule_of_data bad_sender_rule in
  StronglySorted by_priority (custom_rules f)
  /\ exists pre post,
       custom_rules f = pre ++ post
       /\ add_rule f rule = with_rules f (pre ++ rule :: post)
       /\ Forall (fun x => (priority rule <= priority x)%Z) pre
       /\ Forall (fun x => (priority x < priority rule)%Z) post.
Proof.
  cbv zeta.
  assert (StronglySorted by_priority (custom_rules example_filter))
    as Hsorted by (repeat constructor).
  split; [exact Hsorted|].
  exact (add_rule_inserts_by_priority example_filter
           (rule_of_data bad_sender_rule) Hsorted).
Defined.

Lemma remove_rule_undoes_add_rule_witness :
  let f := example_filter in
  let rule := rule_of_data bad_sender_rule in
  StronglySorted by_priority (custom_rules f)
  /\ Forall (fun r => name r <> name rule) (custom_rules f)
  /\ remove_rule (add_rule f rule) (name rule) = (true, f).
Proof.
  cbv zeta.
  assert (StronglySorted by_priority (custom_rules example_filter))
    as Hsorted by (repeat constructor).
  assert (Forall (fun r => name r <> name (rule_of_data bad_sender_rule))
            (custom_rules example_filter)) as Hfresh.
  { repeat constructor. discriminate. }
  split; [exact Hsorted|]. split; [exact Hfresh|].
  exact (remove_rule_undoes_add_rule example_filter
           (rule_of_data bad_sender_rule) Hsorted Hfresh).
Defined.

Lemma added_top_rule_decides_witness :
  let f := example_filter in
  let rule := {| name := "Mute N1"; filter_type := "sender";
                 pattern := "N1"; action := "block";
                 priority := 200%Z |} in
  let message := text_from 5 "N1" "EMERGENCY: need help" in
  Forall (fun x => (priority x < priority rule)%Z) (custom_rules f)
  /\ allow_or_block rule
  /\ rule_matches message rule = true
  /\ _check_custom_rules (custom_rules f) message = Ok true
  /\ _check_custom_rules (custom_rules (add_rule f rule)) message = Ok false.
Proof.
  cbv zeta.
  assert (Forall (fun x => (priority x < 200)%Z)
            (custom_rules example_filter)) as Htop.
  { repeat constructor. }
  split; [exact Htop|]. split; [right; reflexivity|].
  split; [reflexivity|]. split; [reflexivity|].
  exact (added_top_rule_decides (lib := literal_lib) example_filter
           {| name := "Mute N1"; filter_type := "sender";
              pattern := "N1"; action := "block"; priority := 200%Z |}
           (text_from 5 "N1" "EMERGENCY: need help")
           Htop (or_intror eq_refl) eq_refl).
Defined.

Lemma add_blacklist_node_blocks_the_sender_witness :
  let f := example_filter in
  let f' := add_blacklist_node f "N1" in
  enabled f = true
  /\ fst (should_forward f (text_from 1 "N1" "hi")) = Ok true
  /\ fst (should_forward f' (text_from 1 "N1" "hi")) = Ok false
  /\ fst (should_forward f' (text_from 2 "N2" "hi"))
     = fst (should_forward f (text_from 2 "N2" "hi")).
Proof.
  cbv zeta. split; [reflexivity|]. split; [reflexivity|].
  split.
  - exact (f_equal fst
             (proj1 (add_blacklist_node_blocks_the_sender
                       (lib := literal_lib) example_filter "N1"
                       (text_from 1 "N1" "hi") eq_refl)
                    eq_refl)).
  - apply (proj2 (add_blacklist_node_blocks_the_sender
                    (lib := literal_lib) example_filter "N1"
                    (text_from 2 "N2" "hi") eq_refl)).
    discriminate.
Defined.

Lemma add_whitelist_node_blocks_other_senders_witness :
  let f := example_filter in
  let message := text_from 2 "N2" "hi" in
  enabled f = true
  /\ get (m_from message) "" <> "N1"
  /\ mem_str (get (m_from message) "") (whitelist_nodes f) = false
  /\ fst (should_forward f message) = Ok true
  /\ fst (should_forward (add_whitelist_node f "N1") message) = Ok false.
Proof.
  cbv zeta. split; [reflexivity|]. split; [discriminate|].
  split; [reflexivity|]. split; [reflexivity|].
  assert (get (m_from (text_from 2 "N2" "hi")) "" <> "N1") as Hother
    by discriminate.
  exact (f_equal fst
           (add_whitelist_node_blocks_other_senders (lib := literal_lib)
              example_filter "N1" (text_from 2 "N2" "hi")
              eq_refl Hother eq_refl)).
Defined.

Lemma remove_last_whitelist_node_opens_filter_witness :
  let f := add_whitelist_node example_filter "N1" in
  let message := text_from 2 "N2" "hi" in
  enabled f = true
  /\ whitelist_nodes f = ["N1"]
  /\ get (m_from message) "" <> "N1"
  /\ fst (should_forward f message) = Ok false
  /\ fst (should_forward (remove_whitelist_node f "N1") message)
     = fst (should_forward (with_whitelist f []) message).
Proof.
  cbv zeta. split; [reflexivity|]. split; [reflexivity|].
  split; [discriminate|].
  assert (get (m_from (text_from 2 "N2" "hi")) "" <> "N1") as Hother
    by discriminate.
  exact (remove_last_whitelist_node_opens_filter (lib := literal_lib)
           (add_whitelist_node example_filter "N1") "N1"
           (text_from 2 "N2" "hi") eq_refl eq_refl Hother).
Defined.

Lemma remove_node_undoes_add_node_witness :
  let f := example_filter in
  mem_str "N1" (blacklist_nodes f) = false
  /\ mem_str "N1" (whitelist_nodes f) = false
  /\ remove_blacklist_node f "N1" = f
  /\ remove_blacklist_node (add_blacklist_node f "N1") "N1" = f
  /\ remove_whitelist_node f "N1" = f
  /\ remove_whitelist_node (add_whitelist_node f "N1") "N1" = f.
Proof.
  cbv zeta. split; [reflexivity|]. split; [reflexivity|].
  exact (remove_node_undoes_add_node example_filter "N1" eq_refl eq_refl).
Defined.

Lemma filter_calls_keep_rules_sorted_and_counters_consistent_witness :
  let cs :=
    [ call_should_forward (text_from 3 "!xyz789012" "spam");
      call_add_rule (rule_of_data bad_sender_rule);
      call_should_forward (text_from 1 "N1" "hi") ] in
  MessageFilter_init example_config = Ok example_filter
  /\ some_call_raised example_filter cs = false
  /\ map priority (custom_rules (after_calls example_filter cs)) = [100; 0]%Z
  /\ total_checked (stats (after_calls example_filter cs)) = 2
  /\ balanced (stats (after_calls example_filter cs)).
Proof.
  cbv zeta. do 4 (split; [reflexivity|]).
  exact (proj2 (filter_calls_keep_rules_sorted_and_counters_consistent
                  (lib := literal_lib) example_config example_filter
                  [ call_should_forward (text_from 3 "!xyz789012" "spam");
                    call_add_rule (rule_of_data bad_sender_rule);
                    call_should_forward (text_from 1 "N1" "hi") ]
                  eq_refl)
               eq_refl).
Defined.

Lemma pass_calls_in_order_witness :
  let b := three_radios_saving closed_database down in
  extract_text_message hello_packet = Some hello_text
  /\ passes b 0%Z hello_text = true
  /\ database_returns b 1%Z = true
  /\ snd (_handle_message b 0%Z hello_packet 2)
     = [TrackerAddMessage 1; MetricsReceived 2; MetricsNodeMessages "N1";
        DatabaseAddMessage 1 "N1" "broadcast" "hi" 0 2 Returns;
        SendText 0 "hi" 0 (Ok tt); TrackerMarkForwarded 1;
        MetricsSent 0; MetricsForwarded; DatabaseMarkForwarded 1 Returns;
        SendText 1 "hi" 0 (Raise LinkError);
        MetricsErrors 1; MetricsDropped;
        MetricsProcessingTime].
Proof.
  cbv zeta. do 3 (split; [reflexivity|]).
  exact (pass_calls_in_order (lib := literal_lib)
           (three_radios_saving closed_database down)
           0%Z hello_packet 2 hello_text eq_refl eq_refl).
Defined.

Lemma pass_accounts_agree_with_sends_witness :
  let b := three_radios_saving closed_database down in
  let calls := snd (_handle_message b 0%Z hello_packet 2) in
  extract_text_message hello_packet = Some hello_text
  /\ passes b 0%Z hello_text = true
  /\ database_returns b 1%Z = true
  /\ 2 < List.length (interfaces b)
  /\ count is_delivery calls + count is_failure calls = 2
  /\ count is_metrics_forwarded calls = count is_delivery calls
  /\ count is_metrics_dropped calls = count is_failure calls
  /\ count is_database_mark_forwarded calls = count is_delivery calls.
Proof.
  cbv zeta. do 3 (split; [reflexivity|]).
  split; [exact (le_n 3)|].
  exact (pass_accounts_agree_with_sends (lib := literal_lib)
           (three_radios_saving closed_database down) 0%Z hello_packet 2
           hello_text eq_refl eq_refl eq_refl (le_n 3)).
Defined.

Lemma pass_adds_one_count_per_radio_witness :
  let b := three_radios down None in
  let pass := _handle_message b 0%Z hello_packet 2 in
  extract_text_message hello_packet = Some hello_text
  /\ passes b 0%Z hello_text = true
  /\ database_returns b 1%Z = true
  /\ 2 < List.length (interfaces b)
  /\ List.length (radio_stats b) = List.length (interfaces b)
  /\ total received (radio_stats (fst pass)) = 1
  /\ total sent (radio_stats (fst pass)) = count is_delivery (snd pass)
  /\ total errors (radio_stats (fst pass)) = count is_failure (snd pass)
  /\ total received (radio_stats (fst pass))
     + total sent (radio_stats (fst pass))
     + total errors (radio_stats (fst pass)) = 3.
Proof.
  cbv zeta. do 3 (split; [reflexivity|]).
  split; [exact (le_n 3)|]. split; [reflexivity|].
  exact (pass_adds_one_count_per_radio (lib := literal_lib)
           (three_radios down None) 0%Z hello_packet 2 hello_text
           eq_refl eq_refl eq_refl (le_n 3) eq_refl).
Defined.

Lemma send_message_calls_the_named_radio_witness :
  let b := three_radios down None in
  1 < List.length (interfaces b)
  /\ radio_name 1 = "radio2"
  /\ send_message b "hi" "radio2" 0
     = (false, [RadioSendText 1 "hi" 0 (Raise LinkError)]).
Proof.
  cbv zeta. split; [exact (le_S _ _ (le_n 2))|]. split; [reflexivity|].
  exact (send_message_calls_the_named_radio (three_radios down None)
           "hi" 0%Z 1 (le_S _ _ (le_n 2))).
Defined.

Lemma pass_metrics_count_each_target_once_witness :
  let b := three_radios down None in
  let calls := snd (_handle_message b 0%Z hello_packet 2) in
  let m' := collect_all (QArith_base.Qmake 12 1) MetricsCollector_init calls in
  extract_text_message hello_packet = Some hello_text
  /\ passes b 0%Z hello_text = true
  /\ database_returns b 1%Z = true
  /\ 2 < List.length (interfaces b)
  /\ metrics b = true
  /\ messages_forwarded_total m' = Z.of_nat (count is_delivery calls)
  /\ messages_dropped_total m' = Z.of_nat (count is_failure calls)
  /\ (messages_forwarded_total m' + messages_dropped_total m' = 2)%Z
  /\ messages_filtered_total m' = 0%Z.
Proof.
  cbv zeta. do 3 (split; [reflexivity|]).
  split; [exact (le_n 3)|]. split; [reflexivity|].
  exact (pass_metrics_count_each_target_once (lib := literal_lib)
           (three_radios down None) 0%Z hello_packet 2 hello_text
           (QArith_base.Qmake 12 1) MetricsCollector_init
           eq_refl eq_refl eq_refl (le_n 3) eq_refl).
Defined.

Lemma get_returns_what_set_wrote_witness :
  BridgeConfig.set BridgeConfig.DEFAULT_CONFIG "mqtt.tls.enabled" (VBool true)
  = Ok (dict_set "mqtt"
          (VDict [ ("enabled", VBool false);
                   ("broker", VStr "localhost");
                   ("port", VInt 1883);
                   ("username", VNull);
                   ("password", VNull);
                   ("topic_prefix", VStr "meshtastic/bridge");
                   ("publish_incoming", VBool true);
                   ("publish_outgoing", VBool true);
                   ("tls", VDict [("enabled", VBool true)]) ])
          BridgeConfig.DEFAULT_CONFIG)
  /\ BridgeConfig.get
       (dict_set "mqtt"
          (VDict [ ("enabled", VBool false);
                   ("broker", VStr "localhost");
                   ("port", VInt 1883);
                   ("username", VNull);
                   ("password", VNull);
                   ("topic_prefix", VStr "meshtastic/bridge");
                   ("publish_incoming", VBool true);
                   ("publish_outgoing", VBool true);
                   ("tls", VDict [("enabled", VBool true)]) ])
          BridgeConfig.DEFAULT_CONFIG)
       "mqtt.tls.enabled" VNull
     = VBool true.
Proof.
  split; [reflexivity|].
  exact (get_returns_what_set_wrote BridgeConfig.DEFAULT_CONFIG _
           "mqtt.tls.enabled" (VBool true) VNull eq_refl).
Defined.

Lemma set_leaves_other_keys_witness :
  let config' :=
    dict_set "web"
      (VDict [ ("enabled", VBool false); ("host", VStr "0.0.0.0");
               ("port", VInt 8000); ("api_enabled", VBool true) ])
      BridgeConfig.DEFAULT_CONFIG in
  BridgeConfig.set BridgeConfig.DEFAULT_CONFIG "web.port" (VInt 8000)
  = Ok config'
  /\ diverge (str_split "." "web.port") (str_split "." "web.host") = true
  /\ BridgeConfig.get config' "web.host" VNull
     = BridgeConfig.get BridgeConfig.DEFAULT_CONFIG "web.host" VNull.
Proof.
  cbv zeta. do 2 (split; [reflexivity|]).
  exact (set_leaves_other_keys BridgeConfig.DEFAULT_CONFIG _
           "web.port" "web.host" (VInt 8000) VNull eq_refl eq_refl).
Defined.

Lemma merge_configs_key_by_key_witness :
  let override := [("web", VDict [("enabled", VBool true)])] in
  NoDup (keys override)
  /\ dict_get "web"
       (BridgeConfig._merge_configs BridgeConfig.DEFAULT_CONFIG override)
     = Some (VDict [ ("enabled", VBool true); ("host", VStr "0.0.0.0");
                     ("port", VInt 8080); ("api_enabled", VBool true) ]).
Proof.
  cbv zeta.
  assert (NoDup (keys [("web", VDict [("enabled", VBool true)])])) as Hkeys.
  { repeat constructor. intros []. }
  split; [exact Hkeys|].
  exact (merge_configs_key_by_key BridgeConfig.DEFAULT_CONFIG
           [("web", VDict [("enabled", VBool true)])] "web" Hkeys).
Defined.

Lemma merge_configs_keeps_unmentioned_settings_witness :
  let override := [("web", VDict [("enabled", VBool true)])] in
  NoDup (keys override)
  /\ dict_get "web" override = Some (VDict [("enabled", VBool true)])
  /\ dict_get "port" [("enabled", VBool true)] = None
  /\ free_of "." "web" = true
  /\ free_of "." "port" = true
  /\ BridgeConfig.get
       (BridgeConfig._merge_configs BridgeConfig.DEFAULT_CONFIG override)
       "web.port" VNull
     = VInt 8080.
Proof.
  cbv zeta.
  assert (NoDup (keys [("web", VDict [("enabled", VBool true)])])) as Hkeys.
  { repeat constructor. intros []. }
  split; [exact Hkeys|]. do 4 (split; [reflexivity|]).
  exact (merge_configs_keeps_unmentioned_settings
           BridgeConfig.DEFAULT_CONFIG
           [("web", VDict [("enabled", VBool true)])]
           [("enabled", VBool true)] "web" "port" VNull
           Hkeys eq_refl eq_refl eq_refl eq_refl).
Defined.

Lemma validate_accepts_the_defaults_witness :
  let override := [("logging", VDict [("level", VStr "DEBUG")])] in
  Forall (fun s => dict_get s override = None)
         ["bridge"; "mqtt"; "database"; "web"; "metrics"]
  /\ BridgeConfig.validate (fun _ => false) (fun path => path)
       (BridgeConfig._merge_configs BridgeConfig.DEFAULT_CONFIG override)
     = Ok [].
Proof.
  cbv zeta.
  assert (Forall (fun s => dict_get s
                             [("logging", VDict [("level", VStr "DEBUG")])]
                           = None)
                 ["bridge"; "mqtt"; "database"; "web"; "metrics"])
    as Hsections by (repeat constructor).
  split; [exact Hsections|].
  exact (validate_accepts_the_defaults (fun _ => false) (fun path => path)
           [("logging", VDict [("level", VStr "DEBUG")])] Hsections).
Defined.

Lemma two_level_prefix_never_reaches_callback_witness :
  MQTTBridge.topic_prefix default_mqtt = ("meshtastic" ++ "/" ++ "bridge")%string
  /\ free_of "/" "meshtastic" = true
  /\ free_of "/" "bridge" = true
  /\ MQTTBridge.message_callback default_mqtt = true
  /\ snd (MQTTBridge._on_message (json := example_json) default_mqtt
            "meshtastic/bridge/command/send" hello) = [].
Proof.
  do 4 (split; [reflexivity|]).
  exact (two_level_prefix_never_reaches_callback (json := example_json)
           default_mqtt "meshtastic" "bridge"
           "meshtastic/bridge/command/send" hello eq_refl eq_refl eq_refl).
Defined.

Lemma one_level_prefix_send_command_witness :
  free_of "/" (MQTTBridge.topic_prefix one_level_mqtt) = true
  /\ MQTTBridge.message_callback one_level_mqtt = true
  /\ bytes_decode Strict hello = Ok "hello"
  /\ hd EmptyString (str_split "/" "send") = "send"
  /\ MQTTBridge._on_message (json := example_json) one_level_mqtt
       "mesh/command/send" hello
     = (MQTTBridge.incr_received one_level_mqtt,
        [ {| MQTTBridge.cmd_text := VStr "hello";
             MQTTBridge.cmd_radio := VStr "radio1";
             MQTTBridge.cmd_channel := VInt 0 |} ]).
Proof.
  do 4 (split; [reflexivity|]).
  exact (one_level_prefix_send_command (json := example_json)
           one_level_mqtt "send" "hello" hello
           eq_refl eq_refl eq_refl eq_refl).
Defined.

Lemma published_topics_are_not_commands_witness :
  let published :=
    snd (MQTTBridge.publish_message default_mqtt "N1" "hi" 0 "incoming") in
  MQTTBridge.homeassistant_discovery default_mqtt = false
  /\ map MQTTBridge.pub_topic published
     = [ "meshtastic/bridge/messages/incoming/N1";
         "meshtastic/bridge/text/incoming/N1";
         "meshtastic/bridge/channel/0/incoming" ]
  /\ Forall (fun p =>
               MQTTBridge.is_command_topic
                 (fst (MQTTBridge.publish_message default_mqtt "N1" "hi" 0
                                                  "incoming"))
                 (MQTTBridge.pub_topic p) = false
               /\ forall payload,
                    snd (MQTTBridge._on_message (json := example_json)
                           (fst (MQTTBridge.publish_message
                                   default_mqtt "N1" "hi" 0 "incoming"))
                           (MQTTBridge.pub_topic p) payload) = [])
            published.
Proof.
  cbv zeta. do 2 (split; [reflexivity|]).
  exact (proj1 (published_topics_are_not_commands (json := example_json)
                  default_mqtt "N1" "hi" 0%Z "incoming" eq_refl)).
Defined.
